(** * Number assignment and form responses (app.py): a shallow embedding

    The program is a Streamlit script that talks to a remote relational
    store through a query client.  The embedding keeps the store as an
    explicit value ([Db]) inside a [World] that also carries the outcome
    of the upcoming store requests ([faults]), the requests issued so far
    ([trace]) and the messages rendered to the user ([ui]).  Script code
    becomes a computation in a state-and-exception monad [M]. *)

From Stdlib Require Import Ascii.
From stdpp Require Import base gmap strings list pretty.

Open Scope string_scope.
Open Scope list_scope.
Open Scope Z_scope.

(** ** Rows of the store (spec section 3, columns as the code reads and writes them) *)

(** A row of a per-meeting pool table (CREATE TABLE at app.py:66-74).  The
    generated [id] column is never read by the program and is left out. *)
Record NumberSlot := mkSlot {
  number : Z;
  assigned : bool;
  assigned_at : option string;
  user_id : option string
}.

Record Meeting := mkMeeting {
  m_id : Z;
  m_table_name : string;
  meeting_name : string;
  m_created_at : string;
  max_number : Z
}.

Record Form := mkForm {
  f_id : Z;
  form_name : string;
  f_table_name : string;
  f_created_at : string
}.

Record MeetingForm := mkLink {
  mf_meeting_id : Z;
  mf_form_id : Z
}.

Record Question := mkQuestion {
  q_id : Z;
  q_form_id : Z;
  question_text : string;
  question_type : string;
  correct_answer : option string
}.

Record OptionRow := mkOption {
  o_id : Z;
  o_question_id : Z;
  option_text : string
}.

Record Response := mkResponse {
  r_form_id : Z;
  r_participant_id : string;
  r_question_id : Z;
  answer : string
}.

Global Instance NumberSlot_eq_dec : EqDecision NumberSlot.
Proof. solve_decision. Defined.
Global Instance Meeting_eq_dec : EqDecision Meeting.
Proof. solve_decision. Defined.
Global Instance Form_eq_dec : EqDecision Form.
Proof. solve_decision. Defined.
Global Instance MeetingForm_eq_dec : EqDecision MeetingForm.
Proof. solve_decision. Defined.
Global Instance Question_eq_dec : EqDecision Question.
Proof. solve_decision. Defined.
Global Instance OptionRow_eq_dec : EqDecision OptionRow.
Proof. solve_decision. Defined.
Global Instance Response_eq_dec : EqDecision Response.
Proof. solve_decision. Defined.

(** ** The store *)

(** The tables with a fixed name, and one pool table per meeting, created
    at run time under the meeting's [table_name].  Each fixed table with a
    generated [id] has its own sequence. *)
Record Db := mkDb {
  meetings_metadata : list Meeting;
  forms_metadata : list Form;
  meeting_forms : list MeetingForm;
  questions : list Question;
  options : list OptionRow;
  responses : list Response;
  pools : gmap string (list NumberSlot);
  seq_meetings : Z;
  seq_forms : Z;
  seq_questions : Z;
  seq_options : Z
}.

Definition fixed_tables : list string :=
  ["meetings_metadata"; "forms_metadata"; "meeting_forms";
   "questions"; "options"; "responses"].

Definition set_meetings_metadata (v : list Meeting) (d : Db) : Db :=
  mkDb v (forms_metadata d) (meeting_forms d) (questions d) (options d)
    (responses d) (pools d) (seq_meetings d) (seq_forms d) (seq_questions d)
    (seq_options d).
Definition set_forms_metadata (v : list Form) (d : Db) : Db :=
  mkDb (meetings_metadata d) v (meeting_forms d) (questions d) (options d)
    (responses d) (pools d) (seq_meetings d) (seq_forms d) (seq_questions d)
    (seq_options d).
Definition set_meeting_forms (v : list MeetingForm) (d : Db) : Db :=
  mkDb (meetings_metadata d) (forms_metadata d) v (questions d) (options d)
    (responses d) (pools d) (seq_meetings d) (seq_forms d) (seq_questions d)
    (seq_options d).
Definition set_questions (v : list Question) (d : Db) : Db :=
  mkDb (meetings_metadata d) (forms_metadata d) (meeting_forms d) v (options d)
    (responses d) (pools d) (seq_meetings d) (seq_forms d) (seq_questions d)
    (seq_options d).
Definition set_options (v : list OptionRow) (d : Db) : Db :=
  mkDb (meetings_metadata d) (forms_metadata d) (meeting_forms d) (questions d) v
    (responses d) (pools d) (seq_meetings d) (seq_forms d) (seq_questions d)
    (seq_options d).
Definition set_responses (v : list Response) (d : Db) : Db :=
  mkDb (meetings_metadata d) (forms_metadata d) (meeting_forms d) (questions d)
    (options d) v (pools d) (seq_meetings d) (seq_forms d) (seq_questions d)
    (seq_options d).
Definition set_pools (v : gmap string (list NumberSlot)) (d : Db) : Db :=
  mkDb (meetings_metadata d) (forms_metadata d) (meeting_forms d) (questions d)
    (options d) (responses d) v (seq_meetings d) (seq_forms d) (seq_questions d)
    (seq_options d).
Definition set_seq_meetings (v : Z) (d : Db) : Db :=
  mkDb (meetings_metadata d) (forms_metadata d) (meeting_forms d) (questions d)
    (options d) (responses d) (pools d) v (seq_forms d) (seq_questions d)
    (seq_options d).
Definition set_seq_forms (v : Z) (d : Db) : Db :=
  mkDb (meetings_metadata d) (forms_metadata d) (meeting_forms d) (questions d)
    (options d) (responses d) (pools d) (seq_meetings d) v (seq_questions d)
    (seq_options d).
Definition set_seq_questions (v : Z) (d : Db) : Db :=
  mkDb (meetings_metadata d) (forms_metadata d) (meeting_forms d) (questions d)
    (options d) (responses d) (pools d) (seq_meetings d) (seq_forms d) v
    (seq_options d).
Definition set_seq_options (v : Z) (d : Db) : Db :=
  mkDb (meetings_metadata d) (forms_metadata d) (meeting_forms d) (questions d)
    (options d) (responses d) (pools d) (seq_meetings d) (seq_forms d)
    (seq_questions d) v.

(** ** Requests, exceptions, messages *)

Inductive Sql :=
  | CreateTable (t : string)
  | DropTableIfExists (t : string).

(** One [.execute()] of the client: the kind of query and its table. *)
Inductive Request :=
  | Select (t : string)
  | Insert (t : string)
  | Update (t : string)
  | Delete (t : string)
  | Rpc (q : Sql).

(** What the script can raise.  [StopException] and [RerunException] are
    Streamlit's script-control exceptions ([st.stop()], [st.rerun()]); they
    derive from [BaseException], so [except Exception] lets them through.
    [StreamlitAPIException] is what Streamlit raises when a widget is used
    where it is not allowed. *)
Inductive Exn :=
  | APIError
  | IndexError
  | ValueError
  | TableNotCreated (table_name : string)
  | StreamlitAPIException
  | StopException
  | RerunException.

Definition is_Exception (e : Exn) : bool :=
  match e with
  | StopException | RerunException => false
  | _ => true
  end.

Inductive Message :=
  | Error (s : string)
  | Warning (s : string)
  | Info (s : string)
  | Success (s : string).

Global Instance Sql_eq_dec : EqDecision Sql.
Proof. solve_decision. Defined.
Global Instance Request_eq_dec : EqDecision Request.
Proof. solve_decision. Defined.
Global Instance Exn_eq_dec : EqDecision Exn.
Proof. solve_decision. Defined.
Global Instance Message_eq_dec : EqDecision Message.
Proof. solve_decision. Defined.

(** ** The world and the script monad *)

Record World := mkWorld {
  db : Db;
  (** outcome of the upcoming requests, in order: [true] = the request
      raises; past the end of the list every request succeeds *)
  faults : list bool;
  (** requests issued so far, oldest first *)
  trace : list Request;
  (** messages rendered, oldest first *)
  ui : list Message
}.

Inductive Res (A : Type) :=
  | Ok (a : A)
  | Raise (e : Exn).
Arguments Ok {A} a.
Arguments Raise {A} e.

Definition M (A : Type) : Type := World → Res A * World.

Global Instance M_ret : MRet M := λ A a w, (Ok a, w).

Global Instance M_bind : MBind M := λ A B k m w,
  match m w with
  | (Ok a, w') => k a w'
  | (Raise e, w') => (Raise e, w')
  end.

Definition raise {A} (e : Exn) : M A := λ w, (Raise e, w).

(** [try: body / except Exception as e: handler e] *)
Definition try_except {A} (body : M A) (handler : Exn → M A) : M A := λ w,
  match body w with
  | (Ok a, w') => (Ok a, w')
  | (Raise e, w') => if is_Exception e then handler e w' else (Raise e, w')
  end.

Definition get_db : M Db := λ w, (Ok (db w), w).
Definition put_db (d : Db) : M unit := λ w,
  (Ok tt, mkWorld d (faults w) (trace w) (ui w)).
Definition modify_db (f : Db → Db) : M unit := d ← get_db; put_db (f d).

Definition render (m : Message) : M unit := λ w,
  (Ok tt, mkWorld (db w) (faults w) (trace w) (ui w ++ [m])).
Definition st_error (s : string) : M unit := render (Error s).
Definition st_warning (s : string) : M unit := render (Warning s).
Definition st_info (s : string) : M unit := render (Info s).
Definition st_success (s : string) : M unit := render (Success s).
Definition st_stop {A} : M A := raise StopException.

(** Issue one request: it is recorded, and it raises when the store or the
    connection fails for it. *)
Definition execute (r : Request) : M unit := λ w,
  match faults w with
  | true :: fs => (Raise APIError, mkWorld (db w) fs (trace w ++ [r]) (ui w))
  | false :: fs => (Ok tt, mkWorld (db w) fs (trace w ++ [r]) (ui w))
  | [] => (Ok tt, mkWorld (db w) [] (trace w ++ [r]) (ui w))
  end.

(** [for x in xs: body x] *)
Fixpoint for_each {A} (xs : list A) (body : A → M unit) : M unit :=
  match xs with
  | [] => mret tt
  | x :: xs' => body x;; for_each xs' body
  end.

(** [xs[0]] *)
Definition index0 {A} (xs : list A) : M A :=
  match xs with
  | x :: _ => mret x
  | [] => raise IndexError
  end.

(** ** The query client *)

(** Pool tables are the tables created at run time; a name of a pool never
    coincides with a fixed table (app.py:388 builds it as
    [meeting_<time>_<name>]). *)
Definition table_exists (d : Db) (t : string) : Prop :=
  t ∈ fixed_tables ∨ is_Some (pools d !! t).

Global Instance table_exists_dec d t : Decision (table_exists d t).
Proof. unfold table_exists. apply _. Defined.

(** Rows of pool table [t]; the store rejects the query when there is no
    such pool. *)
Definition the_pool (t : string) : M (list NumberSlot) :=
  d ← get_db;
  match pools d !! t with
  | Some rows => mret rows
  | None => raise APIError
  end.

(** [supabase.table(t).select("*").limit(1).execute()] *)
Definition select_any (t : string) : M unit :=
  execute (Select t);;
  d ← get_db;
  if decide (table_exists d t) then mret tt else raise APIError.

(** [supabase.table(t).select(..).eq(..).execute().data] on a pool *)
Definition select_slots (t : string) (P : NumberSlot → Prop)
    `{∀ s, Decision (P s)} : M (list NumberSlot) :=
  execute (Select t);;
  rows ← the_pool t;
  mret (filter P rows).

(** [supabase.table(t).insert(data).execute()] on a pool *)
Definition insert_slots (t : string) (data : list NumberSlot) : M unit :=
  execute (Insert t);;
  rows ← the_pool t;
  modify_db (λ d, set_pools (<[t := rows ++ data]> (pools d)) d).

(** [supabase.table(t).update(patch).eq(..).execute()] on a pool *)
Definition update_slots (t : string) (patch : NumberSlot → NumberSlot)
    (P : NumberSlot → Prop) `{∀ s, Decision (P s)} : M unit :=
  execute (Update t);;
  rows ← the_pool t;
  modify_db (λ d,
    set_pools (<[t := (λ s, if decide (P s) then patch s else s) <$> rows]> (pools d)) d).

(** [supabase.rpc("execute_sql", {"query": q}).execute()] *)
Definition execute_sql (q : Sql) : M unit :=
  execute (Rpc q);;
  d ← get_db;
  match q with
  | CreateTable t =>
      if decide (table_exists d t) then raise APIError
      else put_db (set_pools (<[t := []]> (pools d)) d)
  | DropTableIfExists t => put_db (set_pools (delete t (pools d)) d)
  end.

Definition select_meetings (P : Meeting → Prop) `{∀ m, Decision (P m)} : M (list Meeting) :=
  execute (Select "meetings_metadata");;
  d ← get_db;
  mret (filter P (meetings_metadata d)).

(** The insert returns the stored row, with its generated [id]. *)
Definition insert_meeting (table_name meeting_name created_at : string)
    (max_number : Z) : M (list Meeting) :=
  execute (Insert "meetings_metadata");;
  d ← get_db;
  let row := mkMeeting (seq_meetings d) table_name meeting_name created_at max_number in
  put_db (set_seq_meetings (seq_meetings d + 1)
            (set_meetings_metadata (meetings_metadata d ++ [row]) d));;
  mret [row].

Definition delete_meetings (P : Meeting → Prop) `{∀ m, Decision (P m)} : M unit :=
  execute (Delete "meetings_metadata");;
  modify_db (λ d, set_meetings_metadata (filter (λ m, ¬ P m) (meetings_metadata d)) d).

Definition select_forms (P : Form → Prop) `{∀ f, Decision (P f)} : M (list Form) :=
  execute (Select "forms_metadata");;
  d ← get_db;
  mret (filter P (forms_metadata d)).

Definition insert_form (form_name table_name created_at : string) : M (list Form) :=
  execute (Insert "forms_metadata");;
  d ← get_db;
  let row := mkForm (seq_forms d) form_name table_name created_at in
  put_db (set_seq_forms (seq_forms d + 1)
            (set_forms_metadata (forms_metadata d ++ [row]) d));;
  mret [row].

Definition select_links (P : MeetingForm → Prop) `{∀ l, Decision (P l)} : M (list MeetingForm) :=
  execute (Select "meeting_forms");;
  d ← get_db;
  mret (filter P (meeting_forms d)).

Definition insert_link (meeting_id form_id : Z) : M unit :=
  execute (Insert "meeting_forms");;
  modify_db (λ d, set_meeting_forms (meeting_forms d ++ [mkLink meeting_id form_id]) d).

Definition select_questions (P : Question → Prop) `{∀ q, Decision (P q)} : M (list Question) :=
  execute (Select "questions");;
  d ← get_db;
  mret (filter P (questions d)).

Definition insert_question (form_id : Z) (text type : string)
    (correct : option string) : M (list Question) :=
  execute (Insert "questions");;
  d ← get_db;
  let row := mkQuestion (seq_questions d) form_id text type correct in
  put_db (set_seq_questions (seq_questions d + 1)
            (set_questions (questions d ++ [row]) d));;
  mret [row].

Definition update_questions (patch : Question → Question)
    (P : Question → Prop) `{∀ q, Decision (P q)} : M unit :=
  execute (Update "questions");;
  modify_db (λ d,
    set_questions ((λ q, if decide (P q) then patch q else q) <$> questions d) d).

Definition select_options (P : OptionRow → Prop) `{∀ o, Decision (P o)} : M (list OptionRow) :=
  execute (Select "options");;
  d ← get_db;
  mret (filter P (options d)).

Definition insert_option (question_id : Z) (text : string) : M (list OptionRow) :=
  execute (Insert "options");;
  d ← get_db;
  let row := mkOption (seq_options d) question_id text in
  put_db (set_seq_options (seq_options d + 1)
            (set_options (options d ++ [row]) d));;
  mret [row].

Definition select_responses (P : Response → Prop) `{∀ r, Decision (P r)} : M (list Response) :=
  execute (Select "responses");;
  d ← get_db;
  mret (filter P (responses d)).

Definition insert_response (row : Response) : M unit :=
  execute (Insert "responses");;
  modify_db (λ d, set_responses (responses d ++ [row]) d).

(** [str(e)] of a caught exception *)
Definition exn_str (e : Exn) : string :=
  match e with
  | APIError => "APIError"
  | IndexError => "list index out of range"
  | ValueError => "ValueError"
  | TableNotCreated table_name =>
      "Tabela " +:+ table_name +:+ " não foi criada com sucesso no Supabase."
  | StreamlitAPIException => "`st.button()` can't be used in an `st.form()`."
  | StopException => "StopException"
  | RerunException => "RerunException"
  end.

(** ** app.py:47-53 *)
Definition check_table_exists (table_name : string) : M bool :=
  try_except (select_any table_name;; mret true) (λ _, mret false).

(** [range(start, stop, step)] for a positive [step] *)
Definition py_range (start stop step : Z) : list Z :=
  (λ k : nat, start + Z.of_nat k * step) <$>
    seq 0 (Z.to_nat ((stop - start + step - 1) `div` step)).

Definition fresh_slot (j : Z) : NumberSlot := mkSlot j false None None.

(** ** app.py:55-103, with the batch size as a parameter *)

(** The [try] part (app.py:58-95). *)
Definition create_meeting_table_try (batch_size : Z)
    (table_name meeting_name now : string) (max_number : Z)
    (selected_forms : option (list Z)) : M bool :=
  response_metadata ← insert_meeting table_name meeting_name now max_number;
  row ← index0 response_metadata;
  let meeting_id := m_id row in
  execute_sql (CreateTable table_name);;
  created ← check_table_exists table_name;
  (if negb created then raise (TableNotCreated table_name) else mret tt : M unit);;
  for_each (py_range 0 max_number batch_size) (λ i,
    let end_ := Z.min (i + batch_size) max_number in
    (* range(i+1, end+1) *)
    let data := fresh_slot <$> seqZ (i + 1) (end_ - i) in
    insert_slots table_name data);;
  match selected_forms with
  | Some ((_ :: _) as forms) =>
      for_each forms (λ form_id, insert_link meeting_id form_id)
  | _ => mret tt
  end;;
  mret true.

Definition CreationFailed (e : Exn) : Message :=
  Error ("Erro ao criar tabela de reunião: " +:+ exn_str e).
Definition RollbackFailed (e : Exn) : Message :=
  Error ("Erro no rollback: " +:+ exn_str e).

(** The [except Exception as e] part (app.py:96-103). *)
Definition create_meeting_table_except (table_name : string) (e : Exn) : M bool :=
  render (CreationFailed e);;
  try_except
    (delete_meetings (λ m, m_table_name m = table_name);;
     execute_sql (DropTableIfExists table_name))
    (λ rollback_e, render (RollbackFailed rollback_e));;
  mret false.

Definition create_meeting_table_batched (batch_size : Z)
    (table_name meeting_name now : string) (max_number : Z)
    (selected_forms : option (list Z)) : M bool :=
  try_except
    (create_meeting_table_try batch_size table_name meeting_name now
       max_number selected_forms)
    (create_meeting_table_except table_name).

(** [batch_size = 100] (app.py:81) *)
Definition create_meeting_table := create_meeting_table_batched 100.

(** ** app.py:105-143: catalog accessors *)

Definition MeetingsUnavailable (e : Exn) : Message :=
  Error ("Erro ao recuperar reuniões: " +:+ exn_str e).
Definition FormsUnavailable (e : Exn) : Message :=
  Error ("Erro ao recuperar formulários: " +:+ exn_str e).
Definition MeetingFormsUnavailable (e : Exn) : Message :=
  Error ("Erro ao recuperar formulários da reunião: " +:+ exn_str e).
Definition AnsweredUnavailable (e : Exn) : Message :=
  Error ("Erro ao verificar formulários respondidos: " +:+ exn_str e).

Definition get_available_meetings : M (list Meeting) :=
  try_except
    (select_meetings (λ _ : Meeting, True))
    (λ e, render (MeetingsUnavailable e);; mret []).

Definition get_available_forms : M (list Form) :=
  try_except
    (select_forms (λ _ : Form, True))
    (λ e, render (FormsUnavailable e);; mret []).

Definition get_forms_for_meeting (meeting_id : Z) : M (list Form) :=
  try_except
    (response ← select_links (λ l, mf_meeting_id l = meeting_id);
     let form_ids := mf_form_id <$> response in
     match form_ids with
     | _ :: _ => select_forms (λ f, f_id f ∈ form_ids)
     | [] => mret []
     end)
    (λ e, render (MeetingFormsUnavailable e);; mret []).

Definition get_answered_forms (participant_id : string) : M (gset Z) :=
  try_except
    (response ← select_responses (λ r, r_participant_id r = participant_id);
     mret (list_to_set (r_form_id <$> response)))
    (λ e, render (AnsweredUnavailable e);; mret ∅).

(** ** app.py:220-242: the allocation block of participant mode *)

(** [random.choice(xs)] on a non-empty list, [rnd] being the draw *)
Definition random_choice (rnd : nat) (xs : list Z) : Z :=
  default 0 (xs !! (rnd `mod` length xs)%nat).

Definition bind_slot (now user : string) (s : NumberSlot) : NumberSlot :=
  mkSlot (number s) true (Some now) (Some user).

(** The two ways the allocation block stops, by the message it renders. *)
Definition PoolExhausted : Message := Error "Todos os números foram atribuídos!".
Definition AllocationFailed (e : Exn) : Message :=
  Error ("Erro ao atribuir número: " +:+ exn_str e).

Definition assign_or_get (table_name_from_url user now : string) (rnd : nat) : M Z :=
  try_except
    (existing ← select_slots table_name_from_url (λ s, user_id s = Some user);
     match existing with
     | s :: _ => mret (number s)
     | [] =>
         response ← select_slots table_name_from_url (λ s, assigned s = false);
         match response with
         | _ :: _ =>
             let available_numbers := number <$> response in
             match available_numbers with
             | _ :: _ =>
                 let assigned_number := random_choice rnd available_numbers in
                 update_slots table_name_from_url (bind_slot now user)
                   (λ s, number s = assigned_number);;
                 mret assigned_number
             | [] => render PoolExhausted;; st_stop
             end
         | [] => render PoolExhausted;; st_stop
         end
     end)
    (λ e, render (AllocationFailed e);; st_stop).

(** ** app.py:279-356: participant mode for forms *)

(** A value held by the [responses] dict of the form: the text typed
    in, the id of the chosen option, or [None]. *)
Inductive PyVal :=
  | PyStr (s : string)
  | PyInt (z : Z)
  | PyNone.

(** Truth value, as [all(...)] tests it. *)
Definition truthy (v : PyVal) : bool :=
  match v with
  | PyStr s => negb (bool_decide (s = ""))
  | PyInt z => negb (bool_decide (z = 0))
  | PyNone => false
  end.

(** [str(v)] *)
Definition py_str (v : PyVal) : string :=
  match v with
  | PyStr s => s
  | PyInt z => pretty z
  | PyNone => "None"
  end.

(** [d[k] = v] on an insertion-ordered dict *)
Fixpoint dict_set (k : Z) (v : PyVal) (d : list (Z * PyVal)) : list (Z * PyVal) :=
  match d with
  | [] => [(k, v)]
  | (k', v') :: d' => if decide (k' = k) then (k, v) :: d' else (k', v') :: dict_set k v d'
  end.

(** [xs.index(x)] *)
Fixpoint list_index (x : string) (xs : list string) : option nat :=
  match xs with
  | [] => None
  | y :: ys => if decide (y = x) then Some 0%nat else S <$> list_index x ys
  end.

(** What the participant did, by question id (the widgets are keyed
    [resp_<question id>]): the text typed in, the position ticked in the
    radio group, if any, and whether the submit button was pressed. *)
Record FormInput := mkInput {
  text_input : Z → string;
  radio : Z → option nat;
  form_submit_button : bool
}.

(** [st.radio(label, options, index=None)]: the option ticked, which is
    one of [options], or [None] when nothing is ticked. *)
Definition st_radio (options : list string) (ticked : option nat) : option string :=
  ticked ≫= (options !!.).

Definition FormNotFound : Message := Error "Formulário não encontrado.".
Definition NoQuestions : Message :=
  Error "Nenhuma pergunta encontrada para este formulário.".
Definition Unauthorized : Message :=
  Error "Você precisa ter um número atribuído para responder formulários.".
Definition AlreadySubmitted : Message :=
  Warning "Você já respondeu este formulário. Cada participante só pode responder uma vez.".
Definition ValidationError : Message := Warning "Preencha todas as respostas.".
Definition Submitted : Message := Success "Respostas enviadas com sucesso!".

(** The loop of app.py:302-307, with its [break]. *)
Fixpoint scan_meetings (user : string) (meetings : list Meeting) : M (string * string) :=
  match meetings with
  | [] => mret ("", "")
  | meeting :: rest =>
      assigned ← select_slots (m_table_name meeting) (λ s, user_id s = Some user);
      match assigned with
      | s :: _ => mret (pretty (number s), m_table_name meeting)
      | [] => scan_meetings user rest
      end
  end.

(** app.py:286-317: everything before the form is rendered.  Returns the
    form id, the questions, the participant id and the meeting table. *)
Definition participant_form_checks (table_name_from_url user : string)
    : M (Z * list Question * string * string) :=
  form_info ← select_forms (λ f, f_table_name f = table_name_from_url);
  (match form_info with
   | [] => render FormNotFound;; st_stop
   | _ :: _ => mret tt
   end);;
  form ← index0 form_info;
  let form_id := f_id form in
  questions ← select_questions (λ q, q_form_id q = form_id);
  (match questions with
   | [] => render NoQuestions;; st_stop
   | _ :: _ => mret tt
   end);;
  meetings ← get_available_meetings;
  found ← scan_meetings user meetings;
  let participant_id_default := found.1 in
  let meeting_table_name := found.2 in
  (if decide (participant_id_default = "")
   then render Unauthorized;; st_stop
   else mret tt);;
  let participant_id := participant_id_default in
  answered_forms ← get_answered_forms participant_id;
  (if decide (form_id ∈ answered_forms)
   then render AlreadySubmitted;; st_stop
   else mret tt);;
  mret (form_id, questions, participant_id, meeting_table_name).

(** app.py:320-333: the [responses] dict built while the form is rendered. *)
Fixpoint collect_responses (inp : FormInput) (qs : list Question)
    (responses : list (Z * PyVal)) : M (list (Z * PyVal)) :=
  match qs with
  | [] => mret responses
  | q :: rest =>
      if decide (question_type q = "text") then
        collect_responses inp rest
          (dict_set (q_id q) (PyStr (text_input inp (q_id q))) responses)
      else if decide (question_type q = "multiple_choice") then
        opts ← select_options (λ o, o_question_id o = q_id q);
        let option_texts := option_text <$> opts in
        let option_ids := o_id <$> opts in
        match st_radio option_texts (radio inp (q_id q)) with
        | Some selected_option =>
            match list_index selected_option option_texts with
            | Some i =>
                match option_ids !! i with
                | Some oid =>
                    collect_responses inp rest (dict_set (q_id q) (PyInt oid) responses)
                | None => raise IndexError
                end
            | None => raise ValueError
            end
        | None => collect_responses inp rest (dict_set (q_id q) PyNone responses)
        end
      else collect_responses inp rest responses
  end.

(** app.py:336-356: the submit branch. *)
Definition submit_responses (inp : FormInput) (form_id : Z) (participant_id : string)
    (responses : list (Z * PyVal)) : M unit :=
  if form_submit_button inp then
    if forallb truthy (responses.*2) then
      for_each responses (λ item,
        insert_response (mkResponse form_id participant_id item.1 (py_str item.2)));;
      render Submitted;;
      raise RerunException
    else render ValidationError
  else mret tt.

Definition participant_form (table_name_from_url user : string) (inp : FormInput) : M unit :=
  checked ← participant_form_checks table_name_from_url user;
  let '(form_id, questions, participant_id, _) := checked in
  responses ← collect_responses inp questions [];
  submit_responses inp form_id participant_id responses.

(** ** app.py:686-723: creation of a form from the draft

    The block under the button that creates the form; the page reaches
    it at the end of [authoring_form] below. *)

Record DraftQuestion := mkDraft {
  dq_type : string;
  dq_text : string;
  dq_options : list string;
  dq_correct : option string
}.

Definition set_correct_answer (v : option string) (q : Question) : Question :=
  mkQuestion (q_id q) (q_form_id q) (question_text q) (question_type q) v.

(** [table_name] is what app.py:688 builds from the clock and the name. *)
Definition create_form (form_name table_name now : string)
    (draft : list DraftQuestion) : M unit :=
  if bool_decide (form_name ≠ "") && bool_decide (draft ≠ []) then
    form_response ← insert_form form_name table_name now;
    form ← index0 form_response;
    let form_id := f_id form in
    for_each draft (λ q,
      q_response ← insert_question form_id (dq_text q) (dq_type q) (dq_correct q);
      q_row ← index0 q_response;
      let question_id := q_id q_row in
      if bool_decide (dq_type q = "multiple_choice") && bool_decide (dq_options q ≠ []) then
        for_each (dq_options q) (λ opt,
          opt_response ← insert_option question_id opt;
          if decide (Some opt = dq_correct q) then
            opt_row ← index0 opt_response;
            update_questions (set_correct_answer (Some (pretty (o_id opt_row))))
              (λ q', q_id q' = question_id)
          else mret tt)
      else mret tt);;
    render (Success ("Formulário '" +:+ form_name +:+ "' criado com sucesso!"));;
    raise RerunException
  else render (Warning "Insira um nome para o formulário e pelo menos uma pergunta.").

(** ** app.py:535-578: the table of graded responses of the statistics page *)

Record GradedRow := mkGraded {
  Participante : string;
  Formulario : string;
  Pergunta : string;
  Resposta : string;
  Correta : string
}.

(** [s.lower()] follows the case mapping of Unicode, which is not part
    of the program: the code that calls it takes the mapping as the
    parameter [lower].  [ascii_lower] is that mapping on strings of ASCII
    characters, and is what the examples run with. *)
Definition lower_ascii (c : Ascii.ascii) : Ascii.ascii :=
  let n := Ascii.nat_of_ascii c in
  if (65 <=? n)%nat && (n <=? 90)%nat then Ascii.ascii_of_nat (n + 32) else c.

Fixpoint ascii_lower (s : string) : string :=
  match s with
  | EmptyString => EmptyString
  | String c s' => String (lower_ascii c) (ascii_lower s')
  end.

(** Truth value of a nullable text column. *)
Definition text_truthy (v : option string) : bool :=
  match v with
  | Some s => negb (bool_decide (s = ""))
  | None => false
  end.

Definition grade_response (lower : string → string) (forms : list Form)
    (resp : Response) : M GradedRow :=
  let form := head (filter (λ f, f_id f = r_form_id resp) forms) in
  found ← select_questions (λ q, q_id q = r_question_id resp);
  question ← index0 found;
  graded ←
    (if decide (question_type question = "multiple_choice") then
       (* the id column is compared with the text of the answer *)
       option ← select_options (λ o, pretty (o_id o) = answer resp);
       let answer_display :=
         match option with
         | o :: _ => option_text o
         | [] => answer resp
         end in
       let is_correct :=
         if text_truthy (correct_answer question) then
           Some (if decide (Some (answer resp) = correct_answer question)
                 then "✅ Correta" else "❌ Incorreta")
         else None in
       mret (answer_display, is_correct)
     else if bool_decide (question_type question = "text")
               && text_truthy (correct_answer question) then
       mret (answer resp,
             Some (if decide (Some (lower (answer resp))
                              = lower <$> correct_answer question)
                   then "✅ Correta" else "❌ Incorreta"))
     else mret (answer resp, None) : M (string * option string));
  mret (mkGraded (r_participant_id resp)
          (match form with Some f => form_name f | None => "Desconhecido" end)
          (question_text question)
          graded.1
          (default "N/A" graded.2)).

(** [for resp in responses.data: ... response_data.append(...)] *)
Fixpoint grade_each (lower : string → string) (forms : list Form)
    (resps : list Response) : M (list GradedRow) :=
  match resps with
  | [] => mret []
  | resp :: rest =>
      row ← grade_response lower forms resp;
      rows ← grade_each lower forms rest;
      mret (row :: rows)
  end.

Definition grade_responses (lower : string → string) (meeting_id : Z)
    : M (list GradedRow) :=
  forms ← get_forms_for_meeting meeting_id;
  match forms with
  | _ :: _ =>
      let form_ids := f_id <$> forms in
      responses ← select_responses (λ r, r_form_id r ∈ form_ids);
      match responses with
      | _ :: _ => grade_each lower forms responses
      | [] =>
          render (Info "Nenhuma resposta registrada para os formulários desta reunião.");;
          mret []
      end
  | [] => render (Info "Nenhum formulário associado a esta reunião.");; mret []
  end.

(** ** Vocabulary for statements about runs *)

(** The next request raises. *)
Definition next_fails (w : World) : bool :=
  match faults w with
  | true :: _ => true
  | _ => false
  end.

(** The world after one more request was issued. *)
Definition issued (r : Request) (w : World) : World :=
  mkWorld (db w) (tail (faults w)) (trace w ++ [r]) (ui w).

Definition shown (m : Message) (w : World) : World :=
  mkWorld (db w) (faults w) (trace w) (ui w ++ [m]).

Definition with_db (d : Db) (w : World) : World :=
  mkWorld d (faults w) (trace w) (ui w).

(** Between [w] and [w'] exactly the requests [reqs] were issued. *)
Definition requests_of (w w' : World) (reqs : list Request) : Prop :=
  trace w' = trace w ++ reqs ∧ faults w' = drop (length reqs) (faults w).

(** None of the requests [reqs] issued from [w] on was failed by the store. *)
Definition all_succeeded (w : World) (reqs : list Request) : Prop :=
  ∀ i, (i < length reqs)%nat → faults w !! i ≠ Some true.

(** The store after a pool creation that went through (app.py:58-95). *)
Definition created_db (table_name meeting_name now : string) (max_number : Z)
    (selected_forms : option (list Z)) (d : Db) : Db :=
  let meeting_id := seq_meetings d in
  set_meeting_forms
    (meeting_forms d ++ (mkLink meeting_id <$> default [] selected_forms))
    (set_pools (<[table_name := fresh_slot <$> seqZ 1 max_number]> (pools d))
       (set_seq_meetings (meeting_id + 1)
          (set_meetings_metadata
             (meetings_metadata d ++
                [mkMeeting meeting_id table_name meeting_name now max_number]) d))).

(** Both requests of the compensating rollback were issued between [w]
    and [w']: the delete of the metadata record and the drop of the pool. *)
Definition rollback_attempted (table_name : string) (w w' : World) : Prop :=
  ∃ reqs, trace w' = trace w ++ reqs ∧
    Delete "meetings_metadata" ∈ reqs ∧
    Rpc (DropTableIfExists table_name) ∈ reqs.

(** A creation of a pool of 150 numbers in which the second batch insert
    and then the delete of the rollback are failed by the store. *)
Definition interrupted_world : World :=
  mkWorld (mkDb [] [] [] [] [] [] ∅ 1 1 1 1)
    [false; false; false; false; true; true] [] [].

Definition interrupted_creation : Res bool * World :=
  create_meeting_table "meeting_1_a" "A" "t0" 150 None interrupted_world.

(** A creation with two selected forms in which the insert of the second
    link is failed by the store; the rollback then goes through. *)
Definition half_linked_world : World :=
  mkWorld (mkDb [] [] [] [] [] [] ∅ 1 1 1 1)
    [false; false; false; false; false; true] [] [].

Definition half_linked_creation : Res bool * World :=
  create_meeting_table "meeting_1_a" "A" "t0" 10 (Some [7; 8]) half_linked_world.

(** A store with one meeting in its catalog. *)
Definition one_meeting_db : Db :=
  mkDb [mkMeeting 1 "meeting_1_a" "A" "t0" 10] [] [] [] [] [] ∅ 2 1 1 1.

(** ** Vocabulary for the allocator *)

Definition owns (u : string) (s : NumberSlot) : Prop := user_id s = Some u.
Definition unassigned (s : NumberSlot) : Prop := assigned s = false.

Global Instance owns_dec u s : Decision (owns u s).
Proof. unfold owns. apply _. Defined.
Global Instance unassigned_dec s : Decision (unassigned s).
Proof. unfold unassigned. apply _. Defined.

(** The number handed to a new identity, and the pool after the write. *)
Definition picked (rnd : nat) (p : list NumberSlot) : Z :=
  random_choice rnd (number <$> filter unassigned p).

Definition written (now u : string) (n : Z) (p : list NumberSlot) : list NumberSlot :=
  (λ s, if decide (number s = n) then bind_slot now u s else s) <$> p.

(** Identity [u] holds number [n] in pool [p]. *)
Definition holds (p : list NumberSlot) (u : string) (n : Z) : Prop :=
  ∃ s, s ∈ p ∧ user_id s = Some u ∧ number s = n.

(** The shape of every pool that was created by [create_meeting_table] and
    then written only by the allocator: one row per number, a row is
    unassigned exactly when no identity is bound to it, and an identity
    is bound to rows of one number only. *)
Record pool_ok (p : list NumberSlot) : Prop := mkPoolOk {
  ok_numbers : NoDup (number <$> p);
  ok_bound : ∀ s, s ∈ p → (assigned s = false ↔ user_id s = None);
  ok_owner : ∀ s1 s2 u, s1 ∈ p → s2 ∈ p → owns u s1 → owns u s2 → number s1 = number s2
}.

(** Sequential allocation requests, each one a script run of its own:
    a run that stops does not stop the later ones. *)
Fixpoint run_allocations (t : string) (calls : list (string * string * nat))
    (w : World) : list (Res Z) * World :=
  match calls with
  | [] => ([], w)
  | (u, now, rnd) :: calls' =>
      let '(r, w1) := assign_or_get t u now rnd w in
      let '(rs, w2) := run_allocations t calls' w1 in
      (r :: rs, w2)
  end.

Definition identities (calls : list (string * string * nat)) : list string :=
  (λ c, c.1.1) <$> calls.

(** ** Vocabulary for form submissions *)

(** What the scan of the pools finds for an identity, read off the store:
    the number of the first pool, in the order of the catalog, that holds
    a slot bound to the identity; no binding at all; or a catalog entry
    without pool table before any binding. *)
Inductive Scan :=
  | Bound (n : Z) (table_name : string)
  | Unbound
  | Broken.

Fixpoint scan_catalog (pls : gmap string (list NumberSlot)) (user : string)
    (meetings : list Meeting) : Scan :=
  match meetings with
  | [] => Unbound
  | meeting :: rest =>
      match pls !! m_table_name meeting with
      | Some p =>
          match filter (owns user) p with
          | s :: _ => Bound (number s) (m_table_name meeting)
          | [] => scan_catalog pls user rest
          end
      | None => Broken
      end
  end.

Definition first_binding (user : string) (d : Db) : Scan :=
  scan_catalog (pools d) user (meetings_metadata d).

(** A response row of the participant for the form is already stored. *)
Definition prior_response (participant_id : string) (form_id : Z) (d : Db) : Prop :=
  ∃ r, r ∈ responses d ∧ r_participant_id r = participant_id ∧ r_form_id r = form_id.

(** The widget of the question was left empty. *)
Definition answer_missing (inp : FormInput) (q : Question) : Prop :=
  (question_type q = "text" ∧ text_input inp (q_id q) = "") ∨
  (question_type q = "multiple_choice" ∧ radio inp (q_id q) = None).

(** The form the link names and its questions, as the first two queries
    of the form page find them. *)
Definition form_of (table_name : string) (d : Db) : option Form :=
  head (filter (λ f, f_table_name f = table_name) (forms_metadata d)).

Definition questions_of (form_id : Z) (d : Db) : list Question :=
  filter (λ q, q_form_id q = form_id) (questions d).

(** [d.get(k)] *)
Fixpoint dict_get (k : Z) (d : list (Z * PyVal)) : option PyVal :=
  match d with
  | [] => None
  | (k', v) :: d' => if decide (k' = k) then Some v else dict_get k d'
  end.

(** The rows the submit loop writes for the collected answers. *)
Definition response_rows (form_id : Z) (participant_id : string)
    (responses : list (Z * PyVal)) : list Response :=
  (λ item, mkResponse form_id participant_id item.1 (py_str item.2)) <$> responses.

(** A computation that only reads the store. *)
Definition reads {A} (m : M A) : Prop :=
  ∀ w, db (m w).2 = db w ∧ (faults w = [] → faults (m w).2 = []).

(** ** Concrete stores used by the examples *)

Definition empty_db : Db := mkDb [] [] [] [] [] [] ∅ 1 1 1 1.

(** A store holding one pool of [n] fresh slots under the name [t]. *)
Definition pool_db (t : string) (p : list NumberSlot) : Db :=
  set_pools {[ t := p ]} empty_db.

Definition world_of (d : Db) (fs : list bool) : World := mkWorld d fs [] [].

Definition three_calls : list (string * string * nat) :=
  [("ana", "t1", 4%nat); ("bia", "t2", 0%nat); ("ana", "t3", 1%nat)].

(** A store with one meeting of three numbers, number 2 held by the
    identity [u-ana], one form of two questions linked to the meeting, and
    the answers of participant 2 to that form. *)
Definition quiz_pool : list NumberSlot :=
  [mkSlot 1 false None None;
   mkSlot 2 true (Some "t2") (Some "u-ana");
   mkSlot 3 false None None].

Definition quiz_db : Db :=
  mkDb [mkMeeting 1 "meeting_2_m" "M" "t1" 3]
       [mkForm 1 "Quiz" "form_1_quiz" "t0"]
       [mkLink 1 1]
       [mkQuestion 1 1 "Say something" "text" None;
        mkQuestion 2 1 "Pick a colour" "multiple_choice" (Some "1")]
       [mkOption 1 2 "Red"; mkOption 2 2 "Blue"]
       [mkResponse 1 "2" 1 "hello"; mkResponse 1 "2" 2 "1"]
       {[ "meeting_2_m" := quiz_pool ]}
       2 2 3 3.

Definition quiz_input : FormInput :=
  mkInput (λ _, "hello") (λ _, Some 0%nat) true.

(** The participant submits again while the query for the answered forms
    (the fifth request of the page) is failed by the store. *)
Definition resubmission : Res unit * World :=
  participant_form "form_1_quiz" "u-ana" quiz_input
    (mkWorld quiz_db [false; false; false; false; true] [] []).

(** The same store before anyone answered, and an input with the text
    widget left empty. *)
Definition quiz_db_unanswered : Db := set_responses [] quiz_db.

Definition quiz_input_empty_text : FormInput :=
  mkInput (λ _, "") (λ _, Some 0%nat) true.

(** Two meetings: [u-ana] holds number 1 in the first and number 3 in the
    second, [u-bob] holds number 1 in the second.  Nobody answered yet. *)
Definition two_pools_db : Db :=
  mkDb [mkMeeting 1 "meeting_a" "A" "t1" 2; mkMeeting 2 "meeting_b" "B" "t2" 3]
       [mkForm 1 "Quiz" "form_1_quiz" "t0"]
       [mkLink 1 1; mkLink 2 1]
       [mkQuestion 1 1 "Say something" "text" None;
        mkQuestion 2 1 "Pick a colour" "multiple_choice" (Some "1")]
       [mkOption 1 2 "Red"; mkOption 2 2 "Blue"]
       []
       {[ "meeting_a" := [mkSlot 1 true (Some "t3") (Some "u-ana");
                          mkSlot 2 false None None];
          "meeting_b" := [mkSlot 1 true (Some "t4") (Some "u-bob");
                          mkSlot 2 false None None;
                          mkSlot 3 true (Some "t5") (Some "u-ana")] ]}
       3 2 3 3.

Definition ana_submission : Res unit * World :=
  participant_form "form_1_quiz" "u-ana" quiz_input (world_of two_pools_db []).

Definition bob_submission : Res unit * World :=
  participant_form "form_1_quiz" "u-bob" quiz_input
    (world_of (db ana_submission.2) []).

(** ** The grading scenario *)

(** The identity [u-ana], participant 2, answers "hello" and ticks Red,
    the first option, on the store where nobody answered yet; the
    statistics page of the meeting then grades the responses. *)
Definition quiz_submitted : Res unit * World :=
  participant_form "form_1_quiz" "u-ana" quiz_input (world_of quiz_db_unanswered []).

Definition quiz_graded : Res (list GradedRow) :=
  (grade_responses ascii_lower 1 (world_of (db quiz_submitted.2) [])).1.



(** A store with the meeting [meeting_1_a] of two numbers, number 1 held
    by [u-ana]. *)
Definition running_meeting_db : Db :=
  mkDb [mkMeeting 1 "meeting_1_a" "A" "t0" 2] [] [] [] [] []
       {[ "meeting_1_a" := [mkSlot 1 true (Some "t1") (Some "u-ana");
                            mkSlot 2 false None None] ]}
       2 1 1 1.

(** The store before anyone answered, failing the eighth request of a
    page: for the form page of [u-ana] that is the second insert. *)
Definition breaking_store : World :=
  mkWorld quiz_db_unanswered
    [false; false; false; false; false; false; false; true] [] [].

(** ** The allocation block as its reads followed by its write *)

(** What the block knows once its selects are done: the number the
    identity already owns, or the number drawn among the free ones. *)
Inductive Choice :=
  | Owned (n : Z)
  | Drawn (n : Z).

(** app.py:221-230, the selects and the draw. *)
Definition allocation_read (table_name_from_url user : string) (rnd : nat) : M Choice :=
  try_except
    (existing ← select_slots table_name_from_url (λ s, user_id s = Some user);
     match existing with
     | s :: _ => mret (Owned (number s))
     | [] =>
         response ← select_slots table_name_from_url (λ s, assigned s = false);
         match response with
         | _ :: _ =>
             let available_numbers := number <$> response in
             match available_numbers with
             | _ :: _ => mret (Drawn (random_choice rnd available_numbers))
             | [] => render PoolExhausted;; st_stop
             end
         | [] => render PoolExhausted;; st_stop
         end
     end)
    (λ e, render (AllocationFailed e);; st_stop).

(** app.py:231-236, the update. *)
Definition allocation_write (table_name_from_url user now : string) (c : Choice) : M Z :=
  match c with
  | Owned n => mret n
  | Drawn assigned_number =>
      try_except
        (update_slots table_name_from_url (bind_slot now user)
           (λ s, number s = assigned_number);;
         mret assigned_number)
        (λ e, render (AllocationFailed e);; st_stop)
  end.

(** Two sessions whose requests reach the store interleaved: both read
    before either writes. *)
Definition interleaved_allocations (t a b now_a now_b : string) (rnd_a rnd_b : nat)
    : M (Z * Z) :=
  choice_a ← allocation_read t a rnd_a;
  choice_b ← allocation_read t b rnd_b;
  number_a ← allocation_write t a now_a choice_a;
  number_b ← allocation_write t b now_b choice_b;
  mret (number_a, number_b).

(** ** app.py:175-180 *)

Definition base_url : string := "https://mynumber.streamlit.app".

Definition generate_participant_link (table_name : string) (user_id : option string)
    (mode : string) : string :=
  if text_truthy user_id then
    base_url +:+ "/?table=" +:+ table_name +:+ "&mode=" +:+ mode
      +:+ "&user_id=" +:+ default "" user_id
  else base_url +:+ "/?table=" +:+ table_name +:+ "&mode=" +:+ mode.

(** ** app.py:194-266: participant mode for meetings *)

Definition MeetingNotFound : Message := Error "Reunião não encontrada ou inválida.".
Definition NoFormsForMeeting : Message :=
  Info "Nenhum formulário disponível para esta reunião.".

(** One line of the list of forms shown to the participant. *)
Record FormEntry := mkEntry {
  entry_name : string;
  entry_status : string;
  entry_link : string
}.

Definition form_entry (user : string) (answered_forms : gset Z) (form : Form) : FormEntry :=
  let form_id := f_id form in
  let form_link :=
    generate_participant_link (f_table_name form) (Some user) "participant_form" in
  let status :=
    if decide (form_id ∈ answered_forms) then "✅ Respondido" else "⏳ Pendente" in
  mkEntry (form_name form) status form_link.

(** The page up to the button for the image: the number shown, the
    persistent link and the list of forms.  The allocation block carries
    the handler of app.py:264-266; the rest of that [try] block is under
    the same handler. *)
Definition participant_page (table_name_from_url user now : string) (rnd : nat)
    : M (Z * string * list FormEntry) :=
  found ← check_table_exists table_name_from_url;
  (if negb found then render MeetingNotFound;; st_stop else mret tt : M unit);;
  meeting_id ←
    try_except
      (meeting_info ← select_meetings (λ m, m_table_name m = table_name_from_url);
       row ← index0 meeting_info;
       mret (m_id row))
      (λ _, st_stop);
  let participant_link :=
    generate_participant_link table_name_from_url (Some user) "participant" in
  try_except
    (assigned_number ← assign_or_get table_name_from_url user now rnd;
     forms ← get_forms_for_meeting meeting_id;
     let participant_id := pretty assigned_number in
     answered_forms ← get_answered_forms participant_id;
     (match forms with
      | _ :: _ => mret tt
      | [] => render NoFormsForMeeting
      end);;
     mret (assigned_number, participant_link, form_entry user answered_forms <$> forms))
    (λ e, render (AllocationFailed e);; st_stop).

(** ** app.py:386-404: the submit branch of the page of meetings *)

(** [s.replace(a, b)] for single characters *)
Fixpoint replace_char (a b : Ascii.ascii) (s : string) : string :=
  match s with
  | EmptyString => EmptyString
  | String c s' => String (if Ascii.eqb c a then b else c) (replace_char a b s')
  end.

(** app.py:388, [time] being [int(time.time())] *)
Definition meeting_table_name (lower : string → string) (time : Z)
    (meeting_name : string) : string :=
  "meeting_" +:+ pretty time +:+ "_" +:+ replace_char " "%char "_"%char (lower meeting_name).

Definition MeetingExists : Message :=
  Error "Uma reunião com esse nome já existe. Tente outro nome.".
Definition MeetingCreated (meeting_name : string) : Message :=
  Success ("Reunião '" +:+ meeting_name +:+ "' criada com sucesso!").
Definition MeetingNotCreated : Message := Error "Falha ao criar a reunião.".
Definition MeetingNameMissing : Message :=
  Warning "Por favor, insira um nome para a reunião.".

Definition create_meeting_submit (lower : string → string) (meeting_name : string)
    (time : Z) (now : string) (max_number : Z) (selected_form_ids : option (list Z))
    : M unit :=
  if bool_decide (meeting_name ≠ "") then
    let table_name := meeting_table_name lower time meeting_name in
    found ← check_table_exists table_name;
    (if found : bool then render MeetingExists
     else
       success ← create_meeting_table table_name meeting_name now max_number
                   selected_form_ids;
       (if success : bool then render (MeetingCreated meeting_name);; raise RerunException
        else render MeetingNotCreated : M unit) : M unit)
  else render MeetingNameMissing.

(** ** app.py:406-434: the table of meetings *)

Record MeetingRow := mkMeetingRow {
  Nome : string;
  Tabela : string;
  Link : string;
  Criada_em : string;
  Numeros_Atribuidos : nat;
  Total_de_Numeros : Z
}.

(** [s[:16].replace("T", " ")] *)
Definition short_time (s : string) : string :=
  replace_char "T"%char " "%char (String.substring 0 16 s).

Definition MeetingUnreadable (table_name : string) (e : Exn) : Message :=
  Warning ("Erro ao processar reunião " +:+ table_name +:+ ": " +:+ exn_str e).
Definition NoValidMeeting : Message := Info "Nenhuma reunião válida encontrada.".
Definition NoMeetings : Message :=
  Info "Nenhuma reunião disponível ou erro ao acessar o Supabase.".

(** The body of the loop of app.py:410-428: a meeting contributes one row
    or none.  Every record of the catalog has the two keys the loop asks
    for. *)
Definition meeting_row (meeting : Meeting) : M (list MeetingRow) :=
  let table_name := m_table_name meeting in
  found ← check_table_exists table_name;
  if found : bool then
    try_except
      (count_response ← select_slots table_name (λ s, assigned s = true);
       let assigned_count := length count_response in
       let participant_link :=
         generate_participant_link table_name None "participant" in
       mret [mkMeetingRow (meeting_name meeting) table_name participant_link
               (short_time (m_created_at meeting)) assigned_count
               (max_number meeting)])
      (λ e, render (MeetingUnreadable table_name e);; mret [])
  else mret [].

Fixpoint meeting_rows (meetings : list Meeting) : M (list MeetingRow) :=
  match meetings with
  | [] => mret []
  | meeting :: rest =>
      row ← meeting_row meeting;
      rows ← meeting_rows rest;
      mret (row ++ rows)
  end.

Definition list_meetings : M (list MeetingRow) :=
  meetings ← get_available_meetings;
  match meetings with
  | _ :: _ =>
      meeting_data ← meeting_rows meetings;
      (match meeting_data with
       | _ :: _ => mret tt
       | [] => render NoValidMeeting
       end);;
      mret meeting_data
  | [] => render NoMeetings;; mret []
  end.

(** A store with the meeting that the page of meetings names
    [meeting_17_sprint_review], number 1 held by [u-ana]. *)
Definition sprint_db : Db :=
  mkDb [mkMeeting 1 "meeting_17_sprint_review" "Sprint Review" "t0" 2] [] [] [] [] []
       {[ "meeting_17_sprint_review" := [mkSlot 1 true (Some "t1") (Some "u-ana");
                                         mkSlot 2 false None None] ]}
       2 1 1 1.

(** The forms a meeting offers, as [get_forms_for_meeting] finds them when
    the store answers. *)
Definition linked_forms (meeting_id : Z) (d : Db) : list Form :=
  filter (λ f, f_id f ∈ (mf_form_id <$>
                           filter (λ l, mf_meeting_id l = meeting_id) (meeting_forms d)))
    (forms_metadata d).

(** ** app.py:587-723: the form that authors a form *)

(** The keys of [st.session_state] the page uses. *)
Record FormsSession := mkSession {
  ss_questions : list DraftQuestion;
  ss_current_options : list string;
  ss_show_options_form : bool;
  ss_current_question_index : option nat;
  ss_question_text : string;
  ss_option_text : string;
  ss_delete_trigger : option nat
}.

(** The submit buttons of the form; a run of the script sees at most one
    of them pressed. *)
Inductive FormButton :=
  | AddQuestion
  | AddOption
  | FinishOptions
  | CreateForm.

Global Instance FormButton_eq_dec : EqDecision FormButton.
Proof. solve_decision. Defined.

(** What the widgets of the form return in a run. *)
Record AuthoringInput := mkAuthoring {
  a_form_name : string;
  a_question_type : string;
  a_question_text : string;
  a_option_text : string;
  a_correct_option : string;
  a_pressed : option FormButton
}.

(** app.py:609-627 *)
Definition add_question (inp : AuthoringInput) (s : FormsSession) : M FormsSession :=
  if decide (a_pressed inp = Some AddQuestion) then
    if bool_decide (a_question_text inp ≠ "") then
      let question_data :=
        mkDraft (if decide (a_question_type inp = "Texto") then "text" else "multiple_choice")
          (a_question_text inp) [] None in
      let questions := ss_questions s ++ [question_data] in
      let s' :=
        if decide (a_question_type inp = "Múltipla Escolha") then
          mkSession questions [] true (Some (length questions - 1)%nat) ""
            (ss_option_text s) (ss_delete_trigger s)
        else
          mkSession questions (ss_current_options s) false (ss_current_question_index s) ""
            (ss_option_text s) (ss_delete_trigger s) in
      render (Success ("Pergunta '" +:+ a_question_text inp +:+ "' adicionada!"));;
      mret s'
    else render (Warning "O texto da pergunta é obrigatório.");; mret s
  else mret s.

(** [questions[i][key] = ...] *)
Definition update_question (i : nat) (f : DraftQuestion → DraftQuestion)
    (qs : list DraftQuestion) : M (list DraftQuestion) :=
  match qs !! i with
  | Some q => mret (<[i := f q]> qs)
  | None => raise IndexError
  end.

(** app.py:632-638 *)
Definition add_option (inp : AuthoringInput) (s : FormsSession) : M FormsSession :=
  if decide (a_pressed inp = Some AddOption) then
    if bool_decide (a_option_text inp ≠ "") then
      render (Success ("Opção '" +:+ a_option_text inp +:+ "' adicionada!"));;
      mret (mkSession (ss_questions s) (ss_current_options s ++ [a_option_text inp])
              (ss_show_options_form s) (ss_current_question_index s)
              (ss_question_text s) "" (ss_delete_trigger s))
    else render (Warning "O texto da opção é obrigatório.");; mret s
  else mret s.

(** app.py:645-657 *)
Definition finish_options (inp : AuthoringInput) (current_idx : nat) (s : FormsSession)
    : M FormsSession :=
  if bool_decide (2 ≤ length (ss_current_options s))%nat
     && bool_decide (a_pressed inp = Some FinishOptions) then
    questions ← update_question current_idx
                  (λ q, mkDraft (dq_type q) (dq_text q) (ss_current_options s)
                          (dq_correct q))
                  (ss_questions s);
    questions ←
      (if decide (a_correct_option inp ≠ "Nenhuma") then
         update_question current_idx
           (λ q, mkDraft (dq_type q) (dq_text q) (dq_options q)
                   (Some (a_correct_option inp)))
           questions
       else mret questions);
    render (Success "Opções e resposta correta (se selecionada) salvas!");;
    mret (mkSession questions [] false None (ss_question_text s) ""
            (ss_delete_trigger s))
  else mret s.

(** app.py:629-657 *)
Definition options_form (inp : AuthoringInput) (s : FormsSession) : M FormsSession :=
  match ss_show_options_form s, ss_current_question_index s with
  | true, Some current_idx =>
      s1 ← add_option inp s;
      finish_options inp current_idx s1
  | _, _ => mret s
  end.

(** [st.button] called inside [with st.form]: Streamlit accepts only
    [st.form_submit_button] there and raises. *)
Definition st_button_in_form : M bool := raise StreamlitAPIException.

(** The loop of app.py:661-671: one button per drafted question. *)
Fixpoint delete_buttons (i : nat) (qs : list DraftQuestion) (s : FormsSession)
    : M FormsSession :=
  match qs with
  | [] => mret s
  | _ :: rest =>
      clicked ← st_button_in_form;
      delete_buttons (S i) rest
        (if clicked : bool then
           mkSession (ss_questions s) (ss_current_options s) (ss_show_options_form s)
             (ss_current_question_index s) (ss_question_text s) (ss_option_text s) (Some i)
         else s)
  end.

(** app.py:673-683 *)
Definition apply_delete (s : FormsSession) : M FormsSession :=
  match ss_delete_trigger s with
  | Some i =>
      (match ss_questions s !! i with
       | Some _ => mret tt
       | None => raise IndexError
       end);;
      let questions := delete i (ss_questions s) in
      let s' :=
        if decide (ss_current_question_index s = Some i) then
          mkSession questions [] false None (ss_question_text s) (ss_option_text s) None
        else
          match ss_current_question_index s with
          | Some idx =>
              mkSession questions (ss_current_options s) (ss_show_options_form s)
                (Some (if bool_decide (i < idx)%nat then (idx - 1)%nat else idx))
                (ss_question_text s) (ss_option_text s) None
          | None =>
              mkSession questions (ss_current_options s) (ss_show_options_form s) None
                (ss_question_text s) (ss_option_text s) None
          end in
      render (Success ("Pergunta " +:+ pretty (Z.of_nat i + 1) +:+ " deletada!"));;
      mret s'
  | None => mret s
  end.

(** app.py:688 *)
Definition form_table_name (lower : string → string) (time : Z) (form_name : string)
    : string :=
  "form_" +:+ pretty time +:+ "_" +:+ replace_char " "%char "_"%char (lower form_name).

(** The body of [with st.form("create_form_form")], a run of the script
    on the session state [s]. *)
Definition authoring_form (lower : string → string) (inp : AuthoringInput) (time : Z)
    (now : string) (s : FormsSession) : M unit :=
  s1 ← add_question inp s;
  s2 ← options_form inp s1;
  s3 ←
    (match ss_questions s2 with
     | _ :: _ =>
         s' ← delete_buttons 0 (ss_questions s2) s2;
         apply_delete s'
     | [] => mret s2
     end);
  if decide (a_pressed inp = Some CreateForm) then
    create_form (a_form_name inp) (form_table_name lower time (a_form_name inp)) now
      (ss_questions s3)
  else mret tt.

(** A session that has drafted the form of the grading scenario, and the
    press of the button that creates it. *)
Definition quiz_session : FormsSession :=
  mkSession [mkDraft "text" "Say something" [] None;
             mkDraft "multiple_choice" "Pick a colour" ["Red"; "Blue"] (Some "Red")]
    [] false None "" "" None.

Definition press_create : AuthoringInput :=
  mkAuthoring "Quiz" "Texto" "" "" "Nenhuma" (Some CreateForm).

(** A computation that issues no request and leaves the store alone. *)
Definition no_request {A} (m : M A) : Prop :=
  ∀ w, db (m w).2 = db w ∧ trace (m w).2 = trace w ∧ faults (m w).2 = faults w.

(** The row of the table of meetings for a record of the catalog, read
    off the store: none when the record has no pool. *)
Definition meeting_row_of (d : Db) (meeting : Meeting) : list MeetingRow :=
  match pools d !! m_table_name meeting with
  | Some p =>
      [mkMeetingRow (meeting_name meeting) (m_table_name meeting)
         (generate_participant_link (m_table_name meeting) None "participant")
         (short_time (m_created_at meeting))
         (length (filter (λ s, assigned s = true) p))
         (max_number meeting)]
  | None => []
  end.

(** A store with the meeting [m] of three free numbers, and two requests
    of different identities. *)
Definition fresh_meeting_db : Db := created_db "m" "M" "t0" 3 None empty_db.

Definition two_calls : list (string * string * nat) :=
  [("ana", "t1", 4%nat); ("bia", "t2", 0%nat)].

(** * Part II: properties *)

(** ** Runs of the primitives *)

Lemma execute_run r w :
  execute r w = (if next_fails w then Raise APIError else Ok tt, issued r w).
Proof.
  unfold execute, next_fails, issued.
  destruct (faults w) as [|[] fs]; reflexivity.
Qed.

Lemma next_fails_no_faults w : faults w = [] → next_fails w = false.
Proof. unfold next_fails. intros ->. reflexivity. Qed.

Lemma issued_no_faults r w : faults w = [] → faults (issued r w) = [].
Proof. simpl. intros ->. reflexivity. Qed.

Ltac unfold_script :=
  unfold try_except, st_error, st_warning, st_info, st_success, st_stop,
    render, raise, modify_db, get_db, put_db, index0;
  unfold mbind, M_bind, mret, M_ret.

(** ** The allocator *)

(** The run of the allocation block, case by case. *)
Lemma assign_or_get_run t u now rnd w p :
  pools (db w) !! t = Some p →
  assign_or_get t u now rnd w =
    let w1 := issued (Select t) w in
    if next_fails w then (Raise StopException, shown (AllocationFailed APIError) w1)
    else match filter (owns u) p with
    | s :: _ => (Ok (number s), w1)
    | [] =>
        let w2 := issued (Select t) w1 in
        if next_fails w1 then (Raise StopException, shown (AllocationFailed APIError) w2)
        else match filter unassigned p with
        | [] => (Raise StopException, shown PoolExhausted w2)
        | _ :: _ =>
            let w3 := issued (Update t) w2 in
            if next_fails w2
            then (Raise StopException, shown (AllocationFailed APIError) w3)
            else (Ok (picked rnd p),
                  with_db (set_pools (<[t := written now u (picked rnd p) p]> (pools (db w))) (db w)) w3)
        end
    end.
Proof.
  intros Hp.
  unfold assign_or_get, select_slots, update_slots, the_pool.
  unfold_script. rewrite execute_run.
  destruct (next_fails w); [reflexivity|]. simpl. rewrite Hp.
  change (filter (λ s, user_id s = Some u) p) with (filter (owns u) p).
  destruct (filter (owns u) p) as [|s0 rest]; [|reflexivity].
  rewrite execute_run.
  destruct (next_fails (issued (Select t) w)); [reflexivity|]. simpl. rewrite Hp.
  change (filter (λ s, assigned s = false) p) with (filter unassigned p).
  unfold picked.
  destruct (filter unassigned p) as [|s1 rest1] eqn:Hfree; [reflexivity|].
  rewrite fmap_cons.
  rewrite execute_run. simpl.
  destruct (next_fails _); [reflexivity|]. simpl. rewrite Hp. reflexivity.
Qed.

Lemma written_numbers now u n p : number <$> written now u n p = number <$> p.
Proof.
  unfold written. rewrite <- list_fmap_compose. apply list_fmap_ext.
  intros i s _. simpl. case_decide; reflexivity.
Qed.

Lemma elem_of_written now u n p s' :
  s' ∈ written now u n p ↔
  ∃ s, s ∈ p ∧ s' = if decide (number s = n) then bind_slot now u s else s.
Proof.
  unfold written. rewrite list_elem_of_fmap. naive_solver.
Qed.

Lemma random_choice_elem rnd (xs : list Z) : xs ≠ [] → random_choice rnd xs ∈ xs.
Proof.
  intros Hne. unfold random_choice.
  assert (Hlen : (0 < length xs)%nat) by (destruct xs; [done | simpl; lia]).
  destruct (lookup_lt_is_Some_2 xs (rnd `mod` length xs)%nat) as [x Hx].
  { apply Nat.mod_upper_bound. lia. }
  rewrite Hx. simpl. by eapply list_elem_of_lookup_2.
Qed.

Lemma picked_free rnd p :
  filter unassigned p ≠ [] →
  ∃ s, s ∈ p ∧ unassigned s ∧ number s = picked rnd p.
Proof.
  intros Hne. unfold picked.
  assert (Hin : random_choice rnd (number <$> filter unassigned p)
                ∈ number <$> filter unassigned p).
  { apply random_choice_elem. by destruct (filter unassigned p). }
  apply list_elem_of_fmap in Hin as (s & Hs & Hin).
  apply list_elem_of_filter in Hin as [Hfree Hin]. eauto.
Qed.

Lemma same_number_same_row (p : list NumberSlot) s1 s2 :
  NoDup (number <$> p) → s1 ∈ p → s2 ∈ p → number s1 = number s2 → s1 = s2.
Proof.
  induction p as [|s p IH]; intros Hnd H1 H2 Heq.
  - by apply elem_of_nil in H1.
  - rewrite fmap_cons in Hnd. apply NoDup_cons in Hnd as [Hnotin Hnd].
    apply elem_of_cons in H1 as [->|H1]; apply elem_of_cons in H2 as [->|H2].
    + reflexivity.
    + exfalso. apply Hnotin. rewrite Heq. by apply list_elem_of_fmap_2.
    + exfalso. apply Hnotin. rewrite <- Heq. by apply list_elem_of_fmap_2.
    + by apply IH.
Qed.

Lemma no_owner_filter u (p : list NumberSlot) :
  filter (owns u) p = [] ↔ ∀ s, s ∈ p → user_id s ≠ Some u.
Proof.
  split.
  - intros Hnil s Hs Hown.
    assert (s ∈ filter (owns u) p) as Hin by (apply list_elem_of_filter; done).
    rewrite Hnil in Hin. by apply elem_of_nil in Hin.
  - intros Hno. destruct (filter (owns u) p) as [|s rest] eqn:Hf; [done|].
    assert (s ∈ filter (owns u) p) as Hin by (rewrite Hf; left).
    apply list_elem_of_filter in Hin as [Hown Hin]. by destruct (Hno s Hin).
Qed.

Lemma written_ok now u n p s0 :
  pool_ok p → filter (owns u) p = [] →
  s0 ∈ p → unassigned s0 → number s0 = n →
  pool_ok (written now u n p).
Proof.
  intros [Hnd Hb Ho] Hnone H0 Hfree Hn. rewrite no_owner_filter in Hnone.
  split.
  - by rewrite written_numbers.
  - intros s' (s & Hs & ->)%elem_of_written.
    case_decide; simpl; [split; discriminate|]. by apply Hb.
  - intros s1' s2' u' (s1 & Hs1 & ->)%elem_of_written (s2 & Hs2 & ->)%elem_of_written.
    unfold owns.
    destruct (decide (number s1 = n)) as [E1|E1];
      destruct (decide (number s2 = n)) as [E2|E2]; simpl; intros O1 O2.
    + congruence.
    + injection O1 as <-. by destruct (Hnone s2 Hs2).
    + injection O2 as <-. by destruct (Hnone s1 Hs1).
    + by eapply Ho.
Qed.

Lemma written_holds now u n p s0 :
  s0 ∈ p → number s0 = n → holds (written now u n p) u n.
Proof.
  intros H0 Hn. exists (bind_slot now u s0). split; [|done].
  apply elem_of_written. exists s0. split; [done|]. by rewrite decide_True.
Qed.

Lemma written_keeps now u n p s0 u' n' :
  pool_ok p → s0 ∈ p → unassigned s0 → number s0 = n →
  holds p u' n' → holds (written now u n p) u' n'.
Proof.
  intros [Hnd Hb Ho] H0 Hfree Hn (s & Hs & Hu & Hnum).
  exists s. split; [|done]. apply elem_of_written. exists s. split; [done|].
  rewrite decide_False; [done|]. intros E.
  assert (s = s0) as -> by (apply (same_number_same_row p); congruence).
  apply Hb in Hfree; [|done]. congruence.
Qed.

Lemma written_owner now u n p s' u' :
  s' ∈ written now u n p → owns u' s' → u' = u ∨ ∃ s, s ∈ p ∧ owns u' s.
Proof.
  intros (s & Hs & ->)%elem_of_written. unfold owns. case_decide; simpl.
  - intros [= <-]. by left.
  - intros Ho. right. eauto.
Qed.

Lemma holds_one_owner p u1 u2 n :
  pool_ok p → holds p u1 n → holds p u2 n → u1 = u2.
Proof.
  intros [Hnd _ _] (s1 & H1 & O1 & N1) (s2 & H2 & O2 & N2).
  assert (s1 = s2) as -> by (apply (same_number_same_row p); congruence).
  congruence.
Qed.

Lemma holds_one_number p u n1 n2 :
  pool_ok p → holds p u n1 → holds p u n2 → n1 = n2.
Proof.
  intros [_ _ Ho] (s1 & H1 & O1 & N1) (s2 & H2 & O2 & N2).
  rewrite <- N1, <- N2. by eapply Ho.
Qed.

(** At most one slot of a well-formed pool is bound to a given identity. *)
Lemma pool_ok_one_slot p u : pool_ok p → (length (filter (owns u) p) ≤ 1)%nat.
Proof.
  intros [Hnd _ Ho].
  assert (Hnd' : NoDup (filter (owns u) p)).
  { apply NoDup_filter. by eapply NoDup_fmap_1. }
  destruct (filter (owns u) p) as [|a [|b l]] eqn:Hf; simpl; try lia.
  exfalso.
  assert (Ha : a ∈ filter (owns u) p) by (rewrite Hf; set_solver).
  assert (Hb : b ∈ filter (owns u) p) by (rewrite Hf; set_solver).
  apply list_elem_of_filter in Ha as [Oa Ha].
  apply list_elem_of_filter in Hb as [Ob Hb].
  assert (a = b) as -> by (apply (same_number_same_row p); eauto).
  apply NoDup_cons in Hnd' as [Hnotin _]. apply Hnotin. left.
Qed.

Lemma written_absent now u n p :
  n ∉ number <$> p → written now u n p = p.
Proof.
  intros Hn. unfold written. rewrite <- (list_fmap_id p) at 2.
  apply list_fmap_ext. intros i s Hs. simpl.
  rewrite decide_False; [done|]. intros E. apply Hn. rewrite <- E.
  apply list_elem_of_fmap_2. by eapply list_elem_of_lookup_2.
Qed.

Lemma written_free now u n p s0 :
  NoDup (number <$> p) → s0 ∈ p → unassigned s0 → number s0 = n →
  (length (filter unassigned (written now u n p)) + 1 =
   length (filter unassigned p))%nat.
Proof.
  induction p as [|s p IH]; intros Hnd H0 Hfree Hn.
  - by apply elem_of_nil in H0.
  - rewrite fmap_cons in Hnd. apply NoDup_cons in Hnd as [Hnotin Hnd].
    change (written now u n (s :: p))
      with ((if decide (number s = n) then bind_slot now u s else s)
            :: written now u n p).
    destruct (decide (number s = n)) as [E|E].
    + assert (s0 = s) as ->.
      { apply elem_of_cons in H0 as [->|H0]; [done|].
        exfalso. apply Hnotin. rewrite E, <- Hn. by apply list_elem_of_fmap_2. }
      rewrite written_absent by congruence.
      rewrite filter_cons_False by (unfold unassigned; simpl; discriminate).
      rewrite filter_cons_True by done. simpl. lia.
    + apply elem_of_cons in H0 as [->|H0]; [congruence|].
      specialize (IH Hnd H0 Hfree Hn).
      destruct (decide (unassigned s)).
      * rewrite !filter_cons_True by done. simpl. lia.
      * rewrite !filter_cons_False by done. lia.
Qed.

(** One allocation request on a well-formed pool, whatever its result. *)
Lemma assign_or_get_step t u now rnd w p r w' :
  pools (db w) !! t = Some p → pool_ok p →
  assign_or_get t u now rnd w = (r, w') →
  ∃ p', pools (db w') !! t = Some p' ∧ pool_ok p' ∧
    (∀ u' n', holds p u' n' → holds p' u' n') ∧
    (∀ n, r = Ok n → holds p' u n) ∧
    (∀ u' s', s' ∈ p' → owns u' s' → u' = u ∨ ∃ s, s ∈ p ∧ owns u' s) ∧
    (∀ n, r = Ok n → filter (owns u) p = [] →
       (length (filter unassigned p') + 1 = length (filter unassigned p))%nat).
Proof.
  intros Hp Hok. rewrite (assign_or_get_run _ _ _ _ _ _ Hp). cbv zeta.
  assert (Hsame : ∀ r0, r0 = r → (∀ n, r0 = Ok n → holds p u n ∧ filter (owns u) p ≠ []) →
    ∃ p', pools (db w) !! t = Some p' ∧ pool_ok p' ∧
    (∀ u' n', holds p u' n' → holds p' u' n') ∧
    (∀ n, r = Ok n → holds p' u n) ∧
    (∀ u' s', s' ∈ p' → owns u' s' → u' = u ∨ ∃ s, s ∈ p ∧ owns u' s) ∧
    (∀ n, r = Ok n → filter (owns u) p = [] →
       (length (filter unassigned p') + 1 = length (filter unassigned p))%nat)).
  { intros r0 -> Hr. exists p. split_and!; eauto.
    - intros n Hn. by apply Hr.
    - intros n Hn Hnil. by destruct (Hr n Hn). }
  destruct (next_fails w).
  { intros [= <- <-]. simpl. by eapply Hsame. }
  destruct (filter (owns u) p) as [|s rest] eqn:Hown.
  2:{ intros [= <- <-]. simpl. eapply Hsame; [done|]. intros n [= <-].
      assert (s ∈ filter (owns u) p) as Hin by (rewrite Hown; left).
      apply list_elem_of_filter in Hin as [Ho Hin].
      split; [by exists s | done]. }
  destruct (next_fails _).
  { intros [= <- <-]. simpl. eapply Hsame; [done|]. done. }
  destruct (filter unassigned p) as [|s1 rest1] eqn:Hfree.
  { intros [= <- <-]. simpl. eapply Hsame; [done|]. done. }
  destruct (next_fails _).
  { intros [= <- <-]. simpl. eapply Hsame; [done|]. done. }
  intros [= <- <-]. simpl. clear Hsame.
  destruct (picked_free rnd p) as (s0 & H0 & Hf0 & Hn0); [by rewrite Hfree|].
  exists (written now u (picked rnd p) p). split_and!.
  - by rewrite lookup_insert_eq.
  - by eapply written_ok.
  - intros u' n'. by eapply written_keeps.
  - intros n [= <-]. by eapply written_holds.
  - intros u' s'. apply written_owner.
  - intros n _ _.
    pose proof (written_free now u _ p s0 (ok_numbers _ Hok) H0 Hf0 Hn0) as Hlen.
    rewrite Hfree in Hlen. simpl in *. lia.
Qed.

Lemma run_allocations_inv t calls : ∀ w p rs w',
  pools (db w) !! t = Some p → pool_ok p →
  run_allocations t calls w = (rs, w') →
  ∃ p', pools (db w') !! t = Some p' ∧ pool_ok p' ∧
    (∀ u n, holds p u n → holds p' u n) ∧
    (∀ i c n, calls !! i = Some c → rs !! i = Some (Ok n) → holds p' c.1.1 n).
Proof.
  induction calls as [|[[u now] rnd] calls IH]; intros w p rs w' Hp Hok; simpl.
  - intros [= <- <-]. exists p. split_and!; eauto. intros i c n Hc. done.
  - destruct (assign_or_get t u now rnd w) as [r w1] eqn:Hrun.
    destruct (run_allocations t calls w1) as [rs1 w2] eqn:Hrest.
    intros [= <- <-].
    destruct (assign_or_get_step _ _ _ _ _ _ _ _ Hp Hok Hrun)
      as (p1 & Hp1 & Hok1 & Hkeep1 & Hnew1 & _).
    destruct (IH _ _ _ _ Hp1 Hok1 Hrest) as (p2 & Hp2 & Hok2 & Hkeep2 & Hres2).
    exists p2. split_and!; eauto.
    intros [|i] c n; simpl.
    + intros [= <-] [= ->]. simpl. eauto.
    + apply Hres2.
Qed.

Lemma run_allocations_consume t calls : ∀ w p rs w',
  pools (db w) !! t = Some p → pool_ok p →
  NoDup (identities calls) →
  (∀ u, u ∈ identities calls → filter (owns u) p = []) →
  run_allocations t calls w = (rs, w') →
  Forall (λ r, ∃ n, r = Ok n) rs →
  ∃ p', pools (db w') !! t = Some p' ∧ pool_ok p' ∧
    (length (filter unassigned p') + length calls = length (filter unassigned p))%nat ∧
    (∀ u' s', s' ∈ p' → owns u' s' → u' ∈ identities calls ∨ ∃ s, s ∈ p ∧ owns u' s).
Proof.
  induction calls as [|[[u now] rnd] calls IH]; intros w p rs w' Hp Hok Hnd Hnew; simpl.
  - intros [= <- <-] _. exists p. split_and!; eauto; lia.
  - destruct (assign_or_get t u now rnd w) as [r w1] eqn:Hrun.
    destruct (run_allocations t calls w1) as [rs1 w2] eqn:Hrest.
    intros [= <- <-] [[n ->] Hall]%Forall_cons.
    change (identities ((u, now, rnd) :: calls)) with (u :: identities calls) in *.
    apply NoDup_cons in Hnd as [Hu Hnd].
    destruct (assign_or_get_step _ _ _ _ _ _ _ _ Hp Hok Hrun)
      as (p1 & Hp1 & Hok1 & _ & _ & Hown1 & Hcount1).
    assert (Hnew1 : ∀ u', u' ∈ identities calls → filter (owns u') p1 = []).
    { intros u' Hu'. apply no_owner_filter. intros s' Hs' Ho.
      destruct (Hown1 u' s' Hs' Ho) as [->|(s & Hs & Hos)]; [done|].
      assert (filter (owns u') p = []) as Hnil by (apply Hnew; by right).
      rewrite no_owner_filter in Hnil. by apply (Hnil s Hs). }
    destruct (IH _ _ _ _ Hp1 Hok1 Hnd Hnew1 Hrest Hall)
      as (p2 & Hp2 & Hok2 & Hcount2 & Hown2).
    exists p2. split_and!; [done|done| |].
    + specialize (Hcount1 n eq_refl (Hnew u ltac:(left))). lia.
    + intros u' s' Hs' Ho.
      destruct (Hown2 u' s' Hs' Ho) as [Hin|(s1 & Hs1 & Ho1)].
      * left. by right.
      * destruct (Hown1 u' s1 Hs1 Ho1) as [->|?]; [left; left | by right].
Qed.

(** A pool without a free slot refuses an identity that holds no slot:
    the run stops without a number and without a write. *)
Lemma exhausted_refuses t u now rnd w p :
  pools (db w) !! t = Some p →
  (∀ s, s ∈ p → assigned s ≠ false) →
  (∀ s, s ∈ p → user_id s ≠ Some u) →
  ∃ w', assign_or_get t u now rnd w = (Raise StopException, w') ∧
    db w' = db w ∧
    (∃ k, trace w' = trace w ++ replicate k (Select t)) ∧
    ui w' = ui w ++
      [if next_fails w || next_fails (issued (Select t) w)
       then AllocationFailed APIError else PoolExhausted].
Proof.
  intros Hp Hfull Hnone. rewrite (assign_or_get_run _ _ _ _ _ _ Hp). cbv zeta.
  apply no_owner_filter in Hnone. rewrite Hnone.
  assert (filter unassigned p = []) as ->.
  { destruct (filter unassigned p) as [|s rest] eqn:Hf; [done|].
    assert (s ∈ filter unassigned p) as Hin by (rewrite Hf; left).
    apply list_elem_of_filter in Hin as [Hfree Hin]. by destruct (Hfull s Hin). }
  destruct (next_fails w); simpl.
  { eexists. split_and!; [done|done| |done]. by exists 1%nat. }
  destruct (next_fails _); simpl.
  - eexists. split_and!; [done|done| |done]. exists 2%nat. simpl. by rewrite <- app_assoc.
  - eexists. split_and!; [done|done| |done]. exists 2%nat. simpl. by rewrite <- app_assoc.
Qed.

Lemma fresh_pool_ok n : pool_ok (fresh_slot <$> seqZ 1 n).
Proof.
  split.
  - rewrite <- list_fmap_compose.
    change (number ∘ fresh_slot) with (@id Z).
    rewrite list_fmap_id. apply NoDup_seqZ.
  - intros s (j & -> & _)%list_elem_of_fmap. done.
  - intros s1 s2 u (j & -> & _)%list_elem_of_fmap _ Ho. discriminate Ho.
Qed.

(** C1 — Allocator idempotence: when the identity already owns a slot of
    the pool, every call on that pool (in whatever world holds it, with
    whatever clock and random draw) looks the binding up with one select,
    writes nothing, and returns one and the same number [n], the number
    of a slot bound to the identity; the call fails only when that select
    itself fails. *)
Theorem allocator_idempotent t u p w1 w2 now1 now2 rnd1 rnd2 :
  pools (db w1) !! t = Some p →
  pools (db w2) !! t = Some p →
  (∃ s, s ∈ p ∧ user_id s = Some u) →
  ∃ n, holds p u n ∧
    (assign_or_get t u now1 rnd1 w1).1
      = (if next_fails w1 then Raise StopException else Ok n) ∧
    (assign_or_get t u now2 rnd2 w2).1
      = (if next_fails w2 then Raise StopException else Ok n) ∧
    db (assign_or_get t u now1 rnd1 w1).2 = db w1 ∧
    db (assign_or_get t u now2 rnd2 w2).2 = db w2 ∧
    trace (assign_or_get t u now1 rnd1 w1).2 = trace w1 ++ [Select t] ∧
    trace (assign_or_get t u now2 rnd2 w2).2 = trace w2 ++ [Select t].
Proof.
  intros Hp1 Hp2 (s & Hs & Hu).
  rewrite (assign_or_get_run _ _ _ _ _ _ Hp1), (assign_or_get_run _ _ _ _ _ _ Hp2).
  cbv zeta.
  destruct (filter (owns u) p) as [|s0 rest] eqn:Hown.
  { rewrite no_owner_filter in Hown. by destruct (Hown s Hs). }
  assert (s0 ∈ filter (owns u) p) as Hin by (rewrite Hown; left).
  apply list_elem_of_filter in Hin as [Ho Hin].
  exists (number s0). split; [by exists s0|].
  destruct (next_fails w1), (next_fails w2); simpl; done.
Qed.

Lemma allocator_idempotent_witness :
  ∃ n, holds [mkSlot 1 false None None; mkSlot 2 true (Some "t0") (Some "ana")] "ana" n ∧
    (assign_or_get "m" "ana" "t1" 5
       (world_of (pool_db "m" [mkSlot 1 false None None; mkSlot 2 true (Some "t0") (Some "ana")]) [])).1
      = Ok n ∧
    (assign_or_get "m" "ana" "t2" 8
       (world_of (pool_db "m" [mkSlot 1 false None None; mkSlot 2 true (Some "t0") (Some "ana")]) [])).1
      = Ok n.
Proof.
  destruct (allocator_idempotent "m" "ana"
    [mkSlot 1 false None None; mkSlot 2 true (Some "t0") (Some "ana")]
    (world_of (pool_db "m" [mkSlot 1 false None None; mkSlot 2 true (Some "t0") (Some "ana")]) [])
    (world_of (pool_db "m" [mkSlot 1 false None None; mkSlot 2 true (Some "t0") (Some "ana")]) [])
    "t1" "t2" 5%nat 8%nat) as (n & Hn & H1 & H2 & _).
  - reflexivity.
  - reflexivity.
  - exists (mkSlot 2 true (Some "t0") (Some "ana")). split; [set_solver | reflexivity].
  - exists n. auto.
Defined.

(** C2 — Allocation uniqueness for sequential executions: starting from a
    well-formed pool, after any sequence of allocation requests run one
    after the other, two requests of distinct identities that both
    returned a number returned different numbers, the pool is still
    well-formed, and at most one slot is bound to any identity. *)
Theorem sequential_allocations_unique t calls w p rs w' :
  pools (db w) !! t = Some p → pool_ok p →
  run_allocations t calls w = (rs, w') →
  (∀ i j ci cj ni nj,
     calls !! i = Some ci → calls !! j = Some cj →
     rs !! i = Some (Ok ni) → rs !! j = Some (Ok nj) →
     ci.1.1 ≠ cj.1.1 → ni ≠ nj) ∧
  ∃ p', pools (db w') !! t = Some p' ∧ pool_ok p' ∧
    ∀ u, (length (filter (owns u) p') ≤ 1)%nat.
Proof.
  intros Hp Hok Hrun.
  destruct (run_allocations_inv _ _ _ _ _ _ Hp Hok Hrun) as (p' & Hp' & Hok' & _ & Hres).
  split.
  - intros i j ci cj ni nj Hci Hcj Hri Hrj Hne ->. apply Hne.
    eapply holds_one_owner; eauto.
  - exists p'. split_and!; [done|done|]. intros u. by apply pool_ok_one_slot.
Qed.

Lemma sequential_allocations_unique_witness :
  (∀ i j ci cj ni nj,
     three_calls !! i = Some ci → three_calls !! j = Some cj →
     [Ok 2; Ok 1; Ok 2] !! i = Some (Ok ni) → [Ok 2; Ok 1; Ok 2] !! j = Some (Ok nj) →
     ci.1.1 ≠ cj.1.1 → ni ≠ nj) ∧
  ∃ p', pools (db (run_allocations "m" three_calls
                     (world_of (pool_db "m" (fresh_slot <$> seqZ 1 3)) [])).2) !! "m" = Some p' ∧
    pool_ok p' ∧ ∀ u, (length (filter (owns u) p') ≤ 1)%nat.
Proof.
  apply (sequential_allocations_unique "m" three_calls
           (world_of (pool_db "m" (fresh_slot <$> seqZ 1 3)) [])
           (fresh_slot <$> seqZ 1 3)).
  - reflexivity.
  - apply fresh_pool_ok.
  - vm_compute. reflexivity.
Defined.

(** C3 — Pool exhaustion.  (1) In a pool without an unassigned slot, a
    request of an identity that owns no slot stops without a number: the
    store is unchanged, only selects were issued, and the message is the
    exhaustion message unless one of the two selects failed.  (2) From a
    well-formed pool of N unassigned slots, after N requests of pairwise
    distinct identities that all returned a number, the request of one
    more identity stops in the same way. *)
Theorem pool_exhaustion :
  (∀ t u now rnd w p,
     pools (db w) !! t = Some p →
     (∀ s, s ∈ p → assigned s ≠ false) →
     (∀ s, s ∈ p → user_id s ≠ Some u) →
     ∃ w', assign_or_get t u now rnd w = (Raise StopException, w') ∧
       db w' = db w ∧
       (∃ k, trace w' = trace w ++ replicate k (Select t)) ∧
       ui w' = ui w ++
         [if next_fails w || next_fails (issued (Select t) w)
          then AllocationFailed APIError else PoolExhausted]) ∧
  (∀ t calls w p rs w' u now rnd,
     pools (db w) !! t = Some p → pool_ok p →
     (∀ s, s ∈ p → assigned s = false) →
     length calls = length p →
     NoDup (identities calls) →
     run_allocations t calls w = (rs, w') →
     Forall (λ r, ∃ n, r = Ok n) rs →
     u ∉ identities calls →
     ∃ w'', assign_or_get t u now rnd w' = (Raise StopException, w'') ∧
       db w'' = db w' ∧
       (∃ k, trace w'' = trace w' ++ replicate k (Select t)) ∧
       ui w'' = ui w' ++
         [if next_fails w' || next_fails (issued (Select t) w')
          then AllocationFailed APIError else PoolExhausted]).
Proof.
  split; [apply exhausted_refuses|].
  intros t calls w p rs w' u now rnd Hp Hok Hfree Hlen Hnd Hrun Hall Hu.
  assert (Hnobody : ∀ u' s, s ∈ p → ¬ owns u' s).
  { intros u' s Hs Ho. apply Hfree in Hs as Hf. apply (ok_bound _ Hok) in Hf; [|done].
    unfold owns in Ho. congruence. }
  destruct (run_allocations_consume t calls w p rs w' Hp Hok Hnd) as
    (p' & Hp' & Hok' & Hcount & Hown); [|done|done|].
  { intros u' _. apply no_owner_filter. intros s Hs Ho. by apply (Hnobody u' s). }
  assert (filter unassigned p = p) as Hall_free.
  { clear -Hfree. induction p as [|s p IH]; [done|].
    rewrite filter_cons_True by (apply Hfree; left).
    f_equal. apply IH. intros s' Hs'. apply Hfree. by right. }
  rewrite Hall_free in Hcount.
  apply (exhausted_refuses t u now rnd w' p' Hp').
  - intros s Hs Hf.
    assert (s ∈ filter unassigned p') as Hin by (by apply list_elem_of_filter).
    destruct (filter unassigned p'); [by apply elem_of_nil in Hin | simpl in Hcount; lia].
  - intros s Hs Ho.
    destruct (Hown u s Hs Ho) as [Hin|(s0 & Hs0 & Ho0)]; [done|].
    by apply (Hnobody u s0).
Qed.

Lemma pool_exhaustion_witness :
  (∃ w', assign_or_get "m" "caio" "t9" 3
           (world_of (pool_db "m" [mkSlot 1 true (Some "t0") (Some "ana")]) []) =
         (Raise StopException, w') ∧
     ui w' = [PoolExhausted]) ∧
  (∃ w'', assign_or_get "m" "caio" "t9" 3
            (run_allocations "m" [("ana", "t1", 4%nat); ("bia", "t2", 0%nat)]
               (world_of (pool_db "m" (fresh_slot <$> seqZ 1 2)) [])).2 =
          (Raise StopException, w'') ∧
     ui w'' = [PoolExhausted]).
Proof.
  destruct pool_exhaustion as [H1 H2]. split.
  - destruct (H1 "m" "caio" "t9" 3%nat
      (world_of (pool_db "m" [mkSlot 1 true (Some "t0") (Some "ana")]) [])
      [mkSlot 1 true (Some "t0") (Some "ana")]) as (w' & Hrun & _ & _ & Hui).
    + reflexivity.
    + intros s Hs. apply list_elem_of_singleton in Hs as ->. discriminate.
    + intros s Hs. apply list_elem_of_singleton in Hs as ->. discriminate.
    + exists w'. split; [exact Hrun | exact Hui].
  - destruct (H2 "m" [("ana", "t1", 4%nat); ("bia", "t2", 0%nat)]
      (world_of (pool_db "m" (fresh_slot <$> seqZ 1 2)) [])
      (fresh_slot <$> seqZ 1 2)
      [Ok 1; Ok 2]
      (run_allocations "m" [("ana", "t1", 4%nat); ("bia", "t2", 0%nat)]
               (world_of (pool_db "m" (fresh_slot <$> seqZ 1 2)) [])).2
      "caio" "t9" 3%nat) as (w'' & Hrun & _ & _ & Hui).
    + reflexivity.
    + apply fresh_pool_ok.
    + intros s (j & -> & _)%list_elem_of_fmap. reflexivity.
    + reflexivity.
    + vm_compute. repeat constructor; set_solver.
    + vm_compute. reflexivity.
    + repeat constructor; eexists; reflexivity.
    + vm_compute. set_solver.
    + exists w''. split; [exact Hrun | exact Hui].
Defined.

(** ** Bookkeeping of requests *)

Lemma requests_of_refl w : requests_of w w [].
Proof. split; simpl; [by rewrite app_nil_r | done]. Qed.

Lemma requests_of_issued r w : requests_of w (issued r w) [r].
Proof. split; simpl; [done | by destruct (faults w)]. Qed.

Lemma requests_of_trans w w1 w2 r1 r2 :
  requests_of w w1 r1 → requests_of w1 w2 r2 → requests_of w w2 (r1 ++ r2).
Proof.
  intros [T1 F1] [T2 F2]. split.
  - by rewrite T2, T1, app_assoc.
  - rewrite F2, F1, drop_drop, length_app. done.
Qed.

Lemma requests_of_same w w1 w2 rs :
  requests_of w w1 rs → trace w2 = trace w1 → faults w2 = faults w1 →
  requests_of w w2 rs.
Proof. intros [T F] HT HF. split; congruence. Qed.

Lemma all_succeeded_nil w : all_succeeded w [].
Proof. intros i Hi. simpl in Hi. lia. Qed.

Lemma all_succeeded_one r w : next_fails w = false → all_succeeded w [r].
Proof.
  unfold next_fails. intros Hnf i Hi. simpl in Hi.
  assert (i = 0%nat) as -> by lia.
  destruct (faults w) as [|[] fs]; simpl; congruence.
Qed.

Lemma all_succeeded_app w w1 r1 r2 :
  requests_of w w1 r1 → all_succeeded w r1 → all_succeeded w1 r2 →
  all_succeeded w (r1 ++ r2).
Proof.
  intros [_ F1] H1 H2 i Hi. rewrite length_app in Hi.
  destruct (decide (i < length r1)%nat) as [Hlt|Hge]; [by apply H1|].
  specialize (H2 (i - length r1)%nat ltac:(lia)).
  rewrite F1, lookup_drop in H2.
  by replace (length r1 + (i - length r1))%nat with i in H2 by lia.
Qed.

Lemma some_failed_first w r rs : next_fails w = true → ¬ all_succeeded w (r :: rs).
Proof.
  unfold next_fails. intros Hf Hall. apply (Hall 0%nat); [simpl; lia|].
  destruct (faults w) as [|[] fs]; simpl in *; congruence.
Qed.

(** ** The two loops of pool creation *)

Lemma set_pools_set_pools m1 m2 d : set_pools m2 (set_pools m1 d) = set_pools m2 d.
Proof. reflexivity. Qed.

Lemma set_pools_id d : set_pools (pools d) d = d.
Proof. by destruct d. Qed.

Lemma bind_run {A B} (m : M A) (k : A → M B) w :
  (m ≫= k) w = match m w with
               | (Ok a, w1) => k a w1
               | (Raise e, w1) => (Raise e, w1)
               end.
Proof. reflexivity. Qed.

Lemma for_each_cons {A} (x : A) xs body w :
  for_each (x :: xs) body w =
    match body x w with
    | (Ok _, w1) => for_each xs body w1
    | (Raise e, w1) => (Raise e, w1)
    end.
Proof. reflexivity. Qed.

Lemma insert_slots_run t data w p :
  pools (db w) !! t = Some p →
  insert_slots t data w =
    if next_fails w then (Raise APIError, issued (Insert t) w)
    else (Ok tt, with_db (set_pools (<[t := p ++ data]> (pools (db w))) (db w))
                   (issued (Insert t) w)).
Proof.
  intros Hp. unfold insert_slots, the_pool. unfold_script. rewrite execute_run.
  destruct (next_fails w); [reflexivity|]. simpl. by rewrite Hp.
Qed.

Lemma insert_link_run mid fid w :
  insert_link mid fid w =
    if next_fails w then (Raise APIError, issued (Insert "meeting_forms") w)
    else (Ok tt, with_db (set_meeting_forms (meeting_forms (db w) ++ [mkLink mid fid]) (db w))
                   (issued (Insert "meeting_forms") w)).
Proof.
  unfold insert_link. unfold_script. rewrite execute_run.
  destruct (next_fails w); reflexivity.
Qed.

Lemma for_each_insert_slots t (data : Z → list NumberSlot) l : ∀ w p,
  pools (db w) !! t = Some p →
  ∃ r w' reqs k,
    for_each l (λ i, insert_slots t (data i)) w = (r, w') ∧
    requests_of w w' reqs ∧ ui w' = ui w ∧
    db w' = set_pools (<[t := p ++ concat (data <$> take k l)]> (pools (db w))) (db w) ∧
    match r with
    | Ok _ => k = length l ∧ all_succeeded w reqs
    | Raise e => e = APIError
    end.
Proof.
  induction l as [|i l IH]; intros w p Hp.
  - exists (Ok tt), w, [], 0%nat. simpl.
    split_and!; [reflexivity | apply requests_of_refl | reflexivity | | reflexivity
                | apply all_succeeded_nil].
    rewrite app_nil_r, insert_id by done. by rewrite set_pools_id.
  - rewrite for_each_cons, (insert_slots_run _ _ _ _ Hp).
    destruct (next_fails w) eqn:Hnf.
    + exists (Raise APIError), (issued (Insert t) w), [Insert t], 0%nat.
      split_and!; [reflexivity | apply requests_of_issued | reflexivity | | reflexivity].
      simpl. rewrite app_nil_r, insert_id by done. by rewrite set_pools_id.
    + set (w1 := with_db _ _).
      destruct (IH w1 (p ++ data i)) as (r & w' & reqs & k & Hrun & Hreq & Hui & Hdb & Hr).
      { simpl. by rewrite lookup_insert_eq. }
      exists r, w', (Insert t :: reqs), (S k). split_and!.
      * exact Hrun.
      * apply (requests_of_trans w (issued (Insert t) w) w' [Insert t] reqs).
        { apply requests_of_issued. }
        destruct Hreq as [T F]. split; [exact T | exact F].
      * by rewrite Hui.
      * rewrite Hdb. simpl. rewrite insert_insert_eq. by rewrite <- app_assoc.
      * destruct r; [|done]. destruct Hr as [-> Hall]. split; [done|].
        apply (all_succeeded_app w (issued (Insert t) w) [Insert t] reqs).
        { apply requests_of_issued. }
        { by apply all_succeeded_one. }
        exact Hall.
Qed.

Lemma for_each_insert_link mid l : ∀ w,
  ∃ r w' reqs k,
    for_each l (insert_link mid) w = (r, w') ∧
    requests_of w w' reqs ∧ ui w' = ui w ∧
    db w' = set_meeting_forms (meeting_forms (db w) ++ (mkLink mid <$> take k l)) (db w) ∧
    match r with
    | Ok _ => k = length l ∧ all_succeeded w reqs
    | Raise e => e = APIError
    end.
Proof.
  induction l as [|i l IH]; intros w.
  - exists (Ok tt), w, [], 0%nat. simpl.
    split_and!; [reflexivity | apply requests_of_refl | reflexivity | | reflexivity
                | apply all_succeeded_nil].
    rewrite app_nil_r. by destruct (db w).
  - rewrite for_each_cons, insert_link_run.
    destruct (next_fails w) eqn:Hnf.
    + exists (Raise APIError), (issued (Insert "meeting_forms") w),
        [Insert "meeting_forms"], 0%nat.
      split_and!; [reflexivity | apply requests_of_issued | reflexivity | | reflexivity].
      simpl. rewrite app_nil_r. by destruct (db w).
    + set (w1 := with_db _ _).
      destruct (IH w1) as (r & w' & reqs & k & Hrun & Hreq & Hui & Hdb & Hr).
      exists r, w', (Insert "meeting_forms" :: reqs), (S k). split_and!.
      * exact Hrun.
      * apply (requests_of_trans w (issued (Insert "meeting_forms") w) w'
                 [Insert "meeting_forms"] reqs).
        { apply requests_of_issued. }
        destruct Hreq as [T F]. split; [exact T | exact F].
      * by rewrite Hui.
      * rewrite Hdb. simpl. by rewrite <- app_assoc.
      * destruct r; [|done]. destruct Hr as [-> Hall]. split; [done|].
        apply (all_succeeded_app w (issued (Insert "meeting_forms") w)
                 [Insert "meeting_forms"] reqs).
        { apply requests_of_issued. }
        { by apply all_succeeded_one. }
        exact Hall.
Qed.

(** ** The batches cover 1..max_number *)

Lemma batches_prefix (m : nat) bs N :
  0 < bs → (Z.of_nat m - 1) * bs < N ∨ m = 0%nat →
  concat ((λ i, seqZ (i + 1) (Z.min (i + bs) N - i)) <$>
            ((λ k : nat, 0 + Z.of_nat k * bs) <$> seq 0 m))
  = seqZ 1 (Z.min (Z.of_nat m * bs) N).
Proof.
  intros Hbs. induction m as [|m IH]; intros Hm.
  - symmetry. apply seqZ_nil. lia.
  - rewrite seq_S, !fmap_app, concat_app. simpl.
    rewrite IH by (destruct Hm as [Hm|Hm]; [|done]; destruct m; [by right | left; nia]).
    destruct Hm as [Hm|Hm]; [|done].
    replace (Z.of_nat (S m) - 1) with (Z.of_nat m) in Hm by lia.
    rewrite app_nil_r.
    rewrite (Z.min_l (Z.of_nat m * bs) N) by lia.
    replace (0 + Z.of_nat m * bs + 1) with (1 + Z.of_nat m * bs) by lia.
    rewrite <- seqZ_app by lia. f_equal. lia.
Qed.

Lemma batches_cover bs N :
  0 < bs →
  concat ((λ i, fresh_slot <$> seqZ (i + 1) (Z.min (i + bs) N - i)) <$> py_range 0 N bs)
  = fresh_slot <$> seqZ 1 N.
Proof.
  intros Hbs.
  transitivity (fresh_slot <$> concat ((λ i, seqZ (i + 1) (Z.min (i + bs) N - i))
                                          <$> py_range 0 N bs)).
  { generalize (py_range 0 N bs). intros l. induction l as [|i l IH]; [done|].
    rewrite !fmap_cons. cbn [concat]. by rewrite fmap_app, IH. }
  f_equal. unfold py_range.
  set (q := (N - 0 + bs - 1) `div` bs).
  assert (Hq : bs * q ≤ N + bs - 1 < bs * q + bs).
  { pose proof (Z.div_mod (N - 0 + bs - 1) bs ltac:(lia)) as Hdm.
    pose proof (Z.mod_pos_bound (N - 0 + bs - 1) bs Hbs) as Hmod.
    fold q in Hdm. lia. }
  rewrite batches_prefix; [|done|].
  - destruct (decide (0 < N)) as [Hpos|Hneg].
    + assert (0 < q) by nia. rewrite Z2Nat.id by lia. f_equal. nia.
    + assert (q ≤ 0) by nia. rewrite Z2Nat.nonpos by done. simpl.
      rewrite !seqZ_nil; [done|lia|lia].
  - destruct (decide (0 < q)) as [Hpos|Hneg].
    + left. rewrite Z2Nat.id by lia. nia.
    + right. rewrite Z2Nat.nonpos; [done|lia].
Qed.

(** ** Runs of the requests of pool creation *)

Lemma insert_meeting_run t name now N w :
  insert_meeting t name now N w =
    if next_fails w then (Raise APIError, issued (Insert "meetings_metadata") w)
    else (Ok [mkMeeting (seq_meetings (db w)) t name now N],
          with_db (set_seq_meetings (seq_meetings (db w) + 1)
                     (set_meetings_metadata
                        (meetings_metadata (db w) ++ [mkMeeting (seq_meetings (db w)) t name now N])
                        (db w)))
            (issued (Insert "meetings_metadata") w)).
Proof.
  unfold insert_meeting. unfold_script. rewrite execute_run.
  destruct (next_fails w); reflexivity.
Qed.

Lemma execute_sql_create_run t w :
  execute_sql (CreateTable t) w =
    if next_fails w then (Raise APIError, issued (Rpc (CreateTable t)) w)
    else if decide (table_exists (db w) t)
         then (Raise APIError, issued (Rpc (CreateTable t)) w)
         else (Ok tt, with_db (set_pools (<[t := []]> (pools (db w))) (db w))
                        (issued (Rpc (CreateTable t)) w)).
Proof.
  unfold execute_sql. unfold_script. rewrite execute_run.
  destruct (next_fails w); [reflexivity|]. simpl.
  destruct (decide (table_exists (db w) t)); reflexivity.
Qed.

Lemma execute_sql_drop_run t w :
  execute_sql (DropTableIfExists t) w =
    if next_fails w then (Raise APIError, issued (Rpc (DropTableIfExists t)) w)
    else (Ok tt, with_db (set_pools (delete t (pools (db w))) (db w))
                   (issued (Rpc (DropTableIfExists t)) w)).
Proof.
  unfold execute_sql. unfold_script. rewrite execute_run.
  destruct (next_fails w); reflexivity.
Qed.

Lemma delete_meetings_run (P : Meeting → Prop) `{∀ m, Decision (P m)} w :
  delete_meetings P w =
    if next_fails w then (Raise APIError, issued (Delete "meetings_metadata") w)
    else (Ok tt, with_db (set_meetings_metadata
                            (filter (λ m, ¬ P m) (meetings_metadata (db w))) (db w))
                   (issued (Delete "meetings_metadata") w)).
Proof.
  unfold delete_meetings. unfold_script. rewrite execute_run.
  destruct (next_fails w); reflexivity.
Qed.

Lemma check_table_exists_run t w :
  check_table_exists t w =
    (Ok (if next_fails w then false else bool_decide (table_exists (db w) t)),
     issued (Select t) w).
Proof.
  unfold check_table_exists, select_any. unfold_script. rewrite execute_run.
  destruct (next_fails w); [reflexivity|]. simpl.
  destruct (decide (table_exists (db w) t)).
  - by rewrite bool_decide_true.
  - by rewrite bool_decide_false.
Qed.

(** ** The try part of pool creation *)

Lemma requests_of_step w w1 reqs r :
  requests_of w w1 reqs → requests_of w (issued r w1) (reqs ++ [r]).
Proof. intros R. eapply requests_of_trans; [exact R | apply requests_of_issued]. Qed.

Lemma all_succeeded_step w w1 reqs r :
  requests_of w w1 reqs → all_succeeded w reqs → next_fails w1 = false →
  all_succeeded w (reqs ++ [r]).
Proof.
  intros R S F. eapply all_succeeded_app; [exact R | exact S |].
  by apply all_succeeded_one.
Qed.

Lemma create_try_spec bs t name now N sel w :
  0 < bs →
  ∃ r wb reqs,
    create_meeting_table_try bs t name now N sel w = (r, wb) ∧
    requests_of w wb reqs ∧ ui wb = ui w ∧
    match r with
    | Ok b => b = true ∧ all_succeeded w reqs ∧ ¬ table_exists (db w) t ∧
              db wb = created_db t name now N sel (db w)
    | Raise e => is_Exception e = true ∧
        ∃ k, meeting_forms (db wb) =
             meeting_forms (db w) ++ (mkLink (seq_meetings (db w)) <$> take k (default [] sel))
    end.
Proof.
  intros Hbs. unfold create_meeting_table_try.
  assert (Hnolink : ∀ l : list MeetingForm, l = l ++ (mkLink (seq_meetings (db w)) <$> take 0 (default [] sel))).
  { intros l. simpl. by rewrite app_nil_r. }
  rewrite bind_run, insert_meeting_run.
  destruct (next_fails w) eqn:F0.
  { eexists _, _, [_]. split_and!; [reflexivity | apply requests_of_issued | reflexivity | ].
    split; [done|]. exists 0%nat. apply Hnolink. }
  set (w1 := with_db _ _).
  assert (R1 : requests_of w w1 ([] ++ [Insert "meetings_metadata"])).
  { apply (requests_of_step w w). apply requests_of_refl. }
  assert (S1 : all_succeeded w ([] ++ [Insert "meetings_metadata"])).
  { eapply all_succeeded_step; [apply requests_of_refl | apply all_succeeded_nil | done]. }
  rewrite bind_run. cbn [index0]. unfold mret at 1, M_ret at 1. cbv zeta. cbn [m_id].
  rewrite bind_run, execute_sql_create_run.
  destruct (next_fails w1) eqn:F1.
  { eexists _, _, _. split_and!; [reflexivity | by apply requests_of_step | reflexivity | ].
    split; [done|]. exists 0%nat. apply Hnolink. }
  destruct (decide (table_exists (db w1) t)) as [Hex|Hnex].
  { eexists _, _, _. split_and!; [reflexivity | by apply requests_of_step | reflexivity | ].
    split; [done|]. exists 0%nat. apply Hnolink. }
  set (w2 := with_db _ (issued _ w1)).
  assert (R2 : requests_of w w2 (([] ++ [Insert "meetings_metadata"]) ++ [Rpc (CreateTable t)])).
  { by apply (requests_of_step w w1). }
  assert (S2 : all_succeeded w (([] ++ [Insert "meetings_metadata"]) ++ [Rpc (CreateTable t)])).
  { by eapply all_succeeded_step. }
  rewrite bind_run, check_table_exists_run.
  destruct (next_fails w2) eqn:F2.
  { cbn [negb]. rewrite bind_run. unfold raise at 1.
    eexists _, _, _. split_and!; [reflexivity | by apply (requests_of_step w w2) | reflexivity | ].
    split; [done|]. exists 0%nat. apply Hnolink. }
  assert (Hex2 : table_exists (db w2) t).
  { right. simpl. rewrite lookup_insert_eq. by eexists. }
  rewrite bool_decide_true by done. cbn [negb]. rewrite bind_run.
  unfold mret at 1, M_ret at 1.
  set (w3 := issued (Select t) w2).
  assert (R3 : requests_of w w3 ((([] ++ [Insert "meetings_metadata"]) ++ [Rpc (CreateTable t)]) ++ [Select t])).
  { by apply (requests_of_step w w2). }
  assert (S3 : all_succeeded w ((([] ++ [Insert "meetings_metadata"]) ++ [Rpc (CreateTable t)]) ++ [Select t])).
  { by eapply all_succeeded_step. }
  rewrite bind_run.
  destruct (for_each_insert_slots t
              (λ i, fresh_slot <$> seqZ (i + 1) (Z.min (i + bs) N - i))
              (py_range 0 N bs) w3 [])
    as (r4 & w4 & reqs4 & k4 & Hrun4 & R4 & U4 & D4 & Hr4).
  { simpl. by rewrite lookup_insert_eq. }
  rewrite Hrun4.
  destruct r4 as [[]|e4].
  2:{ subst e4. eexists _, _, _.
      split_and!; [reflexivity | by eapply requests_of_trans | by rewrite U4 | ].
      split; [done|]. exists 0%nat. rewrite D4. apply Hnolink. }
  destruct Hr4 as [-> S4]. rewrite firstn_all, batches_cover in D4 by done.
  rewrite app_nil_l in D4.
  assert (Hfinal : ∀ l, default [] sel = l →
    ∀ r5 w5 reqs5 k5,
      for_each l (insert_link (seq_meetings (db w))) w4 = (r5, w5) →
      requests_of w4 w5 reqs5 → ui w5 = ui w4 →
      db w5 = set_meeting_forms
                (meeting_forms (db w4) ++ (mkLink (seq_meetings (db w)) <$> take k5 l)) (db w4) →
      match r5 with
      | Ok _ => k5 = length l ∧ all_succeeded w4 reqs5
      | Raise e => e = APIError
      end →
    ∃ r wb reqs,
      (match r5 with Ok _ => (Ok true, w5) | Raise e => (Raise e, w5) end) = (r, wb) ∧
      requests_of w wb reqs ∧ ui wb = ui w ∧
      match r with
      | Ok b => b = true ∧ all_succeeded w reqs ∧ ¬ table_exists (db w) t ∧
                db wb = created_db t name now N sel (db w)
      | Raise e => is_Exception e = true ∧
          ∃ k, meeting_forms (db wb) =
               meeting_forms (db w) ++ (mkLink (seq_meetings (db w)) <$> take k (default [] sel))
      end).
  { intros l Hl r5 w5 reqs5 k5 Hrun5 R5 U5 D5 Hr5.
    pose proof (requests_of_trans _ _ _ _ _ (requests_of_trans _ _ _ _ _ R3 R4) R5) as R45.
    destruct r5 as [[]|e5].
    - destruct Hr5 as [-> S5]. eexists _, _, _.
      split_and!; [reflexivity | exact R45 | by rewrite U5, U4 | ].
      split_and!; [done | | | ].
      + eapply all_succeeded_app; [eapply requests_of_trans; [exact R3 | exact R4] | | exact S5].
        eapply all_succeeded_app; [exact R3 | exact S3 | exact S4].
      + intros Hex. apply Hnex. destruct Hex as [?|Hex]; [by left | by right].
      + rewrite D5, D4. rewrite firstn_all. unfold created_db. rewrite Hl.
        simpl. by rewrite insert_insert_eq.
    - subst e5. eexists _, _, _.
      split_and!; [reflexivity | exact R45 | by rewrite U5, U4 | ].
      split; [done|]. exists k5. rewrite D5, D4, Hl. reflexivity. }
  destruct sel as [[|f fs]|]; cbn [default] in Hfinal.
  - rewrite bind_run. unfold mret at 1, M_ret at 1. unfold mret, M_ret.
    eapply (Hfinal [] eq_refl (Ok tt) w4 [] 0%nat);
      [reflexivity | apply requests_of_refl | reflexivity | | split; [done | apply all_succeeded_nil]].
    simpl. rewrite app_nil_r. by destruct (db w4).
  - rewrite bind_run.
    destruct (for_each_insert_link (seq_meetings (db w)) (f :: fs) w4)
      as (r5 & w5 & reqs5 & k5 & Hrun5 & R5 & U5 & D5 & Hr5).
    change (for_each (f :: fs) (λ form_id : Z, insert_link (seq_meetings (db w)) form_id) w4)
      with (for_each (f :: fs) (insert_link (seq_meetings (db w))) w4).
    rewrite Hrun5.
    destruct (Hfinal (f :: fs) eq_refl r5 w5 reqs5 k5 Hrun5 R5 U5 D5 Hr5)
      as (r & wb & reqs & Heq & Hrest).
    exists r, wb, reqs. split; [|exact Hrest]. rewrite <- Heq. by destruct r5 as [[]|].
  - rewrite bind_run. unfold mret at 1, M_ret at 1. unfold mret, M_ret.
    eapply (Hfinal [] eq_refl (Ok tt) w4 [] 0%nat);
      [reflexivity | apply requests_of_refl | reflexivity | | split; [done | apply all_succeeded_nil]].
    simpl. rewrite app_nil_r. by destruct (db w4).
Qed.

(** ** The except part, and the whole of pool creation *)

Lemma create_except_run t e w :
  create_meeting_table_except t e w =
    let w1 := shown (CreationFailed e) w in
    let w2 := issued (Delete "meetings_metadata") w1 in
    if next_fails w1 then (Ok false, shown (RollbackFailed APIError) w2)
    else
      let w3 := with_db (set_meetings_metadata
                           (filter (λ m, ¬ m_table_name m = t) (meetings_metadata (db w2)))
                           (db w2)) w2 in
      let w4 := issued (Rpc (DropTableIfExists t)) w3 in
      if next_fails w3 then (Ok false, shown (RollbackFailed APIError) w4)
      else (Ok false, with_db (set_pools (delete t (pools (db w4))) (db w4)) w4).
Proof.
  unfold create_meeting_table_except.
  rewrite bind_run. unfold render at 1. rewrite bind_run. unfold try_except.
  rewrite bind_run, delete_meetings_run. cbv zeta.
  change (mkWorld (db w) (faults w) (trace w) (ui w ++ [CreationFailed e]))
    with (shown (CreationFailed e) w).
  destruct (next_fails (shown (CreationFailed e) w)); [reflexivity|].
  rewrite execute_sql_drop_run.
  destruct (next_fails _); reflexivity.
Qed.

Lemma create_run bs t name now N sel w :
  create_meeting_table_batched bs t name now N sel w =
    match create_meeting_table_try bs t name now N sel w with
    | (Ok b, wb) => (Ok b, wb)
    | (Raise e, wb) =>
        if is_Exception e then create_meeting_table_except t e wb else (Raise e, wb)
    end.
Proof. reflexivity. Qed.

Lemma next_fails_lookup w wb reqs :
  requests_of w wb reqs →
  next_fails wb = true ↔ faults w !! length reqs = Some true.
Proof.
  intros [_ F]. unfold next_fails. rewrite F.
  rewrite <- (Nat.add_0_r (length reqs)) at 2. rewrite <- lookup_drop.
  destruct (drop (length reqs) (faults w)) as [|[] fs]; simpl; split; congruence.
Qed.

(** C4 — Pool creation completeness: for any positive batch size, when
    pool creation reports success the pool stored under the table name
    consists of exactly the rows numbered 1..max_number, in this order,
    each one unassigned, with no assignment time and no identity. *)
Theorem pool_creation_complete bs t name now N sel w w' :
  0 < bs →
  create_meeting_table_batched bs t name now N sel w = (Ok true, w') →
  ∃ p, pools (db w') !! t = Some p ∧
    number <$> p = seqZ 1 N ∧
    length p = Z.to_nat N ∧
    Forall (λ s, assigned s = false ∧ assigned_at s = None ∧ user_id s = None) p.
Proof.
  intros Hbs. rewrite create_run.
  destruct (create_try_spec bs t name now N sel w Hbs) as (r & wb & reqs & -> & _ & _ & Hr).
  destruct r as [b|e].
  - intros [= -> <-]. destruct Hr as (_ & _ & _ & ->).
    exists (fresh_slot <$> seqZ 1 N). split_and!.
    + unfold created_db. simpl. by rewrite lookup_insert_eq.
    + rewrite <- list_fmap_compose. change (number ∘ fresh_slot) with (@id Z).
      by rewrite list_fmap_id.
    + by rewrite length_fmap, length_seqZ.
    + apply Forall_fmap, Forall_forall. done.
  - destruct Hr as [-> _]. rewrite create_except_run. cbv zeta.
    destruct (next_fails _); [discriminate|]. destruct (next_fails _); discriminate.
Qed.

Lemma pool_creation_complete_witness :
  ∃ p, pools (db (create_meeting_table_batched 2 "meeting_1_a" "A" "t0" 5 (Some [7; 8])
                    (world_of empty_db [])).2) !! "meeting_1_a" = Some p ∧
    number <$> p = seqZ 1 5 ∧
    length p = Z.to_nat 5 ∧
    Forall (λ s, assigned s = false ∧ assigned_at s = None ∧ user_id s = None) p.
Proof.
  apply (pool_creation_complete 2 "meeting_1_a" "A" "t0" 5 (Some [7; 8])
           (world_of empty_db [])).
  - lia.
  - vm_compute. reflexivity.
Defined.

(** The claim of C5 as it is stated fails: here the metadata record was
    inserted, the table created and the first batch stored; the second
    batch insert fails, the delete of the rollback fails too, and the drop
    of the pool table is never issued.  The run reports failure and both
    errors; the pool of 100 rows and the metadata record stay. *)
Lemma rollback_skips_drop_after_failed_delete :
  interrupted_creation.1 = Ok false ∧
  trace interrupted_creation.2 =
    [Insert "meetings_metadata"; Rpc (CreateTable "meeting_1_a");
     Select "meeting_1_a"; Insert "meeting_1_a"; Insert "meeting_1_a";
     Delete "meetings_metadata"] ∧
  ui interrupted_creation.2 = [CreationFailed APIError; RollbackFailed APIError] ∧
  length <$> pools (db interrupted_creation.2) !! "meeting_1_a" = Some 100%nat ∧
  length (meetings_metadata (db interrupted_creation.2)) = 1%nat ∧
  ¬ rollback_attempted "meeting_1_a" interrupted_world interrupted_creation.2.
Proof.
  assert (Htrace : trace interrupted_creation.2 =
    [Insert "meetings_metadata"; Rpc (CreateTable "meeting_1_a");
     Select "meeting_1_a"; Insert "meeting_1_a"; Insert "meeting_1_a";
     Delete "meetings_metadata"]) by (vm_compute; reflexivity).
  split_and!; [vm_compute; reflexivity | exact Htrace | vm_compute; reflexivity
              | vm_compute; reflexivity | vm_compute; reflexivity | ].
  intros (reqs & Hreqs & _ & Hdrop). rewrite Htrace in Hreqs. simpl in Hreqs.
  subst reqs. rewrite !elem_of_cons, elem_of_nil in Hdrop. naive_solver.
Qed.

(** C5 (amended) — Pool creation never raises.  It reports success only
    when every request it issued succeeded.  Otherwise it reports failure,
    renders the error that stopped it, and then issues the delete of the
    metadata record; the drop of the pool table is issued only when that
    delete did not itself fail, and a failure of either is rendered as a
    rollback error.  When both succeed, neither a metadata record nor a
    pool table of that name is left. *)
Theorem creation_failure_rollback t name now N sel w :
  ∃ b w' reqs,
    create_meeting_table t name now N sel w = (Ok b, w') ∧
    requests_of w w' reqs ∧
    if b then all_succeeded w reqs ∧ ui w' = ui w
    else ∃ e pre,
      let delete_failed := bool_decide (faults w !! length pre = Some true) in
      let drop_failed := bool_decide (faults w !! S (length pre) = Some true) in
      reqs = pre ++ Delete "meetings_metadata" ::
               (if delete_failed then [] else [Rpc (DropTableIfExists t)]) ∧
      ui w' = ui w ++ CreationFailed e ::
               (if delete_failed || drop_failed then [RollbackFailed APIError] else []) ∧
      (delete_failed || drop_failed = false →
         pools (db w') !! t = None ∧
         ∀ m, m ∈ meetings_metadata (db w') → m_table_name m ≠ t).
Proof.
  unfold create_meeting_table. rewrite create_run.
  destruct (create_try_spec 100 t name now N sel w ltac:(lia))
    as (r & wb & pre & -> & R & U & Hr).
  destruct r as [b|e].
  { destruct Hr as (-> & S & _ & _). exists true, wb, pre. auto. }
  destruct Hr as [-> _]. rewrite create_except_run. cbv zeta.
  set (w1 := shown (CreationFailed e) wb).
  assert (R1 : requests_of w w1 pre) by (destruct R; split; done).
  pose proof (next_fails_lookup w w1 pre R1) as L1.
  set (w2 := issued _ w1).
  set (w3 := with_db _ w2).
  assert (R3 : requests_of w w3 (pre ++ [Delete "meetings_metadata"])).
  { by apply (requests_of_step w w1). }
  pose proof (next_fails_lookup w w3 _ R3) as L3.
  rewrite length_app, Nat.add_1_r in L3.
  destruct (next_fails w1) eqn:F1.
  - exists false, (shown (RollbackFailed APIError) w2), (pre ++ [Delete "meetings_metadata"]).
    split_and!; [done | by apply (requests_of_step w w1) | ].
    exists e, pre. cbv zeta.
    rewrite (bool_decide_true (faults w !! length pre = Some true)) by (by apply L1).
    simpl. split_and!; [done | by rewrite U, <- app_assoc | done].
  - assert (Hnd : faults w !! length pre ≠ Some true).
    { intros Hf. apply L1 in Hf. congruence. }
    destruct (next_fails w3) eqn:F3.
    + eexists false, _, _.
      split_and!; [done | by apply (requests_of_step w w3) | ].
      exists e, pre. cbv zeta.
      rewrite (bool_decide_false (faults w !! length pre = Some true)) by done.
      rewrite (bool_decide_true (faults w !! S (length pre) = Some true)) by (by apply L3).
      simpl. split_and!; [by rewrite <- app_assoc | by rewrite U, <- app_assoc | done].
    + eexists false, _, _.
      split_and!; [done | | ].
      { apply (requests_of_same w (issued (Rpc (DropTableIfExists t)) w3));
          [by apply (requests_of_step w w3) | done | done]. }
      exists e, pre. cbv zeta.
      rewrite (bool_decide_false (faults w !! length pre = Some true)) by done.
      rewrite (bool_decide_false (faults w !! S (length pre) = Some true)).
      2:{ intros Hf. apply L3 in Hf. congruence. }
      simpl. split_and!; [by rewrite <- app_assoc | by rewrite U | ].
      intros _. split; [by rewrite lookup_delete_eq|].
      intros m Hm. apply list_elem_of_filter in Hm as [Hne _]. exact Hne.
Qed.

(** C9 — The rollback does not cover form links: when pool creation
    reports failure, the link rows that were in [meeting_forms] at the
    moment of the failure (the rows of before, followed by the links of
    the first [k] selected forms to the new meeting) are all still there
    afterwards; the rollback issues nothing but the delete on
    [meetings_metadata] and the drop of the pool table. *)
Theorem rollback_leaves_links t name now N sel w w' :
  create_meeting_table t name now N sel w = (Ok false, w') →
  ∃ e wb k,
    create_meeting_table_try 100 t name now N sel w = (Raise e, wb) ∧
    meeting_forms (db wb) =
      meeting_forms (db w) ++ (mkLink (seq_meetings (db w)) <$> take k (default [] sel)) ∧
    meeting_forms (db w') = meeting_forms (db wb) ∧
    ∃ reqs, trace w' = trace wb ++ reqs ∧
      ∀ r, r ∈ reqs → r = Delete "meetings_metadata" ∨ r = Rpc (DropTableIfExists t).
Proof.
  unfold create_meeting_table. rewrite create_run.
  destruct (create_try_spec 100 t name now N sel w ltac:(lia))
    as (r & wb & pre & -> & R & U & Hr).
  destruct r as [b|e].
  { destruct Hr as (-> & _). discriminate. }
  destruct Hr as [He (k & Hk)]. rewrite He, create_except_run. cbv zeta.
  intros Hrun. exists e, wb, k. split; [done|]. split; [done|].
  destruct (next_fails _).
  { injection Hrun as <-. split; [done|]. exists [Delete "meetings_metadata"].
    split; [done|]. intros r ->%list_elem_of_singleton. by left. }
  destruct (next_fails _); injection Hrun as <-.
  - split; [done|]. exists [Delete "meetings_metadata"; Rpc (DropTableIfExists t)].
    split; [simpl; by rewrite <- app_assoc|].
    intros r Hr. rewrite !elem_of_cons, elem_of_nil in Hr. naive_solver.
  - split; [done|]. exists [Delete "meetings_metadata"; Rpc (DropTableIfExists t)].
    split; [simpl; by rewrite <- app_assoc|].
    intros r Hr. rewrite !elem_of_cons, elem_of_nil in Hr. naive_solver.
Qed.

Lemma rollback_leaves_links_witness :
  ∃ e wb k,
    create_meeting_table_try 100 "meeting_1_a" "A" "t0" 10 (Some [7; 8]) half_linked_world
      = (Raise e, wb) ∧
    meeting_forms (db wb) =
      meeting_forms (db half_linked_world) ++
        (mkLink (seq_meetings (db half_linked_world)) <$> take k (default [] (Some [7; 8]))) ∧
    meeting_forms (db half_linked_creation.2) = meeting_forms (db wb) ∧
    ∃ reqs, trace half_linked_creation.2 = trace wb ++ reqs ∧
      ∀ r, r ∈ reqs → r = Delete "meetings_metadata" ∨ r = Rpc (DropTableIfExists "meeting_1_a").
Proof.
  apply (rollback_leaves_links "meeting_1_a" "A" "t0" 10 (Some [7; 8]) half_linked_world).
  vm_compute. reflexivity.
Defined.

(** The link of form 7 to meeting 1 outlives the meeting: after the
    rollback there is neither a metadata record nor a pool table. *)
Example orphaned_link :
  half_linked_creation.1 = Ok false ∧
  meeting_forms (db half_linked_creation.2) = [mkLink 1 7] ∧
  meetings_metadata (db half_linked_creation.2) = [] ∧
  pools (db half_linked_creation.2) !! "meeting_1_a" = None ∧
  trace half_linked_creation.2 =
    [Insert "meetings_metadata"; Rpc (CreateTable "meeting_1_a");
     Select "meeting_1_a"; Insert "meeting_1_a";
     Insert "meeting_forms"; Insert "meeting_forms";
     Delete "meetings_metadata"; Rpc (DropTableIfExists "meeting_1_a")].
Proof. vm_compute. done. Qed.

(** ** The catalog accessors *)

Lemma filter_all {A} (l : list A) : filter (λ _ : A, True) l = l.
Proof.
  induction l as [|x l IH]; [done|]. rewrite filter_cons_True by done. by rewrite IH.
Qed.

Lemma get_available_meetings_run w :
  get_available_meetings w =
    if next_fails w
    then (Ok [], shown (MeetingsUnavailable APIError) (issued (Select "meetings_metadata") w))
    else (Ok (meetings_metadata (db w)), issued (Select "meetings_metadata") w).
Proof.
  unfold get_available_meetings, select_meetings. unfold_script. rewrite execute_run.
  destruct (next_fails w); [reflexivity|]. simpl. by rewrite filter_all.
Qed.

Lemma get_available_forms_run w :
  get_available_forms w =
    if next_fails w
    then (Ok [], shown (FormsUnavailable APIError) (issued (Select "forms_metadata") w))
    else (Ok (forms_metadata (db w)), issued (Select "forms_metadata") w).
Proof.
  unfold get_available_forms, select_forms. unfold_script. rewrite execute_run.
  destruct (next_fails w); [reflexivity|]. simpl. by rewrite filter_all.
Qed.

Lemma get_forms_for_meeting_run meeting_id w :
  get_forms_for_meeting meeting_id w =
    let w1 := issued (Select "meeting_forms") w in
    let form_ids :=
      mf_form_id <$> filter (λ l, mf_meeting_id l = meeting_id) (meeting_forms (db w)) in
    if next_fails w then (Ok [], shown (MeetingFormsUnavailable APIError) w1)
    else match form_ids with
    | [] => (Ok [], w1)
    | _ :: _ =>
        let w2 := issued (Select "forms_metadata") w1 in
        if next_fails w1 then (Ok [], shown (MeetingFormsUnavailable APIError) w2)
        else (Ok (filter (λ f, f_id f ∈ form_ids) (forms_metadata (db w))), w2)
    end.
Proof.
  unfold get_forms_for_meeting, select_links, select_forms. unfold_script.
  rewrite execute_run. cbv zeta.
  destruct (next_fails w); [reflexivity|]. simpl.
  destruct (mf_form_id <$> _) as [|i ids] eqn:Hids; [reflexivity|].
  rewrite execute_run.
  destruct (next_fails _); reflexivity.
Qed.

Lemma get_answered_forms_run participant_id w :
  get_answered_forms participant_id w =
    if next_fails w
    then (Ok ∅, shown (AnsweredUnavailable APIError) (issued (Select "responses") w))
    else (Ok (list_to_set
                (r_form_id <$> filter (λ r, r_participant_id r = participant_id)
                                 (responses (db w)))),
          issued (Select "responses") w).
Proof.
  unfold get_answered_forms, select_responses. unfold_script. rewrite execute_run.
  destruct (next_fails w); reflexivity.
Qed.

(** The claim of C7 as it is stated fails: when the query fails, each
    accessor returns the very value it returns for a query without
    matching rows.  Here the catalog holds a meeting, the select fails,
    and the caller receives the empty list, as it does from an empty
    catalog. *)
Lemma failed_query_returns_empty :
  (get_available_meetings (world_of one_meeting_db [true])).1 = Ok [] ∧
  (get_available_meetings (world_of empty_db [])).1 = Ok [] ∧
  (get_available_forms (world_of one_meeting_db [true])).1
    = (get_available_forms (world_of empty_db [])).1 ∧
  (get_forms_for_meeting 1 (world_of one_meeting_db [true])).1
    = (get_forms_for_meeting 1 (world_of empty_db [])).1 ∧
  (get_answered_forms "2" (world_of one_meeting_db [true])).1
    = (get_answered_forms "2" (world_of empty_db [])).1.
Proof. vm_compute. done. Qed.

(** C7 (amended) — The catalog accessors never raise and never change the
    store.  When the queries succeed an accessor returns the matching
    rows (the empty collection when there is none) and renders nothing.
    When a query fails it renders an error message and returns the empty
    collection: the failure reaches the user, not the caller. *)
Theorem accessors_swallow_failures w :
  (∃ rows w', get_available_meetings w = (Ok rows, w') ∧ db w' = db w ∧
     if next_fails w
     then rows = [] ∧ ui w' = ui w ++ [MeetingsUnavailable APIError]
     else rows = meetings_metadata (db w) ∧ ui w' = ui w) ∧
  (∃ rows w', get_available_forms w = (Ok rows, w') ∧ db w' = db w ∧
     if next_fails w
     then rows = [] ∧ ui w' = ui w ++ [FormsUnavailable APIError]
     else rows = forms_metadata (db w) ∧ ui w' = ui w) ∧
  (∀ meeting_id, ∃ rows w',
     get_forms_for_meeting meeting_id w = (Ok rows, w') ∧ db w' = db w ∧
     let form_ids :=
       mf_form_id <$> filter (λ l, mf_meeting_id l = meeting_id) (meeting_forms (db w)) in
     if next_fails w
        || (bool_decide (form_ids ≠ []) && next_fails (issued (Select "meeting_forms") w))
     then rows = [] ∧ ui w' = ui w ++ [MeetingFormsUnavailable APIError]
     else rows = filter (λ f, f_id f ∈ form_ids) (forms_metadata (db w)) ∧ ui w' = ui w) ∧
  (∀ participant_id, ∃ forms w',
     get_answered_forms participant_id w = (Ok forms, w') ∧ db w' = db w ∧
     if next_fails w
     then forms = ∅ ∧ ui w' = ui w ++ [AnsweredUnavailable APIError]
     else forms = list_to_set
                    (r_form_id <$> filter (λ r, r_participant_id r = participant_id)
                                     (responses (db w)))
          ∧ ui w' = ui w).
Proof.
  split_and!.
  - rewrite get_available_meetings_run. destruct (next_fails w); eexists _, _; done.
  - rewrite get_available_forms_run. destruct (next_fails w); eexists _, _; done.
  - intros meeting_id. rewrite get_forms_for_meeting_run. cbv zeta.
    destruct (next_fails w); [eexists _, _; done|].
    destruct (mf_form_id <$> _) as [|i ids].
    + eexists _, _. split_and!; [done|done|]. simpl. split; [|done].
      symmetry. induction (forms_metadata (db w)) as [|f l IH]; [done|].
      rewrite filter_cons_False; [done|]. apply not_elem_of_nil.
    + rewrite bool_decide_true by done. simpl.
      destruct (next_fails _); eexists _, _; done.
  - intros participant_id. rewrite get_answered_forms_run.
    destruct (next_fails w); eexists _, _; done.
Qed.

(** ** Computations that only read the store *)

Lemma bind_inv {A B} (m : M A) (k : A → M B) w r w' :
  (m ≫= k) w = (r, w') →
  (∃ a w1, m w = (Ok a, w1) ∧ k a w1 = (r, w')) ∨
  (∃ e, m w = (Raise e, w') ∧ r = Raise e).
Proof.
  rewrite bind_run. destruct (m w) as [[a|e] w1].
  - intros H. left. eauto.
  - intros [= <- <-]. right. eauto.
Qed.

Lemma reads_ret {A} (a : A) : reads (mret a : M A).
Proof. intros w. done. Qed.

Lemma reads_raise {A} e : reads (raise e : M A).
Proof. intros w. done. Qed.

Lemma reads_render m : reads (render m).
Proof. intros w. done. Qed.

Lemma reads_execute r : reads (execute r).
Proof.
  intros w. rewrite execute_run. simpl. split; [done|]. by intros ->.
Qed.

Lemma reads_bind {A B} (m : M A) (k : A → M B) :
  reads m → (∀ a, reads (k a)) → reads (m ≫= k).
Proof.
  intros Hm Hk w. rewrite bind_run. specialize (Hm w).
  destruct (m w) as [[a|e] w1]; simpl in *.
  - destruct (Hk a w1) as [D F]. destruct Hm as [D1 F1]. split; [congruence|auto].
  - exact Hm.
Qed.

Lemma reads_try {A} (m : M A) (h : Exn → M A) :
  reads m → (∀ e, reads (h e)) → reads (try_except m h).
Proof.
  intros Hm Hh w. unfold try_except. specialize (Hm w).
  destruct (m w) as [[a|e] w1]; simpl in *; [exact Hm|].
  destruct (is_Exception e); [|exact Hm].
  destruct (Hh e w1) as [D F]. destruct Hm as [D1 F1]. split; [congruence|auto].
Qed.

Lemma reads_get_db : reads get_db.
Proof. intros w. done. Qed.

Ltac reads_step :=
  first
    [ apply reads_bind; [|intros ?]
    | apply reads_try; [|intros ?]
    | apply reads_ret | apply reads_raise | apply reads_render
    | apply reads_execute | apply reads_get_db
    | progress unfold st_stop ].

Lemma reads_select_slots t (P : NumberSlot → Prop) `{∀ s, Decision (P s)} :
  reads (select_slots t P).
Proof.
  unfold select_slots, the_pool. repeat reads_step.
  destruct (pools _ !! t); repeat reads_step.
Qed.

Lemma reads_select_forms (P : Form → Prop) `{∀ f, Decision (P f)} :
  reads (select_forms P).
Proof. unfold select_forms. repeat reads_step. Qed.

Lemma reads_select_questions (P : Question → Prop) `{∀ q, Decision (P q)} :
  reads (select_questions P).
Proof. unfold select_questions. repeat reads_step. Qed.

Lemma reads_select_options (P : OptionRow → Prop) `{∀ o, Decision (P o)} :
  reads (select_options P).
Proof. unfold select_options. repeat reads_step. Qed.

Lemma reads_select_responses (P : Response → Prop) `{∀ r, Decision (P r)} :
  reads (select_responses P).
Proof. unfold select_responses. repeat reads_step. Qed.

Lemma reads_select_meetings (P : Meeting → Prop) `{∀ m, Decision (P m)} :
  reads (select_meetings P).
Proof. unfold select_meetings. repeat reads_step. Qed.

Lemma reads_get_available_meetings : reads get_available_meetings.
Proof.
  unfold get_available_meetings. apply reads_try; [apply reads_select_meetings|].
  intros e. repeat reads_step.
Qed.

Lemma reads_get_answered_forms pid : reads (get_answered_forms pid).
Proof.
  unfold get_answered_forms. apply reads_try.
  - apply reads_bind; [apply reads_select_responses|]. intros ?. apply reads_ret.
  - intros e. repeat reads_step.
Qed.

Lemma reads_index0 {A} (xs : list A) : reads (index0 xs).
Proof. destruct xs; [apply reads_raise | apply reads_ret]. Qed.

Lemma reads_scan_meetings user ms : reads (scan_meetings user ms).
Proof.
  induction ms as [|m ms IH]; simpl; [apply reads_ret|].
  apply reads_bind; [apply reads_select_slots|].
  intros [|s rest]; [exact IH | apply reads_ret].
Qed.

Lemma reads_participant_form_checks tbl user : reads (participant_form_checks tbl user).
Proof.
  unfold participant_form_checks.
  apply reads_bind; [apply reads_select_forms|]. intros form_info.
  apply reads_bind; [destruct form_info; repeat reads_step|]. intros _.
  apply reads_bind; [apply reads_index0|]. intros form.
  apply reads_bind; [apply reads_select_questions|]. intros qs.
  apply reads_bind; [destruct qs; repeat reads_step|]. intros _.
  apply reads_bind; [apply reads_get_available_meetings|]. intros ms.
  apply reads_bind; [apply reads_scan_meetings|]. intros found.
  apply reads_bind; [case_decide; repeat reads_step|]. intros _.
  apply reads_bind; [apply reads_get_answered_forms|]. intros answered.
  apply reads_bind; [case_decide; repeat reads_step|]. intros _.
  apply reads_ret.
Qed.

Lemma reads_collect_responses inp qs : ∀ acc, reads (collect_responses inp qs acc).
Proof.
  induction qs as [|q qs IH]; intros acc; simpl; [apply reads_ret|].
  case_decide; [apply IH|]. case_decide; [|apply IH].
  apply reads_bind; [apply reads_select_options|]. intros opts.
  destruct (st_radio _ (radio inp (q_id q))); [|apply IH].
  destruct (list_index _ _); [|apply reads_raise].
  destruct (_ !! _); [apply IH | apply reads_raise].
Qed.

(** ** Runs of the queries of the form page *)

Lemma select_slots_run t (P : NumberSlot → Prop) `{∀ s, Decision (P s)} w :
  select_slots t P w =
    if next_fails w then (Raise APIError, issued (Select t) w)
    else match pools (db w) !! t with
         | Some rows => (Ok (filter P rows), issued (Select t) w)
         | None => (Raise APIError, issued (Select t) w)
         end.
Proof.
  unfold select_slots, the_pool. unfold_script. rewrite execute_run.
  destruct (next_fails w); [reflexivity|]. simpl.
  destruct (pools (db w) !! t); reflexivity.
Qed.

Lemma select_forms_run (P : Form → Prop) `{∀ f, Decision (P f)} w :
  select_forms P w =
    if next_fails w then (Raise APIError, issued (Select "forms_metadata") w)
    else (Ok (filter P (forms_metadata (db w))), issued (Select "forms_metadata") w).
Proof.
  unfold select_forms. unfold_script. rewrite execute_run.
  destruct (next_fails w); reflexivity.
Qed.

Lemma select_questions_run (P : Question → Prop) `{∀ q, Decision (P q)} w :
  select_questions P w =
    if next_fails w then (Raise APIError, issued (Select "questions") w)
    else (Ok (filter P (questions (db w))), issued (Select "questions") w).
Proof.
  unfold select_questions. unfold_script. rewrite execute_run.
  destruct (next_fails w); reflexivity.
Qed.

Lemma select_options_run (P : OptionRow → Prop) `{∀ o, Decision (P o)} w :
  select_options P w =
    if next_fails w then (Raise APIError, issued (Select "options") w)
    else (Ok (filter P (options (db w))), issued (Select "options") w).
Proof.
  unfold select_options. unfold_script. rewrite execute_run.
  destruct (next_fails w); reflexivity.
Qed.

Lemma select_responses_run (P : Response → Prop) `{∀ r, Decision (P r)} w :
  select_responses P w =
    if next_fails w then (Raise APIError, issued (Select "responses") w)
    else (Ok (filter P (responses (db w))), issued (Select "responses") w).
Proof.
  unfold select_responses. unfold_script. rewrite execute_run.
  destruct (next_fails w); reflexivity.
Qed.

Lemma insert_response_run row w :
  insert_response row w =
    if next_fails w then (Raise APIError, issued (Insert "responses") w)
    else (Ok tt, with_db (set_responses (responses (db w) ++ [row]) (db w))
                   (issued (Insert "responses") w)).
Proof.
  unfold insert_response. unfold_script. rewrite execute_run.
  destruct (next_fails w); reflexivity.
Qed.

(** The scan of the pools agrees with what the store holds. *)
Lemma scan_meetings_spec user ms : ∀ w r w',
  scan_meetings user ms w = (r, w') →
  db w' = db w ∧ ui w' = ui w ∧ (faults w = [] → faults w' = []) ∧
  match r with
  | Ok found =>
      match scan_catalog (pools (db w)) user ms with
      | Bound n t => found = (pretty n, t)
      | Unbound => found = ("", "")
      | Broken => False
      end
  | Raise e => e = APIError ∧
      (faults w = [] → scan_catalog (pools (db w)) user ms = Broken)
  end.
Proof.
  induction ms as [|m ms IH]; intros w r w'; simpl.
  - intros [= <- <-]. done.
  - rewrite bind_run, select_slots_run.
    destruct (next_fails w) eqn:F.
    { intros [= <- <-]. simpl. split_and!; [done|done|by intros ->|done|].
      intros Hf. by rewrite next_fails_no_faults in F. }
    destruct (pools (db w) !! m_table_name m) as [p|].
    2:{ intros [= <- <-]. simpl. split_and!; [done|done|by intros ->|done|done]. }
    change (filter (λ s, user_id s = Some user) p) with (filter (owns user) p).
    destruct (filter (owns user) p) as [|s rest].
    + intros Hrun. apply IH in Hrun as (D & U & Fs & Hr). simpl in *.
      split_and!; [done|done| |].
      * intros Hf. apply Fs. by rewrite Hf.
      * destruct r as [found|e]; [done|]. destruct Hr as [-> Hr]. split; [done|].
        intros Hf. apply Hr. by rewrite Hf.
    + intros [= <- <-]. simpl. split_and!; [done|done|by intros ->|done].
Qed.

(** ** The checks of the form page *)

Lemma pretty_N_go_nonempty x s : s ≠ "" → pretty_N_go x s ≠ "".
Proof.
  revert s. induction (N.lt_wf_0 x) as [x _ IH]; intros s Hs.
  destruct (decide (x = 0)%N) as [->|Hx].
  - by rewrite pretty_N_go_0.
  - rewrite pretty_N_go_step by lia. apply IH; [apply N.div_lt; lia | done].
Qed.

Lemma pretty_N_nonempty (x : N) : pretty x ≠ "".
Proof.
  unfold pretty, pretty_N. case_decide; [done|].
  rewrite pretty_N_go_step by lia. by apply pretty_N_go_nonempty.
Qed.

Lemma pretty_Z_nonempty (x : Z) : pretty x ≠ "".
Proof.
  destruct x as [|p|p]; unfold pretty, pretty_Z; [done| |done].
  apply pretty_N_nonempty.
Qed.

Lemma elem_of_answered pid fid (d : Db) :
  fid ∈ (list_to_set (r_form_id <$> filter (λ r, r_participant_id r = pid) (responses d)) : gset Z)
  ↔ prior_response pid fid d.
Proof.
  rewrite elem_of_list_to_set, list_elem_of_fmap. unfold prior_response. split.
  - intros (r & -> & Hr). apply list_elem_of_filter in Hr as [Hp Hr]. eauto.
  - intros (r & Hr & Hp & Hf). exists r. split; [done|]. by apply list_elem_of_filter.
Qed.

(** When the checks pass: the form and its questions were found, the scan
    bound the identity to the number of its first pool, and no response of
    that participant for the form is stored, unless the query for the
    answered forms failed. *)
Lemma participant_form_checks_ok tbl user w fid qs pid mt w' :
  participant_form_checks tbl user w = (Ok (fid, qs, pid, mt), w') →
  ∃ form n,
    form_of tbl (db w) = Some form ∧ fid = f_id form ∧
    qs = questions_of fid (db w) ∧ qs ≠ [] ∧
    first_binding user (db w) = Bound n mt ∧ pid = pretty n ∧
    db w' = db w ∧
    ((ui w' = ui w ∧ ¬ prior_response pid fid (db w)) ∨
     (ui w' = ui w ++ [AnsweredUnavailable APIError] ∧ faults w ≠ [])).
Proof.
  unfold participant_form_checks.
  rewrite bind_run, select_forms_run.
  destruct (next_fails w) eqn:F0; [discriminate|].
  unfold form_of.
  destruct (filter (λ f, f_table_name f = tbl) (forms_metadata (db w)))
    as [|form forms] eqn:Hform; [discriminate|].
  rewrite bind_run. unfold mret at 1, M_ret at 1.
  rewrite bind_run. cbn [index0]. unfold mret at 1, M_ret at 1. cbv zeta.
  rewrite bind_run, select_questions_run.
  set (w1 := issued (Select "forms_metadata") w).
  destruct (next_fails w1) eqn:F1; [discriminate|].
  change (db w1) with (db w).
  change (filter (λ q, q_form_id q = f_id form) (questions (db w)))
    with (questions_of (f_id form) (db w)).
  destruct (questions_of (f_id form) (db w)) as [|q0 qs0] eqn:Hqs; [discriminate|].
  rewrite bind_run. unfold mret at 1, M_ret at 1.
  set (w2 := issued (Select "questions") w1).
  rewrite bind_run, get_available_meetings_run.
  destruct (next_fails w2) eqn:F2.
  { rewrite bind_run. cbn [scan_meetings]. unfold mret at 1, M_ret at 1.
    rewrite bind_run. cbn [fst]. rewrite decide_True by done. discriminate. }
  change (db w2) with (db w).
  set (w3 := issued (Select "meetings_metadata") w2).
  rewrite bind_run.
  destruct (scan_meetings user (meetings_metadata (db w)) w3) as [[found|e] w4] eqn:Hscan;
    [|discriminate].
  apply scan_meetings_spec in Hscan as (D4 & U4 & Fs4 & Hfound).
  change (db w3) with (db w) in *. change (ui w3) with (ui w) in *.
  rewrite bind_run.
  destruct (decide (found.1 = "")) as [Hempty|Hbound]; [discriminate|].
  unfold mret at 1, M_ret at 1.
  rewrite bind_run, get_answered_forms_run.
  assert (Hsome : faults w4 ≠ [] → faults w ≠ []).
  { intros Hne Hnil. apply Hne, Fs4. subst w3 w2 w1. simpl. by rewrite Hnil. }
  assert (Hn : ∃ n, first_binding user (db w) = Bound n found.2 ∧ found.1 = pretty n).
  { unfold first_binding.
    destruct (scan_catalog _ _ _) as [n t| |]; [|by subst found|done].
    subst found. by exists n. }
  destruct Hn as (n & Hbind & Hpid).
  destruct (next_fails w4) eqn:F4.
  - rewrite bind_run. rewrite decide_False by apply not_elem_of_empty.
    unfold mret, M_ret. intros [= <- <- <- <- <-].
    exists form, n. rewrite Hqs. split_and!; try done.
    right. simpl. split; [by rewrite U4|]. apply Hsome. intros Hnil.
    unfold next_fails in F4. by rewrite Hnil in F4.
  - rewrite bind_run. rewrite D4.
    destruct (decide (f_id form ∈ _)) as [Hin|Hnotin]; [discriminate|].
    unfold mret, M_ret. intros [= <- <- <- <- <-].
    exists form, n. rewrite Hqs. split_and!; try done.
    left. simpl. split; [done|]. intros Hprior. apply Hnotin.
    by apply elem_of_answered.
Qed.

(** ** The collected answers *)

Lemma dict_get_set k v d : dict_get k (dict_set k v d) = Some v.
Proof.
  induction d as [|[k' v'] d IH]; simpl.
  - by rewrite decide_True.
  - destruct (decide (k' = k)) as [->|Hne]; simpl.
    + by rewrite decide_True.
    + by rewrite decide_False.
Qed.

Lemma dict_get_set_ne k k' v d : k ≠ k' → dict_get k' (dict_set k v d) = dict_get k' d.
Proof.
  intros Hne. induction d as [|[k0 v0] d IH]; simpl.
  - by rewrite decide_False.
  - destruct (decide (k0 = k)) as [->|Hne0]; simpl.
    + by rewrite !decide_False.
    + by rewrite IH.
Qed.

Lemma dict_get_truthy k v d :
  forallb truthy (d.*2) = true → dict_get k d = Some v → truthy v = true.
Proof.
  induction d as [|[k0 v0] d IH]; simpl; [done|].
  intros [H0 Hd]%andb_prop. case_decide; [by intros [= <-] | by apply IH].
Qed.

(** Questions outside the remaining list keep their entry. *)
Lemma collect_responses_other inp qs : ∀ acc w dict w' k,
  collect_responses inp qs acc w = (Ok dict, w') →
  k ∉ q_id <$> qs → dict_get k dict = dict_get k acc.
Proof.
  induction qs as [|q qs IH]; intros acc w dict w' k; simpl.
  - by intros [= <- <-].
  - intros Hrun Hk. apply not_elem_of_cons in Hk as [Hne Hk].
    destruct (decide (question_type q = "text")).
    { rewrite (IH _ _ _ _ _ Hrun Hk). by apply dict_get_set_ne. }
    destruct (decide (question_type q = "multiple_choice")).
    2:{ by apply (IH _ _ _ _ _ Hrun). }
    rewrite bind_run, select_options_run in Hrun.
    destruct (next_fails w); [discriminate|].
    destruct (st_radio _ (radio inp (q_id q))).
    + destruct (list_index _ _); [|discriminate].
      destruct (_ !! _); [|discriminate].
      rewrite (IH _ _ _ _ _ Hrun Hk). by apply dict_get_set_ne.
    + rewrite (IH _ _ _ _ _ Hrun Hk). by apply dict_get_set_ne.
Qed.

(** A question whose widget was left empty has a falsy entry. *)
Lemma collect_responses_missing inp qs : ∀ acc w dict w' q,
  collect_responses inp qs acc w = (Ok dict, w') →
  NoDup (q_id <$> qs) → q ∈ qs → answer_missing inp q →
  ∃ v, dict_get (q_id q) dict = Some v ∧ truthy v = false.
Proof.
  induction qs as [|q0 qs IH]; intros acc w dict w' q; simpl.
  - intros _ _ Hq. by apply elem_of_nil in Hq.
  - intros Hrun Hnd Hq Hmiss. apply NoDup_cons in Hnd as [Hfresh Hnd].
    apply elem_of_cons in Hq as [->|Hq].
    + destruct Hmiss as [[Ht Hv]|[Ht Hv]].
      * rewrite decide_True in Hrun by done.
        exists (PyStr ""). split; [|done].
        rewrite (collect_responses_other _ _ _ _ _ _ _ Hrun Hfresh).
        rewrite <- Hv. apply dict_get_set.
      * rewrite decide_False in Hrun by (rewrite Ht; discriminate).
        rewrite decide_True in Hrun by done.
        rewrite bind_run, select_options_run in Hrun.
        destruct (next_fails w); [discriminate|]. rewrite Hv in Hrun. cbn [st_radio mbind option_bind] in Hrun.
        exists PyNone. split; [|done].
        rewrite (collect_responses_other _ _ _ _ _ _ _ Hrun Hfresh).
        apply dict_get_set.
    + destruct (decide (question_type q0 = "text")); [by eapply IH|].
      destruct (decide (question_type q0 = "multiple_choice")); [|by eapply IH].
      rewrite bind_run, select_options_run in Hrun.
      destruct (next_fails w); [discriminate|].
      destruct (st_radio _ (radio inp (q_id q0))); [|by eapply IH].
      destruct (list_index _ _); [|discriminate].
      destruct (_ !! _); [by eapply IH|discriminate].
Qed.

(** ** The submit branch *)

Lemma for_each_insert_response {A} (f : A → Response) l : ∀ w,
  ∃ r w' k,
    for_each l (λ x, insert_response (f x)) w = (r, w') ∧
    ui w' = ui w ∧
    db w' = set_responses (responses (db w) ++ (f <$> take k l)) (db w) ∧
    match r with
    | Ok _ => k = length l
    | Raise e => e = APIError
    end.
Proof.
  induction l as [|x l IH]; intros w.
  - exists (Ok tt), w, 0%nat. simpl. split_and!; [done|done| |done].
    rewrite app_nil_r. by destruct (db w).
  - rewrite for_each_cons, insert_response_run.
    destruct (next_fails w).
    + exists (Raise APIError), (issued (Insert "responses") w), 0%nat.
      split_and!; [done|done| |done]. simpl. rewrite app_nil_r. by destruct (db w).
    + set (w1 := with_db _ _).
      destruct (IH w1) as (r & w' & k & Hrun & Hui & Hdb & Hr).
      exists r, w', (S k). split_and!; [done|by rewrite Hui| |].
      * rewrite Hdb. simpl. by rewrite <- app_assoc.
      * destruct r; [simpl; by rewrite Hr | done].
Qed.

Lemma submit_responses_spec inp fid pid dict w :
  ∃ r w' k,
    submit_responses inp fid pid dict w = (r, w') ∧
    db w' = set_responses (responses (db w) ++ take k (response_rows fid pid dict)) (db w) ∧
    (k ≠ 0%nat → form_submit_button inp = true ∧ forallb truthy (dict.*2) = true) ∧
    (form_submit_button inp = true → forallb truthy (dict.*2) = false →
       r = Ok tt ∧ ui w' = ui w ++ [ValidationError]).
Proof.
  assert (Hsame : db w = set_responses (responses (db w) ++ take 0 (response_rows fid pid dict)) (db w)).
  { simpl. rewrite app_nil_r. by destruct (db w). }
  unfold submit_responses.
  destruct (form_submit_button inp).
  2:{ exists (Ok tt), w, 0%nat. split_and!; [done|exact Hsame|done|done]. }
  destruct (forallb truthy (dict.*2)).
  2:{ exists (Ok tt), (shown ValidationError w), 0%nat.
      split_and!; [done|exact Hsame|done|done]. }
  rewrite bind_run.
  destruct (for_each_insert_response
              (λ item : Z * PyVal, mkResponse fid pid item.1 (py_str item.2)) dict w)
    as (r & w1 & k & Hrun & Hui & Hdb & Hr).
  rewrite Hrun. destruct r as [[]|e].
  - rewrite bind_run. unfold render at 1. unfold raise.
    eexists _, _, k. split_and!; [reflexivity| |done|done].
    simpl. rewrite Hdb. unfold response_rows. by rewrite fmap_take.
  - eexists _, _, k. split_and!; [reflexivity| |done|done].
    rewrite Hdb. unfold response_rows. by rewrite fmap_take.
Qed.

Lemma collect_responses_ui inp qs : ∀ acc w, ui (collect_responses inp qs acc w).2 = ui w.
Proof.
  induction qs as [|q qs IH]; intros acc w; simpl; [done|].
  destruct (decide (question_type q = "text")); [apply IH|].
  destruct (decide (question_type q = "multiple_choice")); [|apply IH].
  rewrite bind_run, select_options_run.
  destruct (next_fails w); [done|].
  destruct (st_radio _ (radio inp (q_id q))); [|by rewrite IH].
  destruct (list_index _ _); [|done].
  destruct (_ !! _); [by rewrite IH | done].
Qed.

Lemma submit_responses_ui inp fid pid dict w :
  ∃ msgs, ui (submit_responses inp fid pid dict w).2 = ui w ++ msgs.
Proof.
  unfold submit_responses.
  destruct (form_submit_button inp); [|exists []; by rewrite app_nil_r].
  destruct (forallb truthy (dict.*2)); [|by exists [ValidationError]].
  rewrite bind_run.
  destruct (for_each_insert_response
              (λ item : Z * PyVal, mkResponse fid pid item.1 (py_str item.2)) dict w)
    as (r & w1 & k & Hrun & Hui & _).
  rewrite Hrun. destruct r as [[]|e].
  - exists [Submitted]. simpl. by rewrite Hui.
  - exists []. simpl. by rewrite Hui, app_nil_r.
Qed.

Lemma participant_form_run tbl user inp w :
  participant_form tbl user inp w =
    match participant_form_checks tbl user w with
    | (Ok (form_id, questions, participant_id, _), w1) =>
        match collect_responses inp questions [] w1 with
        | (Ok responses, w2) => submit_responses inp form_id participant_id responses w2
        | (Raise e, w2) => (Raise e, w2)
        end
    | (Raise e, w1) => (Raise e, w1)
    end.
Proof.
  unfold participant_form. rewrite bind_run.
  destruct (participant_form_checks tbl user w) as [[[[[fid qs] pid] mt]|e] w1]; reflexivity.
Qed.

Lemma questions_of_NoDup fid (d : Db) :
  NoDup (q_id <$> questions d) → NoDup (q_id <$> questions_of fid d).
Proof.
  unfold questions_of. intros Hnd.
  induction (questions d) as [|q0 l IH]; [constructor|].
  rewrite fmap_cons in Hnd. apply NoDup_cons in Hnd as [Hfresh Hnd].
  destruct (decide (q_form_id q0 = fid)).
  - rewrite filter_cons_True by done. rewrite fmap_cons. apply NoDup_cons.
    split; [|by apply IH]. intros Hin. apply Hfresh.
    apply list_elem_of_fmap in Hin as (q1 & -> & Hq1).
    apply list_elem_of_filter in Hq1 as [_ Hq1]. by apply list_elem_of_fmap_2.
  - rewrite filter_cons_False by done. by apply IH.
Qed.

(** Rows are written only on the path where everything was checked. *)
Lemma participant_form_writes tbl user inp w :
  ∃ new,
    responses (db (participant_form tbl user inp w).2) = responses (db w) ++ new ∧
    (new ≠ [] →
     form_submit_button inp = true ∧
     ∃ form n mt,
       form_of tbl (db w) = Some form ∧
       first_binding user (db w) = Bound n mt ∧
       (∀ row, row ∈ new → r_participant_id row = pretty n ∧ r_form_id row = f_id form) ∧
       (NoDup (q_id <$> questions (db w)) →
        ∀ q, q ∈ questions_of (f_id form) (db w) → ¬ answer_missing inp q) ∧
       (prior_response (pretty n) (f_id form) (db w) →
        ∃ msgs, ui (participant_form tbl user inp w).2
                = ui w ++ AnsweredUnavailable APIError :: msgs)).
Proof.
  rewrite participant_form_run.
  pose proof (reads_participant_form_checks tbl user w) as [Dc _].
  destruct (participant_form_checks tbl user w) as [[[[[fid qs] pid] mt]|e] w1] eqn:Hchecks.
  2:{ exists []. simpl in *. rewrite Dc, app_nil_r. done. }
  apply participant_form_checks_ok in Hchecks
    as (form & n & Hform & -> & -> & Hne & Hbind & -> & D1 & Hprior).
  pose proof (reads_collect_responses inp (questions_of (f_id form) (db w)) [] w1) as [D2 _].
  pose proof (collect_responses_ui inp (questions_of (f_id form) (db w)) [] w1) as U2.
  destruct (collect_responses inp (questions_of (f_id form) (db w)) [] w1)
    as [[dict|e] w2] eqn:Hcollect.
  2:{ exists []. simpl in *. rewrite D2, D1, app_nil_r. done. }
  simpl in D2, U2.
  destruct (submit_responses_spec inp (f_id form) (pretty n) dict w2)
    as (r & w3 & k & Hsubmit & D3 & Hk & _).
  destruct (submit_responses_ui inp (f_id form) (pretty n) dict w2) as [msgs U3].
  rewrite Hsubmit in *. simpl in U3.
  exists (take k (response_rows (f_id form) (pretty n) dict)).
  split; [simpl; rewrite D3; simpl; by rewrite D2, D1|].
  intros Hnew.
  assert (k ≠ 0%nat) as Hk0 by (intros ->; by apply Hnew).
  destruct (Hk Hk0) as [Hbutton Hall].
  split; [done|]. exists form, n, mt. split_and!; [done|done| | |].
  - intros row Hrow. apply subseteq_take in Hrow.
    unfold response_rows in Hrow. apply list_elem_of_fmap in Hrow as (item & -> & _). done.
  - intros Hnd q Hq Hmiss.
    pose proof (questions_of_NoDup (f_id form) (db w) Hnd) as Hnd'.
    destruct (collect_responses_missing _ _ _ _ _ _ q Hcollect Hnd' Hq Hmiss)
      as (v & Hget & Hfalsy).
    rewrite (dict_get_truthy _ _ _ Hall Hget) in Hfalsy. discriminate.
  - intros Hp. destruct Hprior as [[_ Hno]|[U1 _]]; [by destruct Hno|].
    exists msgs. simpl. rewrite U3, U2, U1, <- app_assoc. done.
Qed.

(** ** The form page when the store answers every request *)

Lemma participant_form_checks_available tbl user w form :
  faults w = [] →
  form_of tbl (db w) = Some form →
  questions_of (f_id form) (db w) ≠ [] →
  ∃ r w',
    participant_form_checks tbl user w = (r, w') ∧ db w' = db w ∧ faults w' = [] ∧
    match first_binding user (db w) with
    | Unbound => r = Raise StopException ∧ ui w' = ui w ++ [Unauthorized]
    | Broken => r = Raise APIError ∧ ui w' = ui w
    | Bound n mt =>
        (prior_response (pretty n) (f_id form) (db w) ∧
         r = Raise StopException ∧ ui w' = ui w ++ [AlreadySubmitted]) ∨
        (¬ prior_response (pretty n) (f_id form) (db w) ∧
         r = Ok (f_id form, questions_of (f_id form) (db w), pretty n, mt) ∧
         ui w' = ui w)
    end.
Proof.
  intros Hf Hform Hqs. unfold participant_form_checks, form_of in *.
  rewrite bind_run, select_forms_run, next_fails_no_faults by done.
  destruct (filter (λ f, f_table_name f = tbl) (forms_metadata (db w)))
    as [|form0 forms]; [done|]. injection Hform as ->.
  rewrite bind_run. unfold mret at 1, M_ret at 1.
  rewrite bind_run. cbn [index0]. unfold mret at 1, M_ret at 1. cbv zeta.
  set (w1 := issued (Select "forms_metadata") w).
  assert (F1 : faults w1 = []) by (by apply issued_no_faults).
  rewrite bind_run, select_questions_run, next_fails_no_faults by done.
  change (db w1) with (db w).
  change (filter (λ q, q_form_id q = f_id form) (questions (db w)))
    with (questions_of (f_id form) (db w)).
  destruct (questions_of (f_id form) (db w)) as [|q0 qs0] eqn:Eqs; [done|].
  rewrite bind_run. unfold mret at 1, M_ret at 1.
  set (w2 := issued (Select "questions") w1).
  assert (F2 : faults w2 = []) by (by apply issued_no_faults).
  rewrite bind_run, get_available_meetings_run, next_fails_no_faults by done.
  change (db w2) with (db w).
  set (w3 := issued (Select "meetings_metadata") w2).
  assert (F3 : faults w3 = []) by (by apply issued_no_faults).
  rewrite bind_run.
  destruct (scan_meetings user (meetings_metadata (db w)) w3) as [[found|e] w4] eqn:Hscan;
    apply scan_meetings_spec in Hscan as (D4 & U4 & Fs4 & Hfound);
    change (db w3) with (db w) in *; change (ui w3) with (ui w) in *;
    specialize (Fs4 F3); unfold first_binding.
  2:{ destruct Hfound as [-> Hbroken]. rewrite (Hbroken F3).
      eexists _, _. split_and!; done. }
  destruct (scan_catalog (pools (db w)) user (meetings_metadata (db w))) as [n mt| |];
    [|subst found|done].
  2:{ rewrite bind_run. cbn [fst]. rewrite decide_True by done.
      eexists _, _. split_and!; [reflexivity|done|done|done|]. simpl. by rewrite U4. }
  subst found. rewrite bind_run. cbn [fst snd].
  rewrite decide_False by apply pretty_Z_nonempty.
  unfold mret at 1, M_ret at 1.
  rewrite bind_run, get_answered_forms_run, next_fails_no_faults by done.
  rewrite bind_run, D4.
  destruct (decide (f_id form ∈ _)) as [Hin|Hnotin].
  - eexists _, _. split_and!; [reflexivity|done|by apply issued_no_faults|].
    left. split_and!; [by apply elem_of_answered|done|simpl; by rewrite U4].
  - eexists _, _. split_and!; [reflexivity|done|by apply issued_no_faults|].
    right. split_and!; [|done|done].
    intros Hp. apply Hnotin. by apply elem_of_answered.
Qed.

Lemma list_index_lt x xs i : list_index x xs = Some i → (i < length xs)%nat.
Proof.
  revert i. induction xs as [|y ys IH]; intros i; simpl; [done|].
  case_decide; [intros [= <-]; lia|].
  destruct (list_index x ys) as [j|]; [|done]. intros [= <-].
  specialize (IH j eq_refl). lia.
Qed.

(** The option the radio group returns is among the options shown, so
    [index] finds it. *)
Lemma list_index_elem x xs : x ∈ xs → ∃ i, list_index x xs = Some i.
Proof.
  induction xs as [|y ys IH]; intros Hx; [by apply elem_of_nil in Hx|].
  simpl. case_decide; [by eexists|].
  apply elem_of_cons in Hx as [->|Hx]; [done|].
  destruct (IH Hx) as [i ->]. by eexists.
Qed.

Lemma st_radio_elem options ticked sel :
  st_radio options ticked = Some sel → sel ∈ options.
Proof.
  destruct ticked as [i|]; [|done]. simpl. apply list_elem_of_lookup_2.
Qed.

(** With the store available, the form is rendered and every widget
    gives its entry of the dict. *)
Lemma collect_responses_available inp qs : ∀ acc w,
  faults w = [] →
  ∃ dict w', collect_responses inp qs acc w = (Ok dict, w') ∧ faults w' = [].
Proof.
  induction qs as [|q qs IH]; intros acc w Hf; simpl.
  - eexists _, _. split; [reflexivity|done].
  - destruct (decide (question_type q = "text")); [by apply IH|].
    destruct (decide (question_type q = "multiple_choice")); [|by apply IH].
    rewrite bind_run, select_options_run, next_fails_no_faults by done.
    assert (F1 : faults (issued (Select "options") w) = []) by (by apply issued_no_faults).
    destruct (st_radio _ (radio inp (q_id q))) as [sel|] eqn:Hsel; [|by apply IH].
    apply st_radio_elem, list_index_elem in Hsel as [i Hi]. rewrite Hi.
    apply list_index_lt in Hi. rewrite length_fmap in Hi.
    destruct (lookup_lt_is_Some_2 (o_id <$> filter (λ o, o_question_id o = q_id q) (options (db w))) i)
      as [oid Hoid]; [by rewrite length_fmap|].
    simpl. rewrite Hoid. by apply IH.
Qed.

(** The claim of C6 as it is stated fails: participant 2 has answered the
    form, the query for the answered forms fails, the accessor returns the
    empty set, and the second submission is stored. *)
Lemma resubmission_after_failed_check :
  prior_response "2" 1 quiz_db ∧
  first_binding "u-ana" quiz_db = Bound 2 "meeting_2_m" ∧
  resubmission.1 = Raise RerunException ∧
  responses (db resubmission.2) =
    responses quiz_db ++ [mkResponse 1 "2" 1 "hello"; mkResponse 1 "2" 2 "1"] ∧
  ui resubmission.2 = [AnsweredUnavailable APIError; Submitted].
Proof.
  split.
  { exists (mkResponse 1 "2" 1 "hello"). split; [left|done]. }
  vm_compute. done.
Qed.

(** C6 (amended) — Preconditions of a form submission.  (1) Whatever the
    store does, response rows are only ever appended, and only when the
    submit button was pressed, the identity is bound to a number, no
    widget was left empty and either no response of that participant for
    the form is stored or the query for the answered forms failed (its
    error is rendered).  (2) When the store answers every request and the
    form has questions: an identity without a number in any pool is
    stopped with the Unauthorized message; a participant with a stored
    response for the form is stopped with the AlreadySubmitted message;
    otherwise a submission with an empty widget ends with the
    ValidationError message; in each case the store is left unchanged. *)
Theorem submission_preconditions tbl user inp w :
  (∃ new,
     responses (db (participant_form tbl user inp w).2) = responses (db w) ++ new ∧
     (new ≠ [] →
      form_submit_button inp = true ∧
      ∃ form n mt,
        form_of tbl (db w) = Some form ∧
        first_binding user (db w) = Bound n mt ∧
        (NoDup (q_id <$> questions (db w)) →
         ∀ q, q ∈ questions_of (f_id form) (db w) → ¬ answer_missing inp q) ∧
        (prior_response (pretty n) (f_id form) (db w) →
         ∃ msgs, ui (participant_form tbl user inp w).2
                 = ui w ++ AnsweredUnavailable APIError :: msgs))) ∧
  (∀ form,
     faults w = [] →
     form_of tbl (db w) = Some form →
     questions_of (f_id form) (db w) ≠ [] →
     match first_binding user (db w) with
     | Unbound =>
         (participant_form tbl user inp w).1 = Raise StopException ∧
         ui (participant_form tbl user inp w).2 = ui w ++ [Unauthorized] ∧
         db (participant_form tbl user inp w).2 = db w
     | Broken =>
         (participant_form tbl user inp w).1 = Raise APIError ∧
         db (participant_form tbl user inp w).2 = db w
     | Bound n mt =>
         (prior_response (pretty n) (f_id form) (db w) →
          (participant_form tbl user inp w).1 = Raise StopException ∧
          ui (participant_form tbl user inp w).2 = ui w ++ [AlreadySubmitted] ∧
          db (participant_form tbl user inp w).2 = db w) ∧
         (¬ prior_response (pretty n) (f_id form) (db w) →
          form_submit_button inp = true →
          NoDup (q_id <$> questions (db w)) →
          (∃ q, q ∈ questions_of (f_id form) (db w) ∧ answer_missing inp q) →
          (participant_form tbl user inp w).1 = Ok tt ∧
          ui (participant_form tbl user inp w).2 = ui w ++ [ValidationError] ∧
          db (participant_form tbl user inp w).2 = db w)
     end).
Proof.
  split.
  { destruct (participant_form_writes tbl user inp w) as (new & Hnew & Himp).
    exists new. split; [done|]. intros Hne.
    destruct (Himp Hne) as (Hb & form & n & mt & ? & ? & _ & ? & ?).
    split; [done|]. exists form, n, mt. done. }
  intros form Hf Hform Hqs.
  destruct (participant_form_checks_available tbl user w form Hf Hform Hqs)
    as (r & w1 & Hc & D1 & F1 & Hcase).
  rewrite participant_form_run, Hc.
  destruct (first_binding user (db w)) as [n mt| |].
  - destruct Hcase as [(Hp & -> & U1)|(Hno & -> & U1)].
    + split; [done|]. intros Hno. by destruct Hno.
    + split; [intros Hp; by destruct Hno|].
      intros _ Hb Hnd (q & Hq & Hm).
      destruct (collect_responses_available inp (questions_of (f_id form) (db w)) [] w1 F1)
        as (dict & w2 & Hcol & F2).
      pose proof (collect_responses_ui inp (questions_of (f_id form) (db w)) [] w1) as U2.
      pose proof (reads_collect_responses inp (questions_of (f_id form) (db w)) [] w1) as [D2 _].
      rewrite Hcol in *. simpl in U2, D2.
      pose proof (questions_of_NoDup (f_id form) (db w) Hnd) as Hnd'.
      destruct (collect_responses_missing _ _ _ _ _ _ q Hcol Hnd' Hq Hm) as (v & Hget & Hv).
      assert (Hall : forallb truthy (dict.*2) = false).
      { destruct (forallb truthy (dict.*2)) eqn:Hall; [|done].
        rewrite (dict_get_truthy _ _ _ Hall Hget) in Hv. discriminate. }
      destruct (submit_responses_spec inp (f_id form) (pretty n) dict w2)
        as (r3 & w3 & k & Hs & D3 & Hk & Hval).
      rewrite Hs. simpl.
      destruct (Hval Hb Hall) as [-> U3].
      split_and!; [done|by rewrite U3, U2, U1|].
      destruct (decide (k = 0%nat)) as [->|Hk0].
      * rewrite D3. simpl. rewrite app_nil_r, D2, D1. by destruct (db w).
      * destruct (Hk Hk0) as [_ Htrue]. congruence.
  - destruct Hcase as [-> U1]. done.
  - destruct Hcase as [-> U1]. done.
Qed.

Lemma submission_preconditions_witness :
  ((participant_form "form_1_quiz" "u-bob" quiz_input (world_of quiz_db [])).1
     = Raise StopException ∧
   ui (participant_form "form_1_quiz" "u-bob" quiz_input (world_of quiz_db [])).2
     = [Unauthorized]) ∧
  ((participant_form "form_1_quiz" "u-ana" quiz_input (world_of quiz_db [])).1
     = Raise StopException ∧
   ui (participant_form "form_1_quiz" "u-ana" quiz_input (world_of quiz_db [])).2
     = [AlreadySubmitted]) ∧
  ((participant_form "form_1_quiz" "u-ana" quiz_input_empty_text
      (world_of quiz_db_unanswered [])).1 = Ok tt ∧
   ui (participant_form "form_1_quiz" "u-ana" quiz_input_empty_text
         (world_of quiz_db_unanswered [])).2 = [ValidationError]).
Proof.
  split; [|split].
  - destruct (submission_preconditions "form_1_quiz" "u-bob" quiz_input
                (world_of quiz_db [])) as [_ H].
    specialize (H (mkForm 1 "Quiz" "form_1_quiz" "t0") eq_refl eq_refl ltac:(discriminate)).
    change (first_binding "u-bob" (db (world_of quiz_db []))) with Unbound in H.
    destruct H as (H1 & H2 & _). split; [exact H1 | exact H2].
  - destruct (submission_preconditions "form_1_quiz" "u-ana" quiz_input
                (world_of quiz_db [])) as [_ H].
    specialize (H (mkForm 1 "Quiz" "form_1_quiz" "t0") eq_refl eq_refl ltac:(discriminate)).
    change (first_binding "u-ana" (db (world_of quiz_db [])))
      with (Bound 2 "meeting_2_m") in H.
    destruct H as [H _].
    destruct H as (H1 & H2 & _).
    { exists (mkResponse 1 "2" 1 "hello"). split; [left | split; reflexivity]. }
    split; [exact H1 | exact H2].
  - destruct (submission_preconditions "form_1_quiz" "u-ana" quiz_input_empty_text
                (world_of quiz_db_unanswered [])) as [_ H].
    specialize (H (mkForm 1 "Quiz" "form_1_quiz" "t0") eq_refl eq_refl ltac:(discriminate)).
    change (first_binding "u-ana" (db (world_of quiz_db_unanswered [])))
      with (Bound 2 "meeting_2_m") in H.
    destruct H as [_ H].
    destruct H as (H1 & H2 & _).
    + intros (r & Hr & _). by apply elem_of_nil in Hr.
    + reflexivity.
    + apply (bool_decide_unpack _). vm_compute. reflexivity.
    + exists (mkQuestion 1 1 "Say something" "text" None).
      split; [left | left; split; reflexivity].
    + split; [exact H1 | exact H2].
Defined.

(** ** Submissions that go through, and submissions that break off *)

(** The submit loop under a schedule whose first [k] requests succeed. *)
Lemma for_each_insert_response_faults {A} (f : A → Response) l : ∀ w k rest,
  faults w = replicate k false ++ rest →
  (k < length l → ∃ rest', rest = true :: rest')%nat →
  ∃ r w',
    for_each l (λ x, insert_response (f x)) w = (r, w') ∧
    ui w' = ui w ∧
    db w' = set_responses (responses (db w) ++ (f <$> take k l)) (db w) ∧
    (length l ≤ k → r = Ok tt ∧ faults w' = replicate (k - length l) false ++ rest)%nat ∧
    (k < length l → r = Raise APIError)%nat ∧
    (k < length l → faults w' = tail rest)%nat.
Proof.
  induction l as [|x l IH]; intros w k rest Hf Hk.
  - exists (Ok tt), w. simpl. split_and!; [done|done| | |lia|lia].
    + rewrite take_nil, app_nil_r. by destruct (db w).
    + intros _. by rewrite Nat.sub_0_r.
  - rewrite for_each_cons, insert_response_run.
    destruct k as [|k]; simpl in Hf.
    + destruct Hk as [rest' ->]; [simpl; lia|].
      assert (next_fails w = true) as -> by (unfold next_fails; by rewrite Hf).
      eexists _, _. split_and!; [reflexivity|done| |simpl; lia|done|by simpl; rewrite Hf].
      simpl. rewrite app_nil_r. by destruct (db w).
    + assert (next_fails w = false) as -> by (unfold next_fails; by rewrite Hf).
      set (w1 := with_db _ _).
      destruct (IH w1 k rest) as (r & w' & Hrun & Hui & Hdb & Hok & Hfail & Hrest).
      { simpl. by rewrite Hf. }
      { intros Hlt. apply Hk. simpl. lia. }
      exists r, w'. split_and!; [done|by rewrite Hui| | | |].
      * rewrite Hdb. simpl. by rewrite <- app_assoc.
      * intros Hle. simpl in Hle. apply Hok. lia.
      * intros Hlt. simpl in Hlt. apply Hfail. lia.
      * intros Hlt. simpl in Hlt. apply Hrest. lia.
Qed.

(** The submit loop when the store answers every request. *)
Lemma for_each_insert_response_available {A} (f : A → Response) l : ∀ w,
  faults w = [] →
  ∃ w',
    for_each l (λ x, insert_response (f x)) w = (Ok tt, w') ∧
    ui w' = ui w ∧ faults w' = [] ∧
    db w' = set_responses (responses (db w) ++ (f <$> l)) (db w).
Proof.
  induction l as [|x l IH]; intros w Hf.
  - exists w. simpl. split_and!; [done|done|done|].
    rewrite app_nil_r. by destruct (db w).
  - rewrite for_each_cons, insert_response_run, next_fails_no_faults by done.
    set (w1 := with_db _ _).
    destruct (IH w1) as (w' & Hrun & Hui & Hf' & Hdb).
    { unfold w1. simpl. by rewrite Hf. }
    exists w'. split_and!; [done|by rewrite Hui|done|].
    rewrite Hdb. simpl. by rewrite <- app_assoc.
Qed.

(** What the form collects depends on the options table alone when the
    store answers. *)
Lemma collect_responses_value inp qs : ∀ acc w w',
  faults w = [] → faults w' = [] → options (db w) = options (db w') →
  (collect_responses inp qs acc w).1 = (collect_responses inp qs acc w').1.
Proof.
  induction qs as [|q qs IH]; intros acc w w' Hf Hf' Ho; simpl; [done|].
  destruct (decide (question_type q = "text")); [by apply IH|].
  destruct (decide (question_type q = "multiple_choice")); [|by apply IH].
  rewrite !bind_run, !select_options_run, !next_fails_no_faults by done.
  rewrite <- Ho.
  assert (F1 : faults (issued (Select "options") w) = []) by (by apply issued_no_faults).
  assert (F2 : faults (issued (Select "options") w') = []) by (by apply issued_no_faults).
  destruct (st_radio _ (radio inp (q_id q))); [|by apply IH].
  destruct (list_index _ _); [|done].
  destruct (_ !! _); [by apply IH | done].
Qed.

Lemma prior_response_rows fid pid dict (d : Db) k :
  dict ≠ [] → (0 < k)%nat →
  prior_response pid fid
    (set_responses (responses d ++ take k (response_rows fid pid dict)) d).
Proof.
  intros Hne Hk. destruct dict as [|[qid v] dict]; [done|].
  destruct k as [|k]; [lia|].
  exists (mkResponse fid pid qid (py_str v)). split; [|done].
  simpl. apply elem_of_app. right. unfold response_rows. simpl. left.
Qed.

(** Once a response row of the participant for the form is stored, the
    page refuses the identity whenever the store is available. *)
Lemma refused_after_rows tbl user inp w d form n mt :
  form_of tbl d = Some form → questions_of (f_id form) d ≠ [] →
  first_binding user d = Bound n mt →
  faults w = [] →
  forms_metadata (db w) = forms_metadata d → questions (db w) = questions d →
  meetings_metadata (db w) = meetings_metadata d → pools (db w) = pools d →
  prior_response (pretty n) (f_id form) (db w) →
  (participant_form tbl user inp w).1 = Raise StopException ∧
  ui (participant_form tbl user inp w).2 = ui w ++ [AlreadySubmitted] ∧
  db (participant_form tbl user inp w).2 = db w.
Proof.
  intros Hform Hqs Hbind Hf EF EQ EM EP Hprior.
  assert (Hform' : form_of tbl (db w) = Some form) by (unfold form_of; by rewrite EF).
  assert (Hqs' : questions_of (f_id form) (db w) ≠ [])
    by (unfold questions_of; by rewrite EQ).
  assert (Hbind' : first_binding user (db w) = Bound n mt)
    by (unfold first_binding; by rewrite EM, EP).
  destruct (participant_form_checks_available tbl user w form Hf Hform' Hqs')
    as (r & w1 & Hc & D1 & F1 & Hcase).
  rewrite participant_form_run, Hc. rewrite Hbind' in Hcase.
  destruct Hcase as [(_ & -> & U1)|(Hno & _)]; [done | by destruct Hno].
Qed.

(** A submission on a store that answers: the checks pass, the form is
    collected, and the loop stores one row per entry of the dict. *)
Lemma submission_stores_rows tbl user inp w form n mt dict :
  faults w = [] →
  form_of tbl (db w) = Some form →
  questions_of (f_id form) (db w) ≠ [] →
  first_binding user (db w) = Bound n mt →
  ¬ prior_response (pretty n) (f_id form) (db w) →
  form_submit_button inp = true →
  (collect_responses inp (questions_of (f_id form) (db w)) [] w).1 = Ok dict →
  forallb truthy (dict.*2) = true →
  ∃ w', participant_form tbl user inp w = (Raise RerunException, w') ∧
    db w' = set_responses
              (responses (db w) ++ response_rows (f_id form) (pretty n) dict) (db w) ∧
    ui w' = ui w ++ [Submitted] ∧ faults w' = [].
Proof.
  intros Hf Hform Hqs Hbind Hno Hb Hcol Hall.
  destruct (participant_form_checks_available tbl user w form Hf Hform Hqs)
    as (r & w1 & Hc & D1 & F1 & Hcase).
  rewrite Hbind in Hcase.
  destruct Hcase as [(Hp & _)|(_ & -> & U1)]; [by destruct Hno|].
  rewrite participant_form_run, Hc.
  pose proof (collect_responses_value inp (questions_of (f_id form) (db w)) [] w w1 Hf F1
                ltac:(by rewrite D1)) as Hval.
  rewrite Hcol in Hval.
  pose proof (reads_collect_responses inp (questions_of (f_id form) (db w)) [] w1) as [D2 F2].
  pose proof (collect_responses_ui inp (questions_of (f_id form) (db w)) [] w1) as U2.
  destruct (collect_responses inp (questions_of (f_id form) (db w)) [] w1)
    as [r2 w2] eqn:Hcol2. simpl in Hval, D2, F2, U2. subst r2. specialize (F2 F1).
  unfold submit_responses. rewrite Hb, Hall. rewrite bind_run.
  destruct (for_each_insert_response_available
              (λ item : Z * PyVal, mkResponse (f_id form) (pretty n) item.1 (py_str item.2))
              dict w2 F2)
    as (w3 & Hrun3 & U3 & F3 & D3).
  rewrite Hrun3.
  rewrite bind_run. unfold render at 1. unfold raise.
  eexists. split_and!; [reflexivity| | |exact F3].
  - simpl. rewrite D3, D2, D1. reflexivity.
  - simpl. by rewrite U3, U2, U1.
Qed.

(** ** The participant id of a response *)

(** The scan stops at the first pool of the catalog that holds a slot of
    the identity, whatever the later pools hold. *)
Lemma scan_catalog_first pls user pre m post p s rest :
  (∀ m', m' ∈ pre → ∃ p', pls !! m_table_name m' = Some p' ∧ filter (owns user) p' = []) →
  pls !! m_table_name m = Some p →
  filter (owns user) p = s :: rest →
  scan_catalog pls user (pre ++ m :: post) = Bound (number s) (m_table_name m).
Proof.
  intros Hpre Hp Hs. induction pre as [|m0 pre IH]; simpl.
  - by rewrite Hp, Hs.
  - destruct (Hpre m0) as (p0 & Hp0 & Hnone); [left|].
    rewrite Hp0, Hnone. apply IH. intros m' Hm'. apply Hpre. by right.
Qed.

(** C10 — Participant identification in responses.  (1) Every response
    row a run of the form page writes carries, as participant id, the
    decimal text of the number found by the scan of the pools, not the
    identity token.  (2) That number is the one of the first pool, in the
    order of the catalog, that holds a slot bound to the identity,
    whatever later pools hold.  (3) The check for answered forms looks at
    that text only: with the store available, any identity whose scan
    gives number n is stopped as soon as a response of participant n for
    the form is stored, whoever wrote it.  (4) And rows are written: with
    the store available, when the first pool of the catalog that holds a
    slot of the identity holds it under number n, participant n has not
    answered the form, and the form is submitted with every answer given,
    the page appends one row per answer, each under the participant id
    "n"; from then on every identity whose scan gives the number n, in
    whichever pool, is stopped as having answered. *)
Theorem participant_is_first_number tbl user inp w :
  (∃ new,
     responses (db (participant_form tbl user inp w).2) = responses (db w) ++ new ∧
     (new ≠ [] →
      ∃ n mt, first_binding user (db w) = Bound n mt ∧
        ∀ row, row ∈ new → r_participant_id row = pretty n)) ∧
  (∀ pre m post p s rest,
     meetings_metadata (db w) = pre ++ m :: post →
     (∀ m', m' ∈ pre →
        ∃ p', pools (db w) !! m_table_name m' = Some p' ∧ filter (owns user) p' = []) →
     pools (db w) !! m_table_name m = Some p →
     filter (owns user) p = s :: rest →
     first_binding user (db w) = Bound (number s) (m_table_name m)) ∧
  (∀ other form n mt,
     faults w = [] →
     form_of tbl (db w) = Some form →
     questions_of (f_id form) (db w) ≠ [] →
     first_binding other (db w) = Bound n mt →
     prior_response (pretty n) (f_id form) (db w) →
     (participant_form tbl other inp w).1 = Raise StopException ∧
     ui (participant_form tbl other inp w).2 = ui w ++ [AlreadySubmitted] ∧
     db (participant_form tbl other inp w).2 = db w) ∧
  (∀ form pre m post p s rest dict,
     faults w = [] →
     form_of tbl (db w) = Some form →
     questions_of (f_id form) (db w) ≠ [] →
     meetings_metadata (db w) = pre ++ m :: post →
     (∀ m', m' ∈ pre →
        ∃ p', pools (db w) !! m_table_name m' = Some p' ∧ filter (owns user) p' = []) →
     pools (db w) !! m_table_name m = Some p →
     filter (owns user) p = s :: rest →
     ¬ prior_response (pretty (number s)) (f_id form) (db w) →
     form_submit_button inp = true →
     (collect_responses inp (questions_of (f_id form) (db w)) [] w).1 = Ok dict →
     dict ≠ [] → forallb truthy (dict.*2) = true →
     (participant_form tbl user inp w).1 = Raise RerunException ∧
     responses (db (participant_form tbl user inp w).2) =
       responses (db w) ++
         ((λ item, mkResponse (f_id form) (pretty (number s)) item.1 (py_str item.2))
            <$> dict) ∧
     ∀ other mt inp' w2,
       first_binding other (db w) = Bound (number s) mt →
       faults w2 = [] → db w2 = db (participant_form tbl user inp w).2 →
       (participant_form tbl other inp' w2).1 = Raise StopException ∧
       ui (participant_form tbl other inp' w2).2 = ui w2 ++ [AlreadySubmitted] ∧
       db (participant_form tbl other inp' w2).2 = db w2).
Proof.
  split_and!.
  - destruct (participant_form_writes tbl user inp w) as (new & Hnew & Himp).
    exists new. split; [done|]. intros Hne.
    destruct (Himp Hne) as (_ & form & n & mt & _ & Hbind & Hrows & _).
    exists n, mt. split; [done|]. intros row Hrow. by apply Hrows.
  - intros pre m post p s rest Hms Hpre Hp Hs. unfold first_binding. rewrite Hms.
    by eapply scan_catalog_first.
  - intros other form n mt Hf Hform Hqs Hbind Hprior.
    by apply (refused_after_rows tbl other inp w (db w) form n mt).
  - intros form pre m post p s rest dict Hf Hform Hqs Hms Hpre Hp Hs Hno Hb Hcol Hne Hall.
    assert (Hbind : first_binding user (db w) = Bound (number s) (m_table_name m)).
    { unfold first_binding. rewrite Hms. by eapply scan_catalog_first. }
    destruct (submission_stores_rows tbl user inp w form (number s) (m_table_name m) dict)
      as (w1 & Hrun & D1 & U1 & F1); try done.
    rewrite Hrun. cbn [fst snd]. rewrite D1.
    split_and!; [done|done|].
    intros other mt inp' w2 Hother F2 D2.
    apply (refused_after_rows tbl other inp' w2 (db w) form (number s) mt); try done;
      try (by rewrite D2).
    rewrite D2. rewrite <- (firstn_all (response_rows _ _ _)).
    apply prior_response_rows; [done|].
    unfold response_rows. rewrite length_fmap. destruct dict; [done|simpl; lia].
Qed.

Lemma participant_is_first_number_witness :
  first_binding "u-ana" two_pools_db = Bound 1 "meeting_a" ∧
  ana_submission.1 = Raise RerunException ∧
  responses (db ana_submission.2) =
    responses two_pools_db ++
      ((λ item, mkResponse 1 (pretty 1) item.1 (py_str item.2))
         <$> [(1, PyStr "hello"); (2, PyInt 1)]) ∧
  bob_submission.1 = Raise StopException ∧
  ui bob_submission.2 = [AlreadySubmitted] ∧
  db bob_submission.2 = db ana_submission.2.
Proof.
  destruct (participant_is_first_number "form_1_quiz" "u-ana" quiz_input
              (world_of two_pools_db [])) as (_ & Hfirst & _ & Hwrites).
  split.
  { apply (Hfirst [] (mkMeeting 1 "meeting_a" "A" "t1" 2)
             [mkMeeting 2 "meeting_b" "B" "t2" 3]
             [mkSlot 1 true (Some "t3") (Some "u-ana"); mkSlot 2 false None None]
             (mkSlot 1 true (Some "t3") (Some "u-ana")) []).
    - reflexivity.
    - intros m' Hm'. by apply elem_of_nil in Hm'.
    - reflexivity.
    - reflexivity. }
  destruct (Hwrites (mkForm 1 "Quiz" "form_1_quiz" "t0") []
              (mkMeeting 1 "meeting_a" "A" "t1" 2) [mkMeeting 2 "meeting_b" "B" "t2" 3]
              [mkSlot 1 true (Some "t3") (Some "u-ana"); mkSlot 2 false None None]
              (mkSlot 1 true (Some "t3") (Some "u-ana")) []
              [(1, PyStr "hello"); (2, PyInt 1)])
    as (Hrun & Hrows & Hothers).
  - reflexivity.
  - reflexivity.
  - discriminate.
  - reflexivity.
  - intros m' Hm'. by apply elem_of_nil in Hm'.
  - reflexivity.
  - reflexivity.
  - intros (r & Hr & _). by apply elem_of_nil in Hr.
  - reflexivity.
  - vm_compute. reflexivity.
  - discriminate.
  - reflexivity.
  - destruct (Hothers "u-bob" "meeting_b" quiz_input (world_of (db ana_submission.2) []))
      as (H1 & H2 & H3).
    + vm_compute. reflexivity.
    + reflexivity.
    + reflexivity.
    + split_and!; [exact Hrun|exact Hrows|exact H1|exact H2|exact H3].
Defined.

(** An identity with slots in two pools answers as the number of the
    first pool; another identity with the same number in the other pool is
    then taken for the same participant. *)
Example shared_participant_id :
  first_binding "u-ana" two_pools_db = Bound 1 "meeting_a" ∧
  first_binding "u-bob" two_pools_db = Bound 1 "meeting_b" ∧
  ana_submission.1 = Raise RerunException ∧
  responses (db ana_submission.2) =
    [mkResponse 1 "1" 1 "hello"; mkResponse 1 "1" 2 "1"] ∧
  bob_submission.1 = Raise StopException ∧
  ui bob_submission.2 = [AlreadySubmitted] ∧
  responses (db bob_submission.2) = responses (db ana_submission.2).
Proof. vm_compute. done. Qed.

(** ** Answers and grading *)

(** A column that identifies the rows selects one row. *)
Lemma filter_key_unique {A} (key : A → Z) (l : list A) x :
  NoDup (key <$> l) → x ∈ l → filter (λ y, key y = key x) l = [x].
Proof.
  induction l as [|y l IH]; intros Hnd Hx; [by apply elem_of_nil in Hx|].
  rewrite fmap_cons in Hnd. apply NoDup_cons in Hnd as [Hfresh Hnd].
  assert (Hrest : ∀ z, key z ∉ key <$> l → filter (λ y, key y = key z) l = []).
  { intros z Hz. clear -Hz. induction l as [|y l IH]; [done|].
    rewrite fmap_cons in Hz. apply not_elem_of_cons in Hz as [Hne Hz].
    rewrite filter_cons_False by done. by apply IH. }
  apply elem_of_cons in Hx as [->|Hx].
  - rewrite filter_cons_True by done. by rewrite Hrest.
  - rewrite filter_cons_False; [by apply IH|].
    intros Heq. apply Hfresh. rewrite Heq. by apply list_elem_of_fmap_2.
Qed.

(** The forms of a meeting when the store answers. *)
Lemma get_forms_for_meeting_available meeting_id w :
  faults w = [] →
  ∃ w', get_forms_for_meeting meeting_id w = (Ok (linked_forms meeting_id (db w)), w') ∧
    faults w' = [] ∧ db w' = db w ∧ ui w' = ui w.
Proof.
  intros Hf. rewrite get_forms_for_meeting_run. cbv zeta.
  rewrite next_fails_no_faults by done. unfold linked_forms.
  destruct (mf_form_id <$> filter (λ l, mf_meeting_id l = meeting_id) (meeting_forms (db w)))
    as [|i ids].
  - eexists. split_and!; [|by apply issued_no_faults|done|done].
    f_equal. f_equal. symmetry.
    induction (forms_metadata (db w)) as [|f l IH]; [done|].
    rewrite filter_cons_False by (apply not_elem_of_nil). exact IH.
  - rewrite next_fails_no_faults by (by apply issued_no_faults).
    eexists. split_and!; [reflexivity|simpl; by rewrite Hf|done|done].
Qed.

(** The position of an option whose text no other option of the question
    has. *)
Lemma list_index_unique_text (opts : list OptionRow) red :
  red ∈ opts →
  (∀ o, o ∈ opts → option_text o = option_text red → o = red) →
  ∃ i, list_index (option_text red) (option_text <$> opts) = Some i ∧
       (o_id <$> opts) !! i = Some (o_id red).
Proof.
  induction opts as [|o opts IH]; intros Hin Huniq; [by apply elem_of_nil in Hin|].
  rewrite !fmap_cons. cbn [list_index].
  destruct (decide (option_text o = option_text red)) as [Heq|Hne].
  - exists 0%nat. split; [done|]. simpl. f_equal. f_equal. apply Huniq; [left|done].
  - apply elem_of_cons in Hin as [->|Hin]; [done|].
    destruct IH as (i & Hi & Hid); [done|intros o' Ho'; apply Huniq; by right|].
    exists (S i). rewrite Hi. done.
Qed.

(** The answers of the scenario are collected as the text typed in and
    as the id of the option ticked. *)
Lemma collect_quiz_answers inp qt qm opts red w :
  faults w = [] →
  question_type qt = "text" → question_type qm = "multiple_choice" →
  q_id qt ≠ q_id qm →
  filter (λ o, o_question_id o = q_id qm) (options (db w)) = opts →
  red ∈ opts →
  (∀ o, o ∈ opts → option_text o = option_text red → o = red) →
  st_radio (option_text <$> opts) (radio inp (q_id qm)) = Some (option_text red) →
  (collect_responses inp [qt; qm] [] w).1 =
    Ok [(q_id qt, PyStr (text_input inp (q_id qt))); (q_id qm, PyInt (o_id red))].
Proof.
  intros Hf Hqt Hqm Hne Hopts Hred Huniq Hradio.
  cbn [collect_responses].
  rewrite (decide_True (P := question_type qt = "text")) by done.
  rewrite (decide_False (P := question_type qm = "text")) by (rewrite Hqm; discriminate).
  rewrite (decide_True (P := question_type qm = "multiple_choice")) by done.
  rewrite bind_run, select_options_run, next_fails_no_faults by done.
  rewrite Hopts. cbv zeta. rewrite Hradio.
  destruct (list_index_unique_text opts red Hred Huniq) as (i & Hi & Hid).
  rewrite Hi, Hid.
  cbn [dict_set]. rewrite decide_False by done. reflexivity.
Qed.

(** Grading of a response to a text question without correct answer, and
    of a response that names the option the question holds as correct. *)
Lemma grade_text_without_correct lower forms resp q w :
  faults w = [] →
  filter (λ q, q_id q = r_question_id resp) (questions (db w)) = [q] →
  question_type q = "text" → correct_answer q = None →
  ∃ w', grade_response lower forms resp w =
          (Ok (mkGraded (r_participant_id resp)
                 (match head (filter (λ f, f_id f = r_form_id resp) forms) with
                  | Some f => form_name f
                  | None => "Desconhecido"
                  end)
                 (question_text q) (answer resp) "N/A"), w') ∧
    faults w' = [] ∧ db w' = db w.
Proof.
  intros Hf Hq Ht Hc. unfold grade_response.
  rewrite bind_run, select_questions_run, next_fails_no_faults by done.
  rewrite Hq.
  rewrite bind_run. cbn [index0]. unfold mret at 1, M_ret at 1.
  rewrite bind_run.
  rewrite (decide_False (P := question_type q = "multiple_choice"))
    by (rewrite Ht; discriminate).
  rewrite Hc. cbn [text_truthy]. rewrite andb_false_r.
  unfold mret, M_ret. eexists. split_and!; [reflexivity|by apply issued_no_faults|done].
Qed.

Lemma grade_mc_correct lower forms resp q red w :
  faults w = [] →
  filter (λ q, q_id q = r_question_id resp) (questions (db w)) = [q] →
  question_type q = "multiple_choice" →
  correct_answer q = Some (pretty (o_id red)) →
  answer resp = pretty (o_id red) →
  red ∈ options (db w) → NoDup (o_id <$> options (db w)) →
  ∃ w', grade_response lower forms resp w =
          (Ok (mkGraded (r_participant_id resp)
                 (match head (filter (λ f, f_id f = r_form_id resp) forms) with
                  | Some f => form_name f
                  | None => "Desconhecido"
                  end)
                 (question_text q) (option_text red) "✅ Correta"), w') ∧
    faults w' = [] ∧ db w' = db w.
Proof.
  intros Hf Hq Ht Hc Hans Hred Hnd.
  assert (Hopt : filter (λ o, pretty (o_id o) = answer resp) (options (db w)) = [red]).
  { rewrite <- (filter_key_unique o_id (options (db w)) red Hnd Hred).
    apply list_filter_iff. intros o. rewrite Hans. split; [apply (inj pretty)|by intros ->]. }
  unfold grade_response.
  rewrite bind_run, select_questions_run, next_fails_no_faults by done.
  rewrite Hq.
  rewrite bind_run. cbn [index0]. unfold mret at 1, M_ret at 1.
  rewrite bind_run.
  rewrite (decide_True (P := question_type q = "multiple_choice")) by done.
  rewrite bind_run, select_options_run, next_fails_no_faults
    by (by apply issued_no_faults).
  change (db (issued (Select "questions") w)) with (db w).
  rewrite Hopt. rewrite Hc. cbn [text_truthy].
  rewrite (bool_decide_false (pretty (o_id red) = "")) by apply pretty_Z_nonempty.
  cbn [negb]. rewrite decide_True by (by rewrite Hans).
  unfold mret, M_ret. eexists.
  split_and!; [reflexivity|simpl; by rewrite Hf|done].
Qed.

(** C8 — Grading output.  Take a store that answers, a form with a text
    question without correct answer and a multiple-choice question whose
    correct answer is the id of its option Red (the form in which
    app.py:703-708 stores that configuration), a meeting that offers the
    form, and a participant, number n, before anyone answered the form.
    When the participant types "hello", ticks Red and submits, the form
    page stores the two responses, and the statistics page of the meeting
    then shows exactly two rows for participant n: the text response
    "hello" graded "N/A", and the response Red graded "✅ Correta". *)
Theorem grading_of_red_answer lower tbl user inp w form meeting_id qt qm red n mt :
  faults w = [] →
  form_of tbl (db w) = Some form →
  questions_of (f_id form) (db w) = [qt; qm] →
  NoDup (q_id <$> questions (db w)) →
  NoDup (o_id <$> options (db w)) →
  question_type qt = "text" → correct_answer qt = None →
  question_type qm = "multiple_choice" →
  red ∈ options (db w) → o_question_id red = q_id qm → option_text red = "Red" →
  (∀ o, o ∈ options (db w) → o_question_id o = q_id qm → option_text o = "Red" → o = red) →
  o_id red ≠ 0 →
  correct_answer qm = Some (pretty (o_id red)) →
  linked_forms meeting_id (db w) = [form] →
  (∀ r, r ∈ responses (db w) → r_form_id r ≠ f_id form) →
  first_binding user (db w) = Bound n mt →
  text_input inp (q_id qt) = "hello" →
  st_radio (option_text <$> filter (λ o, o_question_id o = q_id qm) (options (db w)))
    (radio inp (q_id qm)) = Some "Red" →
  form_submit_button inp = true →
  (participant_form tbl user inp w).1 = Raise RerunException ∧
  ∀ w2,
    faults w2 = [] → db w2 = db (participant_form tbl user inp w).2 →
    (grade_responses lower meeting_id w2).1 =
      Ok [mkGraded (pretty n) (form_name form) (question_text qt) "hello" "N/A";
          mkGraded (pretty n) (form_name form) (question_text qm) "Red" "✅ Correta"].
Proof.
  intros Hf Hform Hqs Hndq Hndo Htt Htc Hmt Hred Hredq Hredt Huniq Hid Hmc
    Hlinked Hfresh Hbind Htext Hradio Hb.
  set (opts := filter (λ o, o_question_id o = q_id qm) (options (db w))) in *.
  assert (Hredo : red ∈ opts) by (by apply list_elem_of_filter).
  assert (Hqtin : qt ∈ questions (db w)).
  { assert (qt ∈ questions_of (f_id form) (db w)) as Hin by (rewrite Hqs; left).
    by apply list_elem_of_filter in Hin as [_ Hin]. }
  assert (Hqmin : qm ∈ questions (db w)).
  { assert (qm ∈ questions_of (f_id form) (db w)) as Hin by (rewrite Hqs; right; left).
    by apply list_elem_of_filter in Hin as [_ Hin]. }
  assert (Hne : q_id qt ≠ q_id qm).
  { pose proof (questions_of_NoDup (f_id form) (db w) Hndq) as Hnd.
    rewrite Hqs in Hnd. simpl in Hnd. apply NoDup_cons in Hnd as [Hnot _].
    intros Heq. apply Hnot. rewrite Heq. left. }
  assert (Hcol : (collect_responses inp (questions_of (f_id form) (db w)) [] w).1 =
            Ok [(q_id qt, PyStr "hello"); (q_id qm, PyInt (o_id red))]).
  { rewrite Hqs, <- Htext.
    apply (collect_quiz_answers inp qt qm opts red w); try done.
    - intros o Ho Ht. apply list_elem_of_filter in Ho as [Hoq Ho].
      apply Huniq; [done|done|by rewrite Ht].
    - by rewrite Hredt. }
  destruct (submission_stores_rows tbl user inp w form n mt
              [(q_id qt, PyStr "hello"); (q_id qm, PyInt (o_id red))])
    as (w1 & Hrun & D1 & U1 & F1); try done.
  { by rewrite Hqs. }
  { intros (r & Hr & _ & Hrf). by apply (Hfresh r). }
  { simpl. rewrite (bool_decide_false (o_id red = 0)) by done. reflexivity. }
  rewrite Hrun. cbn [fst snd]. split; [done|].
  intros w2 F2 D2. rewrite D1 in D2.
  assert (EQ : questions (db w2) = questions (db w)) by (by rewrite D2).
  assert (EO : options (db w2) = options (db w)) by (by rewrite D2).
  unfold grade_responses.
  destruct (get_forms_for_meeting_available meeting_id w2 F2) as (w3 & Hforms & F3 & D3 & _).
  rewrite bind_run, Hforms.
  assert (linked_forms meeting_id (db w2) = [form]) as ->.
  { rewrite <- Hlinked. unfold linked_forms. by rewrite D2. }
  cbn [fmap list_fmap].
  rewrite bind_run, select_responses_run, next_fails_no_faults by done.
  assert (filter (λ r, r_form_id r ∈ [f_id form]) (responses (db w3)) =
            [mkResponse (f_id form) (pretty n) (q_id qt) "hello";
             mkResponse (f_id form) (pretty n) (q_id qm) (pretty (o_id red))]) as ->.
  { rewrite D3, D2. simpl. rewrite filter_app.
    assert (Hnone : ∀ l : list Response,
              (∀ r, r ∈ l → r_form_id r ≠ f_id form) →
              filter (λ r, r_form_id r ∈ [f_id form]) l = []).
    { induction l as [|r l IH]; intros Hl; [done|].
      rewrite filter_cons_False.
      - apply IH. intros r' Hr'. apply Hl. by right.
      - intros Hin. apply list_elem_of_singleton in Hin. revert Hin. apply Hl. left. }
    rewrite (Hnone _ Hfresh).
    unfold response_rows. simpl.
    rewrite !filter_cons_True by (simpl; left). reflexivity. }
  set (w4 := issued (Select "responses") w3).
  assert (F4 : faults w4 = []) by (by apply issued_no_faults).
  cbn [grade_each].
  destruct (grade_text_without_correct lower [form]
              (mkResponse (f_id form) (pretty n) (q_id qt) "hello") qt w4)
    as (w5 & Hg1 & F5 & D5); [done| |done|done|].
  { change (db w4) with (db w3). rewrite D3, EQ.
    by apply (filter_key_unique q_id). }
  rewrite bind_run, Hg1.
  destruct (grade_mc_correct lower [form]
              (mkResponse (f_id form) (pretty n) (q_id qm) (pretty (o_id red))) qm red w5)
    as (w6 & Hg2 & F6 & D6); [done| |done|done|done| | |].
  { rewrite D5. change (db w4) with (db w3). rewrite D3, EQ.
    by apply (filter_key_unique q_id). }
  { rewrite D5. change (db w4) with (db w3). by rewrite D3, EO. }
  { rewrite D5. change (db w4) with (db w3). by rewrite D3, EO. }
  rewrite bind_run, bind_run, Hg2. unfold mret at 1, M_ret at 1.
  rewrite bind_run. unfold mret, M_ret. cbn [fst].
  cbn [r_participant_id r_form_id answer].
  rewrite !filter_cons_True by done. cbn [head]. by rewrite Hredt.
Qed.

Lemma grading_of_red_answer_witness :
  quiz_submitted.1 = Raise RerunException ∧
  ∀ w2,
    faults w2 = [] → db w2 = db quiz_submitted.2 →
    (grade_responses ascii_lower 1 w2).1 =
      Ok [mkGraded (pretty 2) "Quiz" "Say something" "hello" "N/A";
          mkGraded (pretty 2) "Quiz" "Pick a colour" "Red" "✅ Correta"].
Proof.
  apply (grading_of_red_answer ascii_lower "form_1_quiz" "u-ana" quiz_input
           (world_of quiz_db_unanswered []) (mkForm 1 "Quiz" "form_1_quiz" "t0") 1
           (mkQuestion 1 1 "Say something" "text" None)
           (mkQuestion 2 1 "Pick a colour" "multiple_choice" (Some "1"))
           (mkOption 1 2 "Red") 2 "meeting_2_m").
  - reflexivity.
  - reflexivity.
  - reflexivity.
  - apply (bool_decide_unpack _). vm_compute. reflexivity.
  - apply (bool_decide_unpack _). vm_compute. reflexivity.
  - reflexivity.
  - reflexivity.
  - reflexivity.
  - left.
  - reflexivity.
  - reflexivity.
  - intros o Ho _ Ht.
    apply elem_of_cons in Ho as [->|Ho]; [done|].
    apply elem_of_cons in Ho as [->|Ho]; [discriminate Ht|].
    by apply elem_of_nil in Ho.
  - discriminate.
  - reflexivity.
  - reflexivity.
  - intros r Hr. by apply elem_of_nil in Hr.
  - reflexivity.
  - reflexivity.
  - reflexivity.
  - reflexivity.
Defined.

(** The scenario run on the store of the examples: participant 2 stores
    the two responses, and the statistics page of the meeting grades them
    "N/A" and "✅ Correta". *)
Example grading_scenario :
  quiz_submitted.1 = Raise RerunException ∧
  responses (db quiz_submitted.2) =
    [mkResponse 1 "2" 1 "hello"; mkResponse 1 "2" 2 "1"] ∧
  quiz_graded =
    Ok [mkGraded "2" "Quiz" "Say something" "hello" "N/A";
        mkGraded "2" "Quiz" "Pick a colour" "Red" "✅ Correta"].
Proof. vm_compute. done. Qed.

(** A request of an identity that owns a slot, on one world (the lemma
    behind idempotence). *)
Lemma allocator_idempotent_run t u p w now rnd :
  pools (db w) !! t = Some p →
  (∃ s, s ∈ p ∧ user_id s = Some u) →
  ∃ n, holds p u n ∧
    (assign_or_get t u now rnd w).1 = (if next_fails w then Raise StopException else Ok n) ∧
    db (assign_or_get t u now rnd w).2 = db w.
Proof.
  intros Hp (s & Hs & Hu).
  rewrite (assign_or_get_run _ _ _ _ _ _ Hp). cbv zeta.
  destruct (filter (owns u) p) as [|s0 rest] eqn:Hown.
  { rewrite no_owner_filter in Hown. by destruct (Hown s Hs). }
  assert (s0 ∈ filter (owns u) p) as Hin by (rewrite Hown; left).
  apply list_elem_of_filter in Hin as [Ho Hin].
  exists (number s0). split; [by exists s0|].
  destruct (next_fails w); done.
Qed.

(** * Part III: further properties of the code *)

(** ** The allocator across requests *)

(** X1 — The number an identity was given stays its number: after a
    successful request from a well-formed pool, and whatever sequence of
    later requests of any identities, a request of the same identity
    returns the same number and leaves the store as it is; it stops only
    when its own lookup fails. *)
Theorem number_persists t u now rnd w p n w1 calls rs w2 now' rnd' :
  pools (db w) !! t = Some p → pool_ok p →
  assign_or_get t u now rnd w = (Ok n, w1) →
  run_allocations t calls w1 = (rs, w2) →
  (assign_or_get t u now' rnd' w2).1
    = (if next_fails w2 then Raise StopException else Ok n) ∧
  db (assign_or_get t u now' rnd' w2).2 = db w2.
Proof.
  intros Hp Hok Hfirst Hlater.
  destruct (assign_or_get_step _ _ _ _ _ _ _ _ Hp Hok Hfirst)
    as (p1 & Hp1 & Hok1 & _ & Hnew & _).
  destruct (run_allocations_inv _ _ _ _ _ _ Hp1 Hok1 Hlater)
    as (p2 & Hp2 & Hok2 & Hkeep & _).
  assert (Hn : holds p2 u n) by (apply Hkeep, Hnew; done).
  destruct (allocator_idempotent_run t u p2 w2 now' rnd' Hp2) as (n' & Hn' & Hr & Hd).
  { destruct Hn as (s & Hs & Hu & _). eauto. }
  rewrite (holds_one_number p2 u n n' Hok2 Hn Hn'). done.
Qed.

Lemma number_persists_witness :
  (assign_or_get "m" "ana" "t9" 0
     (run_allocations "m" [("bia", "t2", 0%nat); ("caio", "t3", 7%nat)]
        (assign_or_get "m" "ana" "t1" 4
           (world_of (pool_db "m" (fresh_slot <$> seqZ 1 3)) [])).2).2).1 = Ok 2.
Proof.
  refine (proj1 (number_persists "m" "ana" "t1" 4%nat
           (world_of (pool_db "m" (fresh_slot <$> seqZ 1 3)) [])
           (fresh_slot <$> seqZ 1 3) 2
           (assign_or_get "m" "ana" "t1" 4
              (world_of (pool_db "m" (fresh_slot <$> seqZ 1 3)) [])).2
           [("bia", "t2", 0%nat); ("caio", "t3", 7%nat)]
           (run_allocations "m" [("bia", "t2", 0%nat); ("caio", "t3", 7%nat)]
              (assign_or_get "m" "ana" "t1" 4
                 (world_of (pool_db "m" (fresh_slot <$> seqZ 1 3)) [])).2).1
           _ "t9" 0%nat _ _ _ _)).
  - reflexivity.
  - apply fresh_pool_ok.
  - vm_compute. reflexivity.
  - vm_compute. reflexivity.
Defined.

(** The write of a new binding changes the one row with the picked number. *)
Lemma written_insert now u n (p : list NumberSlot) i s :
  NoDup (number <$> p) → p !! i = Some s → number s = n →
  written now u n p = <[i := bind_slot now u s]> p.
Proof.
  revert i. induction p as [|s0 p IH]; intros i Hnd Hi Hn; [done|].
  rewrite fmap_cons in Hnd. apply NoDup_cons in Hnd as [Hfresh Hnd].
  change (written now u n (s0 :: p))
    with ((if decide (number s0 = n) then bind_slot now u s0 else s0)
          :: written now u n p).
  destruct i as [|i]; simpl in Hi.
  - injection Hi as ->. rewrite decide_True by done.
    rewrite written_absent by congruence. done.
  - rewrite decide_False.
    + simpl. f_equal. by apply IH.
    + intros E. apply Hfresh. rewrite E, <- Hn.
      apply list_elem_of_fmap_2. by eapply list_elem_of_lookup_2.
Qed.

(** X2 — What a first allocation writes: for an identity without a slot in
    a well-formed pool, a successful request returns the number of a row
    that was unassigned, and the store afterwards differs in exactly that
    row, now assigned to the identity with the time of the request; every
    other row, pool and table is as before. *)
Theorem allocation_writes_one_slot t u now rnd w p n w' :
  pools (db w) !! t = Some p → pool_ok p →
  (∀ s, s ∈ p → user_id s ≠ Some u) →
  assign_or_get t u now rnd w = (Ok n, w') →
  ∃ i s,
    p !! i = Some s ∧ number s = n ∧ assigned s = false ∧ user_id s = None ∧
    db w' = set_pools (<[t := <[i := mkSlot n true (Some now) (Some u)]> p]> (pools (db w)))
              (db w).
Proof.
  intros Hp Hok Hnone. rewrite (assign_or_get_run _ _ _ _ _ _ Hp). cbv zeta.
  apply no_owner_filter in Hnone. rewrite Hnone.
  destruct (next_fails w); [discriminate|].
  destruct (next_fails _); [discriminate|].
  destruct (filter unassigned p) as [|s1 rest1] eqn:Hfree; [discriminate|].
  destruct (next_fails _); [discriminate|].
  intros [= <- <-].
  destruct (picked_free rnd p) as (s0 & H0 & Hf0 & Hn0); [by rewrite Hfree|].
  apply list_elem_of_lookup in H0 as [i Hi].
  exists i, s0. split_and!; [done|done|done| |].
  - apply (ok_bound _ Hok); [by eapply list_elem_of_lookup_2 | done].
  - simpl. rewrite (written_insert now u _ p i s0 (ok_numbers _ Hok) Hi Hn0).
    unfold bind_slot. by rewrite Hn0.
Qed.

Lemma allocation_writes_one_slot_witness :
  ∃ i s,
    (fresh_slot <$> seqZ 1 3) !! i = Some s ∧ number s = 2 ∧ assigned s = false ∧
    user_id s = None ∧
    db (assign_or_get "m" "ana" "t1" 4
          (world_of (pool_db "m" (fresh_slot <$> seqZ 1 3)) [])).2 =
      set_pools (<["m" := <[i := mkSlot 2 true (Some "t1") (Some "ana")]>
                             (fresh_slot <$> seqZ 1 3)]>
                   (pools (db (world_of (pool_db "m" (fresh_slot <$> seqZ 1 3)) []))))
        (db (world_of (pool_db "m" (fresh_slot <$> seqZ 1 3)) [])).
Proof.
  apply (allocation_writes_one_slot "m" "ana" "t1" 4%nat
           (world_of (pool_db "m" (fresh_slot <$> seqZ 1 3)) [])
           (fresh_slot <$> seqZ 1 3) 2).
  - reflexivity.
  - apply fresh_pool_ok.
  - intros s (j & -> & _)%list_elem_of_fmap. discriminate.
  - vm_compute. reflexivity.
Defined.

(** ** Interleaved requests *)

Lemma allocation_read_run t u rnd w p :
  pools (db w) !! t = Some p →
  allocation_read t u rnd w =
    let w1 := issued (Select t) w in
    if next_fails w then (Raise StopException, shown (AllocationFailed APIError) w1)
    else match filter (owns u) p with
    | s :: _ => (Ok (Owned (number s)), w1)
    | [] =>
        let w2 := issued (Select t) w1 in
        if next_fails w1 then (Raise StopException, shown (AllocationFailed APIError) w2)
        else match filter unassigned p with
        | [] => (Raise StopException, shown PoolExhausted w2)
        | _ :: _ => (Ok (Drawn (picked rnd p)), w2)
        end
    end.
Proof.
  intros Hp. unfold allocation_read. unfold try_except.
  rewrite bind_run, select_slots_run. cbv zeta.
  destruct (next_fails w); [reflexivity|]. rewrite Hp.
  change (filter (λ s, user_id s = Some u) p) with (filter (owns u) p).
  destruct (filter (owns u) p) as [|s0 rest]; [|reflexivity].
  rewrite bind_run, select_slots_run.
  destruct (next_fails _); [reflexivity|]. simpl. rewrite Hp.
  change (filter (λ s, assigned s = false) p) with (filter unassigned p).
  unfold picked. destruct (filter unassigned p) as [|s1 rest1]; reflexivity.
Qed.

Lemma allocation_write_drawn_run t u now n w p :
  pools (db w) !! t = Some p →
  allocation_write t u now (Drawn n) w =
    let w1 := issued (Update t) w in
    if next_fails w then (Raise StopException, shown (AllocationFailed APIError) w1)
    else (Ok n, with_db (set_pools (<[t := written now u n p]> (pools (db w))) (db w)) w1).
Proof.
  intros Hp. unfold allocation_write, update_slots, the_pool. unfold_script.
  rewrite execute_run. cbv zeta.
  destruct (next_fails w); [reflexivity|]. simpl. by rewrite Hp.
Qed.

(** The block is its reads followed by its write. *)
Lemma assign_or_get_two_steps t u now rnd w p :
  pools (db w) !! t = Some p →
  assign_or_get t u now rnd w = (allocation_read t u rnd ≫= allocation_write t u now) w.
Proof.
  intros Hp. rewrite (assign_or_get_run _ _ _ _ _ _ Hp), bind_run,
    (allocation_read_run _ _ _ _ _ Hp). cbv zeta.
  destruct (next_fails w); [reflexivity|].
  destruct (filter (owns u) p); [|reflexivity].
  destruct (next_fails _); [reflexivity|].
  destruct (filter unassigned p); [reflexivity|].
  rewrite (allocation_write_drawn_run t u now _ _ p) by done. reflexivity.
Qed.

Lemma written_written now1 u1 now2 u2 n p :
  written now2 u2 n (written now1 u1 n p) = written now2 u2 n p.
Proof.
  unfold written. rewrite <- list_fmap_compose. apply list_fmap_ext.
  intros i s _. simpl. destruct (decide (number s = n)); simpl.
  - by rewrite decide_True.
  - by rewrite decide_False.
Qed.

(** X3 — The lost update.  The allocation block is its two selects
    followed by its update, with nothing that ties them together.  When
    the requests of two sessions interleave so that both read before
    either writes, two distinct new identities whose draws fall on the
    same free number are both given that number; the slot ends up bound
    to the second writer only, the first identity owns no slot at all,
    and a single slot was used up. *)
Theorem interleaved_requests_share_a_number t a b now_a now_b rnd_a rnd_b w p :
  pools (db w) !! t = Some p → pool_ok p →
  faults w = [] →
  a ≠ b →
  (∀ s, s ∈ p → user_id s ≠ Some a) →
  (∀ s, s ∈ p → user_id s ≠ Some b) →
  filter unassigned p ≠ [] →
  picked rnd_a p = picked rnd_b p →
  (∀ w0, pools (db w0) !! t = Some p →
     assign_or_get t a now_a rnd_a w0
       = (allocation_read t a rnd_a ≫= allocation_write t a now_a) w0) ∧
  ∃ n w' p',
    interleaved_allocations t a b now_a now_b rnd_a rnd_b w = (Ok (n, n), w') ∧
    pools (db w') !! t = Some p' ∧
    holds p' b n ∧
    (∀ s, s ∈ p' → user_id s ≠ Some a) ∧
    (length (filter unassigned p') + 1 = length (filter unassigned p))%nat.
Proof.
  intros Hp Hok Hf Hab Ha Hb Hfree Hsame.
  split; [intros w0 Hp0; by apply (assign_or_get_two_steps _ _ _ _ _ p)|].
  apply no_owner_filter in Ha as Ha'. apply no_owner_filter in Hb as Hb'.
  destruct (picked_free rnd_a p Hfree) as (s0 & H0 & Hf0 & Hn0).
  unfold interleaved_allocations.
  rewrite bind_run, (allocation_read_run _ _ _ _ _ Hp). cbv zeta.
  rewrite Ha'. rewrite !next_fails_no_faults by (by repeat apply issued_no_faults).
  destruct (filter unassigned p) as [|s1 rest1] eqn:Efree; [done|].
  set (w2 := issued (Select t) (issued (Select t) w)).
  assert (F2 : faults w2 = []) by (by repeat apply issued_no_faults).
  rewrite bind_run, (allocation_read_run _ _ _ _ p) by done. cbv zeta.
  rewrite Hb'. rewrite !next_fails_no_faults by (by repeat apply issued_no_faults).
  rewrite Efree.
  set (w4 := issued (Select t) (issued (Select t) w2)).
  assert (F4 : faults w4 = []) by (by repeat apply issued_no_faults).
  rewrite bind_run, (allocation_write_drawn_run _ _ _ _ _ p) by done. cbv zeta.
  rewrite next_fails_no_faults by done.
  set (w5 := with_db _ _).
  assert (F5 : faults w5 = []) by (by apply issued_no_faults).
  rewrite bind_run, (allocation_write_drawn_run _ _ _ _ _ (written now_a a (picked rnd_a p) p))
    by (simpl; by rewrite lookup_insert_eq).
  cbv zeta. rewrite next_fails_no_faults by done.
  rewrite <- Hsame, written_written.
  eexists (picked rnd_a p), _, (written now_b b (picked rnd_a p) p).
  split_and!.
  - reflexivity.
  - simpl. by rewrite lookup_insert_eq.
  - by eapply written_holds.
  - intros s' (s & Hs & ->)%elem_of_written. case_decide; simpl.
    + intros [= E]. by apply Hab.
    + by apply Ha.
  - rewrite <- Efree. eapply written_free; eauto. apply Hok.
Qed.

Lemma interleaved_requests_share_a_number_witness :
  ∃ n w' p',
    interleaved_allocations "m" "ana" "bia" "t1" "t2" 4 4
      (world_of (pool_db "m" (fresh_slot <$> seqZ 1 3)) []) = (Ok (n, n), w') ∧
    pools (db w') !! "m" = Some p' ∧
    holds p' "bia" n ∧
    (∀ s, s ∈ p' → user_id s ≠ Some "ana") ∧
    (length (filter unassigned p') + 1
     = length (filter unassigned (fresh_slot <$> seqZ 1 3)))%nat.
Proof.
  apply (interleaved_requests_share_a_number "m" "ana" "bia" "t1" "t2" 4%nat 4%nat
           (world_of (pool_db "m" (fresh_slot <$> seqZ 1 3)) [])
           (fresh_slot <$> seqZ 1 3)).
  - reflexivity.
  - apply fresh_pool_ok.
  - reflexivity.
  - discriminate.
  - intros s (j & -> & _)%list_elem_of_fmap. discriminate.
  - intros s (j & -> & _)%list_elem_of_fmap. discriminate.
  - vm_compute. discriminate.
  - reflexivity.
Defined.

(** ** Pool creation: success, name clashes, frame *)






(** Pool creation on a store that answers and holds a pool of the name. *)
Lemma create_meeting_table_over_existing t name now N sel w p :
  faults w = [] → pools (db w) !! t = Some p →
  ∃ w', create_meeting_table t name now N sel w = (Ok false, w') ∧
    pools (db w') !! t = None ∧
    (∀ m, m ∈ meetings_metadata (db w') → m_table_name m ≠ t) ∧
    ui w' = ui w ++ [CreationFailed APIError].
Proof.
  intros Hf Hp. unfold create_meeting_table. rewrite create_run.
  unfold create_meeting_table_try.
  rewrite bind_run, insert_meeting_run, next_fails_no_faults by done.
  set (w1 := with_db _ _).
  assert (F1 : faults w1 = []) by (by apply issued_no_faults).
  rewrite bind_run. cbn [index0]. unfold mret at 1, M_ret at 1. cbv zeta. cbn [m_id].
  rewrite bind_run, execute_sql_create_run, next_fails_no_faults by done.
  rewrite decide_True by (right; simpl; rewrite Hp; by eexists).
  cbn [is_Exception]. rewrite create_except_run. cbv zeta.
  set (w2 := issued (Rpc (CreateTable t)) w1).
  assert (F2 : faults w2 = []) by (by apply issued_no_faults).
  rewrite !next_fails_no_faults by (simpl; by rewrite Hf).
  eexists. split_and!; [reflexivity| | |done].
  - simpl. by rewrite lookup_delete_eq.
  - simpl. intros m Hm. apply list_elem_of_filter in Hm as [Hne _]. exact Hne.
Qed.

(** X5 — Creating over an existing table name destroys what was there:
    with the store available, when a pool of that name exists the CREATE
    statement is refused, and the rollback deletes every metadata record
    of that table name and drops the pool, those of the earlier meeting. *)
Theorem creation_over_existing_pool t name now N sel w p :
  faults w = [] → pools (db w) !! t = Some p →
  ∃ w', create_meeting_table t name now N sel w = (Ok false, w') ∧
    pools (db w') !! t = None ∧
    (∀ m, m ∈ meetings_metadata (db w') → m_table_name m ≠ t) ∧
    ui w' = ui w ++ [CreationFailed APIError].
Proof. apply create_meeting_table_over_existing. Qed.

Lemma creation_over_existing_pool_witness :
  ∃ w', create_meeting_table "meeting_1_a" "B" "t5" 10 None (world_of running_meeting_db [])
          = (Ok false, w') ∧
    pools (db w') !! "meeting_1_a" = None ∧
    (∀ m, m ∈ meetings_metadata (db w') → m_table_name m ≠ "meeting_1_a") ∧
    ui w' = ui (world_of running_meeting_db []) ++ [CreationFailed APIError].
Proof.
  apply (creation_over_existing_pool "meeting_1_a" "B" "t5" 10 None
           (world_of running_meeting_db [])
           [mkSlot 1 true (Some "t1") (Some "u-ana"); mkSlot 2 false None None]).
  - reflexivity.
  - reflexivity.
Defined.
















(** X7 — A submission that breaks off.  The rows are single inserts
    outside any handler: when the store fails the insert after k rows,
    the exception leaves the page, the k rows stay stored, and no
    message, neither of success nor of failure, is rendered.  If at
    least one row was stored, the participant cannot complete the form
    later: every visit with the store available is stopped as already
    submitted. *)
Theorem partial_submission tbl user inp w fid qs pid mt w1 dict w2 k rest :
  participant_form_checks tbl user w = (Ok (fid, qs, pid, mt), w1) →
  collect_responses inp qs [] w1 = (Ok dict, w2) →
  form_submit_button inp = true →
  forallb truthy (dict.*2) = true →
  faults w2 = replicate k false ++ true :: rest →
  (k < length dict)%nat →
  (participant_form tbl user inp w).1 = Raise APIError ∧
  db (participant_form tbl user inp w).2 =
    set_responses (responses (db w) ++ take k (response_rows fid pid dict)) (db w) ∧
  ui (participant_form tbl user inp w).2 = ui w2 ∧
  faults (participant_form tbl user inp w).2 = rest ∧
  ((0 < k)%nat →
   ∀ inp' w3,
     faults w3 = [] → db w3 = db (participant_form tbl user inp w).2 →
     (participant_form tbl user inp' w3).1 = Raise StopException ∧
     ui (participant_form tbl user inp' w3).2 = ui w3 ++ [AlreadySubmitted] ∧
     db (participant_form tbl user inp' w3).2 = db w3).
Proof.
  intros Hc Hcol Hb Hall Hf Hk.
  rewrite participant_form_run, Hc, Hcol.
  apply participant_form_checks_ok in Hc
    as (form & n & Hform & -> & -> & Hne & Hbind & -> & D1 & _).
  pose proof (reads_collect_responses inp (questions_of (f_id form) (db w)) [] w1) as [D2 _].
  rewrite Hcol in D2. simpl in D2.
  unfold submit_responses. rewrite Hb, Hall, bind_run.
  destruct (for_each_insert_response_faults
              (λ item : Z * PyVal, mkResponse (f_id form) (pretty n) item.1 (py_str item.2))
              dict w2 k (true :: rest) Hf ltac:(by eexists))
    as (r3 & w3 & Hrun3 & U3 & D3 & _ & Hfail & F3).
  rewrite Hrun3, (Hfail Hk). simpl.
  assert (Hdb : db w3 = set_responses
            (responses (db w) ++ take k (response_rows (f_id form) (pretty n) dict)) (db w)).
  { rewrite D3, D2, D1. unfold response_rows. by rewrite fmap_take. }
  split_and!; [done|exact Hdb|exact U3|exact (F3 Hk)|].
  intros Hpos inp' w4 F4 D4. rewrite Hdb in D4.
  apply (refused_after_rows tbl user inp' w4 (db w) form n mt); try done;
    try (by rewrite D4).
  rewrite D4. apply prior_response_rows; [|done].
  intros ->. simpl in Hk. lia.
Qed.

Lemma partial_submission_witness :
  (participant_form "form_1_quiz" "u-ana" quiz_input breaking_store).1 = Raise APIError ∧
  db (participant_form "form_1_quiz" "u-ana" quiz_input breaking_store).2 =
    set_responses
      (responses (db breaking_store) ++
       take 1 (response_rows 1 "2" [(1, PyStr "hello"); (2, PyInt 1)])) (db breaking_store) ∧
  ui (participant_form "form_1_quiz" "u-ana" quiz_input breaking_store).2 = [] ∧
  faults (participant_form "form_1_quiz" "u-ana" quiz_input breaking_store).2 = [] ∧
  ((0 < 1)%nat →
   ∀ inp' w3,
     faults w3 = [] → db w3 = db (participant_form "form_1_quiz" "u-ana" quiz_input breaking_store).2 →
     (participant_form "form_1_quiz" "u-ana" inp' w3).1 = Raise StopException ∧
     ui (participant_form "form_1_quiz" "u-ana" inp' w3).2 = ui w3 ++ [AlreadySubmitted] ∧
     db (participant_form "form_1_quiz" "u-ana" inp' w3).2 = db w3).
Proof.
  apply (partial_submission "form_1_quiz" "u-ana" quiz_input breaking_store 1
           (questions_of 1 quiz_db_unanswered) "2" "meeting_2_m"
           (participant_form_checks "form_1_quiz" "u-ana" breaking_store).2
           [(1, PyStr "hello"); (2, PyInt 1)]
           (collect_responses quiz_input (questions_of 1 quiz_db_unanswered) []
              (participant_form_checks "form_1_quiz" "u-ana" breaking_store).2).2
           1 []).
  - vm_compute. reflexivity.
  - vm_compute. reflexivity.
  - reflexivity.
  - reflexivity.
  - vm_compute. reflexivity.
  - simpl. lia.
Defined.

(** ** The submit branch of the page of meetings *)




(** X9 — The guard relies on the probe.  When the store fails the probe
    and answers the requests after it, the page takes an existing pool of
    that name for absent and calls the creation, whose CREATE statement is
    refused and whose rollback then deletes the metadata records of that
    name and drops the existing pool with its assignments. *)
Theorem failed_probe_destroys_meeting lower name time now N sel w p :
  faults w = [true] → name ≠ "" →
  pools (db w) !! meeting_table_name lower time name = Some p →
  ∃ w', create_meeting_submit lower name time now N sel w = (Ok tt, w') ∧
    pools (db w') !! meeting_table_name lower time name = None ∧
    (∀ m, m ∈ meetings_metadata (db w') → m_table_name m ≠ meeting_table_name lower time name) ∧
    ui w' = ui w ++ [CreationFailed APIError; MeetingNotCreated].
Proof.
  intros Hf Hname Hp. unfold create_meeting_submit.
  rewrite bool_decide_true by done. cbv zeta.
  rewrite bind_run, check_table_exists_run.
  assert (next_fails w = true) as -> by (unfold next_fails; by rewrite Hf).
  rewrite bind_run.
  set (w1 := issued _ w).
  destruct (create_meeting_table_over_existing (meeting_table_name lower time name) name now N sel
              w1 p) as (w2 & Hrun & P2 & M2 & U2).
  { unfold w1. simpl. by rewrite Hf. }
  { done. }
  rewrite Hrun. eexists. split_and!; [reflexivity|exact P2|exact M2|].
  simpl. rewrite U2. simpl. by rewrite <- app_assoc.
Qed.

Lemma failed_probe_destroys_meeting_witness :
  ∃ w', create_meeting_submit ascii_lower "Sprint Review" 17 "t5" 10 None (mkWorld sprint_db [true] [] [])
          = (Ok tt, w') ∧
    pools (db w') !! meeting_table_name ascii_lower 17 "Sprint Review" = None ∧
    (∀ m, m ∈ meetings_metadata (db w') →
          m_table_name m ≠ meeting_table_name ascii_lower 17 "Sprint Review") ∧
    ui w' = ui (mkWorld sprint_db [true] [] []) ++ [CreationFailed APIError; MeetingNotCreated].
Proof.
  apply (failed_probe_destroys_meeting ascii_lower "Sprint Review" 17 "t5" 10 None
           (mkWorld sprint_db [true] [] [])
           [mkSlot 1 true (Some "t1") (Some "u-ana"); mkSlot 2 false None None]).
  - reflexivity.
  - discriminate.
  - vm_compute. reflexivity.
Defined.

(** ** The form that authors a form *)

Lemma no_request_ret {A} (a : A) : no_request (mret a : M A).
Proof. intros w. done. Qed.

Lemma no_request_raise {A} e : no_request (raise e : M A).
Proof. intros w. done. Qed.

Lemma no_request_render m : no_request (render m).
Proof. intros w. done. Qed.

Lemma no_request_bind {A B} (m : M A) (k : A → M B) :
  no_request m → (∀ a, no_request (k a)) → no_request (m ≫= k).
Proof.
  intros Hm Hk w. rewrite bind_run. specialize (Hm w).
  destruct (m w) as [[a|e] w1]; simpl in *; [|exact Hm].
  destruct (Hk a w1) as (D & T & F). destruct Hm as (D1 & T1 & F1).
  split_and!; congruence.
Qed.

Ltac no_request_step :=
  first
    [ apply no_request_bind; [|intros ?]
    | apply no_request_ret | apply no_request_raise | apply no_request_render ].

(** What the handlers of the submit buttons do: they add to the draft or
    leave it, and the only way they can fail is an index of the session
    that names no question. *)
Lemma add_question_run inp s w :
  ∃ s1 w1, add_question inp s w = (Ok s1, w1) ∧
    db w1 = db w ∧ trace w1 = trace w ∧
    (ss_questions s ≠ [] → ss_questions s1 ≠ []) ∧
    (a_pressed inp ≠ Some AddQuestion → s1 = s ∧ w1 = w).
Proof.
  unfold add_question.
  destruct (decide (a_pressed inp = Some AddQuestion)) as [Hp|Hp].
  - destruct (bool_decide (a_question_text inp ≠ "")).
    + eexists _, _. split_and!; [reflexivity|done|done| |done].
      intros _. destruct (decide (a_question_type inp = "Múltipla Escolha"));
        simpl; by destruct (ss_questions s).
    + eexists _, _. split_and!; [reflexivity|done|done|done|done].
  - eexists _, _. split_and!; [reflexivity|done|done|done|done].
Qed.

Lemma add_option_run inp s w :
  ∃ s1 w1, add_option inp s w = (Ok s1, w1) ∧
    db w1 = db w ∧ trace w1 = trace w ∧
    ss_questions s1 = ss_questions s ∧
    (a_pressed inp ≠ Some AddOption → s1 = s ∧ w1 = w).
Proof.
  unfold add_option.
  destruct (decide (a_pressed inp = Some AddOption)) as [Hp|Hp].
  - destruct (bool_decide (a_option_text inp ≠ "")).
    + eexists _, _. split_and!; [reflexivity|done|done|done|done].
    + eexists _, _. split_and!; [reflexivity|done|done|done|done].
  - eexists _, _. split_and!; [reflexivity|done|done|done|done].
Qed.

Lemma update_question_run i f qs w :
  update_question i f qs w = (Raise IndexError, w) ∨
  ∃ qs', update_question i f qs w = (Ok qs', w) ∧ (qs ≠ [] → qs' ≠ []).
Proof.
  unfold update_question. destruct (qs !! i) as [q|]; [right|by left].
  eexists. split; [reflexivity|]. intros Hne Hnil. apply Hne.
  apply (f_equal length) in Hnil. rewrite length_insert in Hnil. by destruct qs.
Qed.

Lemma finish_options_run inp idx s w :
  ∃ r w1, finish_options inp idx s w = (r, w1) ∧
    db w1 = db w ∧ trace w1 = trace w ∧
    match r with
    | Ok s1 => ss_questions s ≠ [] → ss_questions s1 ≠ []
    | Raise e => e = IndexError
    end ∧
    (a_pressed inp ≠ Some FinishOptions → r = Ok s ∧ w1 = w).
Proof.
  unfold finish_options.
  destruct (bool_decide (a_pressed inp = Some FinishOptions)) eqn:Hp.
  2:{ rewrite andb_false_r. eexists _, _. split_and!; [reflexivity|done|done|simpl; auto|done]. }
  apply bool_decide_eq_true in Hp.
  destruct (bool_decide (2 ≤ length (ss_current_options s))%nat).
  2:{ eexists _, _. split_and!; [reflexivity|done|done|simpl; auto|done]. }
  cbn [andb]. rewrite bind_run.
  destruct (update_question_run idx
              (λ q, mkDraft (dq_type q) (dq_text q) (ss_current_options s) (dq_correct q))
              (ss_questions s) w) as [->|(qs1 & -> & K1)].
  { eexists _, _. split_and!; [reflexivity|done|done|simpl; auto|by intros []]. }
  rewrite bind_run.
  destruct (decide (a_correct_option inp ≠ "Nenhuma")).
  - destruct (update_question_run idx
                (λ q, mkDraft (dq_type q) (dq_text q) (dq_options q)
                        (Some (a_correct_option inp)))
                qs1 w) as [->|(qs2 & -> & K2)].
    { eexists _, _. split_and!; [reflexivity|done|done|simpl; auto|by intros []]. }
    eexists _, _. split_and!; [reflexivity|done|done| |by intros []].
    simpl. auto.
  - eexists _, _. split_and!; [reflexivity|done|done| |by intros []].
    simpl. auto.
Qed.

Lemma options_form_run inp s w :
  ∃ r w1, options_form inp s w = (r, w1) ∧
    db w1 = db w ∧ trace w1 = trace w ∧
    match r with
    | Ok s1 => ss_questions s ≠ [] → ss_questions s1 ≠ []
    | Raise e => e = IndexError
    end ∧
    (a_pressed inp = Some CreateForm → r = Ok s ∧ w1 = w).
Proof.
  unfold options_form.
  destruct (ss_show_options_form s);
    [|eexists _, _; split_and!; [reflexivity|done|done|simpl; auto|done]].
  destruct (ss_current_question_index s) as [idx|];
    [|eexists _, _; split_and!; [reflexivity|done|done|simpl; auto|done]].
  rewrite bind_run.
  destruct (add_option_run inp s w) as (s1 & w1 & -> & D1 & T1 & Q1 & P1).
  destruct (finish_options_run inp idx s1 w1) as (r & w2 & -> & D2 & T2 & Hr & P2).
  exists r, w2. split_and!; [done|congruence|congruence| |].
  - destruct r; [by rewrite <- Q1|done].
  - intros Hp. destruct P1 as [-> ->]; [rewrite Hp; discriminate|].
    apply P2. rewrite Hp. discriminate.
Qed.

(** X10 — No form is ever stored by the page that authors forms.  The
    whole authoring form, the button that creates the form included,
    issues no request and leaves the store as it is, whatever the session
    holds and whatever is pressed.  As soon as a question is drafted the
    page reaches the delete buttons, which Streamlit refuses inside a
    form, and the script breaks off there (or earlier, on an index of the
    session that names no question); with nothing drafted the button
    that creates the form answers with the warning that a name and a
    question are needed. *)
Theorem forms_cannot_be_authored lower inp time now s w :
  db (authoring_form lower inp time now s w).2 = db w ∧
  trace (authoring_form lower inp time now s w).2 = trace w ∧
  (ss_questions s ≠ [] →
   (authoring_form lower inp time now s w).1 = Raise StreamlitAPIException ∨
   (authoring_form lower inp time now s w).1 = Raise IndexError) ∧
  (ss_questions s = [] → a_pressed inp = Some CreateForm →
   authoring_form lower inp time now s w =
     (Ok tt, shown (Warning "Insira um nome para o formulário e pelo menos uma pergunta.")
               w)).
Proof.
  unfold authoring_form. rewrite bind_run.
  destruct (add_question_run inp s w) as (s1 & w1 & -> & D1 & T1 & K1 & P1).
  rewrite bind_run.
  destruct (options_form_run inp s1 w1) as (r & w2 & -> & D2 & T2 & Hr & P2).
  destruct r as [s2|e]; [|subst e].
  2:{ split_and!; [simpl; congruence|simpl; congruence|by right|].
      intros _ Hp. destruct (P2 Hp) as [? _]. discriminate. }
  rewrite bind_run.
  destruct (ss_questions s2) as [|q qs] eqn:Hqs.
  - unfold mret, M_ret. cbn beta iota. rewrite Hqs.
    assert (Hcreate : ∀ name tbl, create_form name tbl now [] w2 =
              (Ok tt, shown (Warning "Insira um nome para o formulário e pelo menos uma pergunta.") w2)).
    { intros. unfold create_form. by rewrite andb_false_r. }
    split_and!.
    + case_decide; [rewrite Hcreate|]; simpl; congruence.
    + case_decide; [rewrite Hcreate|]; simpl; congruence.
    + intros Hne. exfalso. exact (Hr (K1 Hne) eq_refl).
    + intros _ Hp. rewrite decide_True by done. rewrite Hcreate.
      destruct (P2 Hp) as [_ ->].
      destruct P1 as [_ ->]; [rewrite Hp; discriminate|]. done.
  - cbn [delete_buttons]. unfold st_button_in_form. simpl.
    split_and!; [congruence|congruence|by left|].
    intros Hnil Hp. exfalso.
    destruct (P2 Hp) as [[= ->] _].
    destruct P1 as [-> _]; [rewrite Hp; discriminate|]. congruence.
Qed.

Lemma forms_cannot_be_authored_witness :
  db (authoring_form ascii_lower press_create 17 "t0" quiz_session (world_of empty_db [])).2
    = db (world_of empty_db []) ∧
  trace (authoring_form ascii_lower press_create 17 "t0" quiz_session
           (world_of empty_db [])).2 = trace (world_of empty_db []) ∧
  ((authoring_form ascii_lower press_create 17 "t0" quiz_session (world_of empty_db [])).1
     = Raise StreamlitAPIException ∨
   (authoring_form ascii_lower press_create 17 "t0" quiz_session (world_of empty_db [])).1
     = Raise IndexError).
Proof.
  destruct (forms_cannot_be_authored ascii_lower press_create 17 "t0" quiz_session
              (world_of empty_db [])) as (H1 & H2 & H3 & _).
  split_and!; [exact H1|exact H2|].
  apply H3. discriminate.
Defined.

(** ** Participant mode for meetings *)

Lemma select_meetings_run (P : Meeting → Prop) `{∀ m, Decision (P m)} w :
  select_meetings P w =
    if next_fails w then (Raise APIError, issued (Select "meetings_metadata") w)
    else (Ok (filter P (meetings_metadata (db w))), issued (Select "meetings_metadata") w).
Proof.
  unfold select_meetings. unfold_script. rewrite execute_run.
  destruct (next_fails w); reflexivity.
Qed.



(** The allocation block when the store answers and the pool can serve
    the identity. *)
Lemma assign_or_get_available t u now rnd w p :
  faults w = [] → pools (db w) !! t = Some p →
  filter (owns u) p ≠ [] ∨ filter unassigned p ≠ [] →
  ∃ n w', assign_or_get t u now rnd w = (Ok n, w') ∧
    faults w' = [] ∧ ui w' = ui w ∧ ∃ pls, db w' = set_pools pls (db w).
Proof.
  intros Hf Hp Hserve. rewrite (assign_or_get_run _ _ _ _ _ _ Hp). cbv zeta.
  rewrite next_fails_no_faults by done.
  destruct (filter (owns u) p) as [|s rest].
  - destruct Hserve as [?|Hfree]; [done|].
    rewrite next_fails_no_faults by (by apply issued_no_faults).
    destruct (filter unassigned p) as [|s1 rest1]; [done|].
    rewrite next_fails_no_faults by (simpl; by rewrite Hf).
    eexists _, _. split_and!; [reflexivity|simpl; by rewrite Hf|done|].
    eexists. reflexivity.
  - eexists _, _. split_and!; [reflexivity|simpl; by rewrite Hf|done|].
    exists (pools (db w)). simpl. by destruct (db w).
Qed.

(** X12 — The page of a participant when the store answers.  For a table
    that has a pool and a metadata record, and a pool that can serve the
    identity (it owns a slot, or a slot is free), the page shows a number
    that the identity holds in the pool afterwards, the persistent link
    carrying the identity, and one line per form linked to the meeting, in
    the order of the catalog of forms; a form is marked as answered
    exactly when a response stored under that number, as participant id,
    names the form.  No response is written. *)
Theorem participant_page_available t u now rnd w p m :
  faults w = [] → pools (db w) !! t = Some p → pool_ok p →
  head (filter (λ m, m_table_name m = t) (meetings_metadata (db w))) = Some m →
  filter (owns u) p ≠ [] ∨ filter unassigned p ≠ [] →
  ∃ n entries w',
    participant_page t u now rnd w =
      (Ok (n, generate_participant_link t (Some u) "participant", entries), w') ∧
    (∃ p', pools (db w') !! t = Some p' ∧ pool_ok p' ∧ holds p' u n) ∧
    responses (db w') = responses (db w) ∧
    Forall2 (λ f e,
        entry_name e = form_name f ∧
        entry_link e = generate_participant_link (f_table_name f) (Some u) "participant_form" ∧
        (entry_status e = "✅ Respondido" ↔ prior_response (pretty n) (f_id f) (db w)) ∧
        (entry_status e = "⏳ Pendente" ↔ ¬ prior_response (pretty n) (f_id f) (db w)))
      (linked_forms (m_id m) (db w)) entries.
Proof.
  intros Hf Hp Hok Hm Hserve. unfold participant_page.
  rewrite bind_run, check_table_exists_run, next_fails_no_faults by done.
  rewrite bool_decide_true by (right; rewrite Hp; by eexists).
  cbn [negb]. rewrite bind_run. unfold mret at 1, M_ret at 1.
  set (w1 := issued (Select t) w).
  assert (F1 : faults w1 = []) by (by apply issued_no_faults).
  rewrite bind_run. unfold try_except at 1.
  rewrite bind_run, select_meetings_run, next_fails_no_faults by done.
  change (db w1) with (db w).
  destruct (filter (λ m, m_table_name m = t) (meetings_metadata (db w)))
    as [|m0 ms]; [done|]. injection Hm as ->.
  rewrite bind_run. cbn [index0]. unfold mret at 1, M_ret at 1.
  unfold mret at 1, M_ret at 1. cbv zeta.
  set (w2 := issued (Select "meetings_metadata") w1).
  assert (F2 : faults w2 = []) by (by apply issued_no_faults).
  destruct (assign_or_get_available t u now rnd w2 p F2 Hp Hserve)
    as (n & w3 & Hrun & F3 & U3 & pls & D3).
  destruct (assign_or_get_step t u now rnd w2 p (Ok n) w3 Hp Hok Hrun)
    as (p' & Hp' & Hok' & _ & Hholds & _).
  unfold try_except at 1. rewrite bind_run, Hrun.
  destruct (get_forms_for_meeting_available (m_id m) w3 F3) as (w4 & Hforms & F4 & D4 & U4).
  rewrite bind_run, Hforms.
  assert (linked_forms (m_id m) (db w3) = linked_forms (m_id m) (db w)) as ->
    by (unfold linked_forms; by rewrite D3).
  rewrite bind_run, get_answered_forms_run, next_fails_no_faults by done.
  set (answered := list_to_set _).
  set (w5 := issued (Select "responses") w4).
  exists n, (form_entry u answered <$> linked_forms (m_id m) (db w)).
  assert (Hresp : responses (db w4) = responses (db w)) by (rewrite D4, D3; done).
  destruct (linked_forms (m_id m) (db w)) as [|f0 fs] eqn:Hlinked.
  - eexists. split_and!; [reflexivity| | |constructor].
    + exists p'. simpl. rewrite D4. split_and!; [done|done|by apply Hholds].
    + simpl. exact Hresp.
  - eexists. split_and!; [reflexivity| | |].
    + exists p'. simpl. rewrite D4. split_and!; [done|done|by apply Hholds].
    + simpl. exact Hresp.
    + apply Forall2_fmap_r, Forall_Forall2_diag, Forall_forall. intros f _.
      unfold form_entry. cbn [entry_name entry_link entry_status].
      assert (Hiff : f_id f ∈ answered ↔ prior_response (pretty n) (f_id f) (db w)).
      { unfold answered. rewrite Hresp.
        apply (elem_of_answered (pretty n) (f_id f) (db w)). }
      split_and!; [done|done| |].
      * destruct (decide (f_id f ∈ answered)) as [Hin|Hnot].
        -- split; [intros _; by apply Hiff | done].
        -- split; [discriminate | intros Hpr; by apply Hiff in Hpr].
      * destruct (decide (f_id f ∈ answered)) as [Hin|Hnot].
        -- split; [discriminate | intros Hno; destruct Hno; by apply Hiff].
        -- split; [intros _ Hpr; by apply Hiff in Hpr | done].
Qed.

Lemma quiz_pool_ok : pool_ok quiz_pool.
Proof.
  split.
  - apply (bool_decide_unpack _). vm_compute. reflexivity.
  - intros s Hs. unfold quiz_pool in Hs.
    repeat (apply elem_of_cons in Hs as [->|Hs]); [| | |by apply elem_of_nil in Hs];
      simpl; split; intros; done.
  - intros s1 s2 u' H1 H2. unfold quiz_pool in H1, H2.
    repeat (apply elem_of_cons in H1 as [->|H1]); [| | |by apply elem_of_nil in H1];
      (repeat (apply elem_of_cons in H2 as [->|H2]); [| | |by apply elem_of_nil in H2]);
      unfold owns; simpl; intros; congruence.
Qed.

Lemma participant_page_available_witness :
  ∃ n entries w',
    participant_page "meeting_2_m" "u-ana" "t9" 0 (world_of quiz_db []) =
      (Ok (n, generate_participant_link "meeting_2_m" (Some "u-ana") "participant", entries),
       w') ∧
    (∃ p', pools (db w') !! "meeting_2_m" = Some p' ∧ pool_ok p' ∧ holds p' "u-ana" n) ∧
    responses (db w') = responses (db (world_of quiz_db [])) ∧
    Forall2 (λ f e,
        entry_name e = form_name f ∧
        entry_link e =
          generate_participant_link (f_table_name f) (Some "u-ana") "participant_form" ∧
        (entry_status e = "✅ Respondido"
           ↔ prior_response (pretty n) (f_id f) (db (world_of quiz_db []))) ∧
        (entry_status e = "⏳ Pendente"
           ↔ ¬ prior_response (pretty n) (f_id f) (db (world_of quiz_db []))))
      (linked_forms (m_id (mkMeeting 1 "meeting_2_m" "M" "t1" 3))
         (db (world_of quiz_db []))) entries.
Proof.
  apply (participant_page_available "meeting_2_m" "u-ana" "t9" 0 (world_of quiz_db [])
           quiz_pool (mkMeeting 1 "meeting_2_m" "M" "t1" 3)).
  - reflexivity.
  - reflexivity.
  - exact quiz_pool_ok.
  - reflexivity.
  - left. discriminate.
Defined.

(** ** The table of meetings *)

(** The row of a meeting, and the rows of the loop, when the store
    answers. *)
Lemma meeting_row_available m w :
  faults w = [] →
  ∃ w', meeting_row m w = (Ok (meeting_row_of (db w) m), w') ∧
    faults w' = [] ∧ db w' = db w.
Proof.
  intros Hf. unfold meeting_row, meeting_row_of. cbv zeta.
  rewrite bind_run, check_table_exists_run, next_fails_no_faults by done.
  set (w1 := issued (Select (m_table_name m)) w).
  assert (F1 : faults w1 = []) by (by apply issued_no_faults).
  destruct (bool_decide (table_exists (db w) (m_table_name m))) eqn:Hex.
  - unfold try_except. rewrite bind_run, select_slots_run, next_fails_no_faults by done.
    change (db w1) with (db w).
    destruct (pools (db w) !! m_table_name m) as [p|].
    + eexists. split_and!; [reflexivity|simpl; by rewrite Hf|done].
    + eexists. split_and!; [reflexivity|simpl; by rewrite Hf|done].
  - apply bool_decide_eq_false in Hex.
    destruct (pools (db w) !! m_table_name m) as [p|] eqn:Hp.
    + destruct Hex. right. by eexists.
    + eexists. split_and!; [reflexivity|done|done].
Qed.

Lemma meeting_rows_available ms : ∀ w,
  faults w = [] →
  ∃ w', meeting_rows ms w = (Ok (mjoin (meeting_row_of (db w) <$> ms)), w') ∧
    faults w' = [] ∧ db w' = db w.
Proof.
  induction ms as [|m ms IH]; intros w Hf.
  - exists w. done.
  - cbn [meeting_rows].
    destruct (meeting_row_available m w Hf) as (w2 & Hrow & F2 & D2).
    rewrite bind_run, Hrow, bind_run.
    destruct (IH w2 F2) as (w3 & -> & F3 & D3).
    eexists. split_and!; [|exact F3|congruence].
    unfold mret, M_ret. by rewrite D2.
Qed.

(** The allocator changes nothing but rows of the pool: the catalog and
    the size of the pool stay. *)
Lemma assign_or_get_keeps t u now rnd w p :
  pools (db w) !! t = Some p →
  ∃ p', pools (db (assign_or_get t u now rnd w).2) !! t = Some p' ∧
    length p' = length p ∧
    meetings_metadata (db (assign_or_get t u now rnd w).2) = meetings_metadata (db w).
Proof.
  intros Hp. rewrite (assign_or_get_run _ _ _ _ _ _ Hp). cbv zeta.
  destruct (next_fails w); [by exists p|].
  destruct (filter (owns u) p); [|by exists p].
  destruct (next_fails _); [by exists p|].
  destruct (filter unassigned p); [by exists p|].
  destruct (next_fails _); [by exists p|].
  eexists. simpl. rewrite lookup_insert_eq. split_and!; [reflexivity| |done].
  unfold written. by rewrite length_fmap.
Qed.

Lemma run_allocations_keeps t calls : ∀ w p,
  pools (db w) !! t = Some p →
  ∃ p', pools (db (run_allocations t calls w).2) !! t = Some p' ∧
    length p' = length p ∧
    meetings_metadata (db (run_allocations t calls w).2) = meetings_metadata (db w).
Proof.
  induction calls as [|[[u now] rnd] calls IH]; intros w p Hp; simpl; [by exists p|].
  destruct (assign_or_get_keeps t u now rnd w p Hp) as (p1 & Hp1 & L1 & M1).
  destruct (assign_or_get t u now rnd w) as [r w1]. simpl in Hp1, M1.
  destruct (IH w1 p1 Hp1) as (p2 & Hp2 & L2 & M2).
  destruct (run_allocations t calls w1) as [rs w2]. simpl in *.
  exists p2. split_and!; congruence.
Qed.

Lemma assigned_or_free (p : list NumberSlot) :
  (length (filter (λ s, assigned s = true) p) + length (filter unassigned p) = length p)%nat.
Proof.
  induction p as [|s p IH]; [done|].
  destruct (assigned s) eqn:Ha.
  - rewrite filter_cons_True by done.
    rewrite (filter_cons_False unassigned) by (unfold unassigned; congruence).
    simpl. lia.
  - rewrite filter_cons_False by congruence.
    rewrite (filter_cons_True unassigned) by done. simpl. lia.
Qed.

(** X13 — The table of meetings counts the participants.  Take a pool
    whose numbers are all free and let identities, each one once and one
    after the other, draw their numbers.  Afterwards, with the store
    available, the page of meetings lists the meeting with its name, its
    link, and as assigned numbers exactly the number of those identities;
    the total shown is the max_number of the metadata record. *)
Theorem listing_counts_allocations t calls w p rs w' m w2 :
  pools (db w) !! t = Some p → pool_ok p →
  (∀ s, s ∈ p → assigned s = false) →
  NoDup (identities calls) →
  run_allocations t calls w = (rs, w') →
  Forall (λ r, ∃ n, r = Ok n) rs →
  m ∈ meetings_metadata (db w) → m_table_name m = t →
  faults w2 = [] → db w2 = db w' →
  ∃ rows, (list_meetings w2).1 = Ok rows ∧
    mkMeetingRow (meeting_name m) t (generate_participant_link t None "participant")
      (short_time (m_created_at m)) (length calls) (max_number m) ∈ rows.
Proof.
  intros Hp Hok Hfree Hnd Hrun Hall Hm Ht F2 D2.
  assert (Hnew : ∀ u, u ∈ identities calls → filter (owns u) p = []).
  { intros u _. apply no_owner_filter. intros s Hs Ho.
    pose proof (proj1 (ok_bound p Hok s Hs) (Hfree s Hs)) as Hnone.
    unfold owns in Ho. congruence. }
  destruct (run_allocations_consume t calls w p rs w' Hp Hok Hnd Hnew Hrun Hall)
    as (p' & Hp' & _ & Hcount & _).
  destruct (run_allocations_keeps t calls w p Hp) as (p'' & Hp'' & Hlen & Hcat).
  rewrite Hrun in Hp'', Hcat. simpl in Hp'', Hcat.
  rewrite Hp' in Hp''. injection Hp'' as <-.
  assert (Hall_free : filter unassigned p = p).
  { clear -Hfree. induction p as [|s p IH]; [done|].
    rewrite filter_cons_True by (apply Hfree; left).
    f_equal. apply IH. intros s' Hs'. apply Hfree. by right. }
  assert (Hassigned : length (filter (λ s, assigned s = true) p') = length calls).
  { pose proof (assigned_or_free p') as Hsum. rewrite Hall_free in Hcount. lia. }
  unfold list_meetings. rewrite bind_run, get_available_meetings_run.
  rewrite next_fails_no_faults by done.
  assert (Hin : m ∈ meetings_metadata (db w2)) by (by rewrite D2, Hcat).
  destruct (meetings_metadata (db w2)) as [|m0 ms] eqn:Hms; [by apply elem_of_nil in Hin|].
  set (w3 := issued (Select "meetings_metadata") w2).
  destruct (meeting_rows_available (m0 :: ms) w3) as (w4 & Hrows & F4 & D4);
    [by apply issued_no_faults|].
  rewrite bind_run, Hrows. rewrite bind_run.
  assert (Hrow : mkMeetingRow (meeting_name m) t
                   (generate_participant_link t None "participant")
                   (short_time (m_created_at m)) (length calls) (max_number m)
                 ∈ mjoin (meeting_row_of (db w3) <$> m0 :: ms)).
  { apply list_elem_of_join. exists (meeting_row_of (db w3) m).
    split; [|by apply list_elem_of_fmap_2].
    unfold meeting_row_of. change (db w3) with (db w2).
    rewrite Ht, D2, Hp', Hassigned. left. }
  destruct (mjoin (meeting_row_of (db w3) <$> m0 :: ms)) as [|row rows] eqn:Hc;
    [by apply elem_of_nil in Hrow|].
  unfold mret, M_ret. cbn. eexists. split; [reflexivity|exact Hrow].
Qed.

Lemma listing_counts_allocations_witness :
  ∃ rows,
    (list_meetings (world_of (db (run_allocations "m" two_calls
                                    (world_of fresh_meeting_db [])).2) [])).1 = Ok rows ∧
    mkMeetingRow (meeting_name (mkMeeting 1 "m" "M" "t0" 3)) "m"
      (generate_participant_link "m" None "participant")
      (short_time (m_created_at (mkMeeting 1 "m" "M" "t0" 3))) (length two_calls)
      (max_number (mkMeeting 1 "m" "M" "t0" 3)) ∈ rows.
Proof.
  apply (listing_counts_allocations "m" two_calls (world_of fresh_meeting_db [])
           (fresh_slot <$> seqZ 1 3)
           (run_allocations "m" two_calls (world_of fresh_meeting_db [])).1
           (run_allocations "m" two_calls (world_of fresh_meeting_db [])).2
           (mkMeeting 1 "m" "M" "t0" 3)).
  - reflexivity.
  - apply fresh_pool_ok.
  - intros s Hs. apply list_elem_of_fmap in Hs as (j & -> & _). reflexivity.
  - apply (bool_decide_unpack _). vm_compute. reflexivity.
  - apply surjective_pairing.
  - vm_compute. repeat constructor; by eexists.
  - left.
  - reflexivity.
  - reflexivity.
  - reflexivity.
Defined.
